(** * BreakingBadV2: signal parsing, push-message registry, trade execution
      and session report

    A shallow embedding of [signal_parser.py], [wsmanager/message_handler.py],
    [trade.py] and the report loop of [telegram_bot.py], with the properties
    the design document states about them.

    Conventions of the embedding.
    - A Python [str] is a list of characters.  The parser is given twice.
      Its first form is on ASCII characters: the classes [\d], [\s],
      [str.strip] and [str.upper] are modelled on the code points below 128,
      where Python's Unicode tables and the ASCII ones agree, and a byte
      above 127 is an opaque symbol that is neither a digit, a space nor a
      letter; the properties of lines written in ASCII are stated on it.
      Its second form, the module [Unicode], is on code points with the
      tables of the interpreter as a parameter; the properties of every
      input are stated on that one.  On ASCII text the two forms agree
      ([encode_parse_signal] and the lemmas next to it).  The strings of
      the trade manager are ASCII.
    - A Python exception is a value of [exn]; code that can raise returns a
      [result].  A [try ... except Exception] block is a match on the result.
    - Logging calls of the parser are not modelled (they have no effect on
      any returned value); those of the trade manager are, as a list of
      records. *)

From Stdlib Require Import ZArith QArith List Ascii String Bool Lia.
From stdpp Require Import base option list gmap strings pretty sorting.

Local Open Scope Z_scope.
Local Open Scope list_scope.

(** ** Exceptions and results *)

Inductive exn : Type :=
| ValueError
| IndexError
| KeyError
| TypeError
| AttributeError
| OverflowError
| InvalidTradeParametersError (msg : string)
| TradeExecutionError (msg : string).

Inductive result (A : Type) : Type :=
| Ok (a : A)
| Raise (e : exn).

Arguments Ok {A} a.
Arguments Raise {A} e.

Definition rbind {A B : Type} (r : result A) (k : A -> result B) : result B :=
  match r with
  | Ok a => k a
  | Raise e => Raise e
  end.

Notation "x <-! r ; k" := (rbind r (fun x => k))
  (at level 100, r at next level, right associativity).

(** ** Characters and strings *)

Definition str : Type := list ascii.

Definition lit (s : string) : str := list_ascii_of_string s.

Definition code (c : ascii) : N := N_of_ascii c.

Definition in_range (lo hi : N) (c : ascii) : bool :=
  ((lo <=? code c) && (code c <=? hi))%N.

Definition is_digit (c : ascii) : bool := in_range 48 57 c.
Definition is_upper (c : ascii) : bool := in_range 65 90 c.
Definition is_lower (c : ascii) : bool := in_range 97 122 c.

(** [\s] and [str.isspace] on ASCII: TAB..CR, FS..US and the blank. *)
Definition is_space (c : ascii) : bool :=
  in_range 9 13 c || in_range 28 31 c || (code c =? 32)%N.

Definition chr_eqb (a b : ascii) : bool := Ascii.eqb a b.

Definition to_upper (c : ascii) : ascii :=
  if is_lower c then ascii_of_N (code c - 32) else c.

Definition to_lower (c : ascii) : ascii :=
  if is_upper c then ascii_of_N (code c + 32) else c.

(** [s.upper()], [s.lower()] *)
Definition upper (s : str) : str := map to_upper s.
Definition lower (s : str) : str := map to_lower s.

(** [s.lstrip()], [s.rstrip()], [s.strip()] *)
Fixpoint lstrip (s : str) : str :=
  match s with
  | [] => []
  | c :: tl => if is_space c then lstrip tl else s
  end.

Definition rstrip (s : str) : str := rev (lstrip (rev s)).

Definition strip (s : str) : str := rstrip (lstrip s).

(** [s.replace(old, new)] for a one-character [old]. *)
Definition replace_char (old : ascii) (new : str) (s : str) : str :=
  flat_map (fun c => if chr_eqb c old then new else [c]) s.

(** [s.split(sep)] for a one-character separator. *)
Fixpoint split_on (sep : ascii) (s : str) : list str :=
  match s with
  | [] => [[]]
  | c :: tl =>
      if chr_eqb c sep then [] :: split_on sep tl
      else match split_on sep tl with
           | h :: t => (c :: h) :: t
           | [] => [[c]]
           end
  end.

(** [sep.join(parts)] *)
Fixpoint join (sep : str) (parts : list str) : str :=
  match parts with
  | [] => []
  | [p] => p
  | p :: rest => p ++ sep ++ join sep rest
  end.

(** [sep in s] for a one-character [sep]. *)
Definition contains (sep : ascii) (s : str) : bool := existsb (fun c => chr_eqb c sep) s.

Fixpoint count_char (x : ascii) (s : str) : nat :=
  match s with
  | [] => O
  | c :: tl => ((if chr_eqb c x then 1 else 0) + count_char x tl)%nat
  end.

(** [a == b] *)
Definition str_eqb (a b : str) : bool :=
  (length a =? length b)%nat && forallb (fun p => chr_eqb (fst p) (snd p)) (combine a b).

Definition digit_val (c : ascii) : Z := Z.of_N (code c) - 48.

Definition int_of_digits (s : str) : Z :=
  fold_left (fun acc c => 10 * acc + digit_val c) s 0.

(** The interpreter's limit on the number of digits of a decimal text that
    [int] reads ([sys.int_info.default_max_str_digits]). *)
Definition int_max_str_digits : nat := 4300.

(** [int(s)] for a string of decimal digits: a [ValueError] for the empty
    string and for more than [int_max_str_digits] digits. *)
Definition py_int (s : str) : result Z :=
  match s with
  | [] => Raise ValueError
  | _ => if (length s <=? int_max_str_digits)%nat
         then Ok (int_of_digits s) else Raise ValueError
  end.

(** [l[i]] *)
Definition index {A : Type} (l : list A) (i : nat) : result A :=
  match nth_error l i with
  | Some x => Ok x
  | None => Raise IndexError
  end.

(** [range(start, stop, step)] for a positive step. *)
Definition py_range (start stop step : nat) : list nat :=
  map (fun k => (start + k * step)%nat)
      (seq 0 (Nat.div (stop - start + step - 1) step)).

(** ** The regular expressions of the parser

    Every pattern the parser uses matches at least one character, so a scan
    of the subject is: try the pattern at the current position; on a match
    record it and resume after it, otherwise keep one character and move one
    position on.  A [matcher] tries the pattern at the head of its argument
    and returns the matched text. *)

Inductive piece : Type :=
| Lit (c : ascii)
| Hit (m : str).

Definition matcher : Type := str -> option str.

(** [skip] counts the characters of the current match still to be passed
    over. *)
Fixpoint re_scan (m : matcher) (skip : nat) (s : str) : list piece :=
  match s with
  | [] => []
  | c :: tl =>
      match skip with
      | S k => re_scan m k tl
      | O =>
          match m s with
          | Some hit => Hit hit :: re_scan m (Nat.pred (length hit)) tl
          | None => Lit c :: re_scan m O tl
          end
      end
  end.

(** [re.sub(pattern, repl, s)], the replacement given as a function of the
    matched text. *)
Definition re_sub (m : matcher) (repl : str -> str) (s : str) : str :=
  flat_map (fun p => match p with Lit c => [c] | Hit h => repl h end)
           (re_scan m O s).

(** [re.findall(pattern, s)] for a pattern that is one capture group. *)
Definition re_findall (m : matcher) (s : str) : list str :=
  flat_map (fun p => match p with Lit _ => [] | Hit h => [h] end)
           (re_scan m O s).

(** [re.split(pattern, s)] for a pattern that is one capture group: the
    text between the matches with the matches in between. *)
Fixpoint split_pieces (cur : str) (ps : list piece) : list str :=
  match ps with
  | [] => [cur]
  | Lit c :: ps' => split_pieces (cur ++ [c]) ps'
  | Hit h :: ps' => cur :: h :: split_pieces [] ps'
  end.

Definition re_split (m : matcher) (s : str) : list str :=
  split_pieces [] (re_scan m O s).

Definition is_O (c : ascii) : bool := chr_eqb c "O" || chr_eqb c "o".

(** [[Oo](\d)] *)
Definition m_O_digit : matcher := fun s =>
  match s with
  | c :: d :: _ => if is_O c && is_digit d then Some [c; d] else None
  | _ => None
  end.

(** [\s*:] *)
Fixpoint m_spaces_colon (s : str) : option str :=
  match s with
  | [] => None
  | c :: tl =>
      if chr_eqb c ":" then Some [c]
      else if is_space c then option_map (cons c) (m_spaces_colon tl)
      else None
  end.

(** [[Oo]\s*:] *)
Definition m_O_colon : matcher := fun s =>
  match s with
  | c :: tl => if is_O c then option_map (cons c) (m_spaces_colon tl) else None
  | [] => None
  end.

(** The longest prefix of characters satisfying [p]. *)
Fixpoint span_of (p : ascii -> bool) (s : str) : str :=
  match s with
  | c :: tl => if p c then c :: span_of p tl else []
  | [] => []
  end.

Definition m_plus (p : ascii -> bool) : matcher := fun s =>
  match span_of p s with
  | [] => None
  | h => Some h
  end.

(** [\s+], [\d+], [\D] *)
Definition m_spaces : matcher := m_plus is_space.
Definition m_digits : matcher := m_plus is_digit.
Definition m_nondigit : matcher := fun s =>
  match s with
  | c :: _ => if is_digit c then None else Some [c]
  | [] => None
  end.

(** [\d{1,2}:\d{2}]: two leading digits are tried first, then one. *)
Definition m_time : matcher := fun s =>
  match s with
  | a :: b :: c :: d :: e :: _ =>
      if is_digit a && is_digit b && chr_eqb c ":" && is_digit d && is_digit e
      then Some [a; b; c; d; e]
      else if is_digit a && chr_eqb b ":" && is_digit c && is_digit d
      then Some [a; b; c; d]
      else None
  | a :: b :: c :: d :: [] =>
      if is_digit a && chr_eqb b ":" && is_digit c && is_digit d
      then Some [a; b; c; d]
      else None
  | _ => None
  end.

(** [[A-Z]{6}] *)
Definition m_pair : matcher := fun s =>
  match s with
  | a :: b :: c :: d :: e :: f :: _ =>
      if forallb is_upper [a; b; c; d; e; f] then Some [a; b; c; d; e; f] else None
  | _ => None
  end.

(** A literal word. *)
Fixpoint is_prefix (w s : str) : bool :=
  match w, s with
  | [], _ => true
  | x :: w', y :: s' => chr_eqb x y && is_prefix w' s'
  | _ :: _, [] => false
  end.

Definition m_word (w : str) : matcher := fun s =>
  if is_prefix w s then Some w else None.

(** Ordered alternation [a|b]. *)
Definition m_alt (a b : matcher) : matcher := fun s =>
  match a s with
  | Some h => Some h
  | None => b s
  end.

(** [(\d{1,2}:\d{2}|[A-Z]{6}|CALL|PUT|\d+)] *)
Definition m_field : matcher :=
  m_alt m_time (m_alt m_pair (m_alt (m_word (lit "CALL")) (m_alt (m_word (lit "PUT")) m_digits))).

(** [$]: the end of the subject, or just before a final newline. *)
Definition at_dollar (s : str) : bool :=
  match s with
  | [] => true
  | [c] => (code c =? 10)%N
  | _ => false
  end.

(** [re.match(r"^\d{1,2}:\d{2}$", s)] as a truth value. *)
Definition time_format_ok (s : str) : bool :=
  match s with
  | a :: b :: rest2 =>
      (is_digit a && is_digit b &&
       match rest2 with
       | c :: d :: e :: rest => chr_eqb c ":" && is_digit d && is_digit e && at_dollar rest
       | _ => false
       end)
      || (is_digit a && chr_eqb b ":" &&
          match rest2 with
          | c :: d :: rest => is_digit c && is_digit d && at_dollar rest
          | _ => false
          end)
  | _ => false
  end.

(** ** signal_parser.py *)

Module SignalParser.

Record Signal : Type := mkSignal {
  sig_time : str;
  sig_pair : str;
  sig_direction : str;
  sig_expiry : Z
}.

(** The first two statements of [clean_signal_line]. *)
Definition replace_i (line : str) : str := replace_char "i" (lit ";") line.

(** The statements after the replacement of [i]. *)
Definition normalize_tail (line : str) : str :=
  let line := re_sub m_O_digit (fun h => "0"%char :: drop 1 h) line in
  let line := re_sub m_O_colon (fun _ => lit "0:") line in
  let line := re_sub m_spaces (fun _ => []) line in
  if negb (contains ";" line)
  then join (lit ";") (re_findall m_field line)
  else line.

Definition clean_signal_line (line : str) : str :=
  let line := strip line in
  let line := replace_i line in
  normalize_tail line.

Definition parse_signal_body (line : str) : result (option Signal) :=
  let cleaned := clean_signal_line line in
  let parts := split_on ";" cleaned in
  if (length parts <? 4)%nat then Ok None
  else
    p0 <-! index parts 0;
    let time_str := strip p0 in
    p1 <-! index parts 1;
    let pair := replace_char "/" [] (upper p1) in
    p2 <-! index parts 2;
    let direction := upper p2 in
    p3 <-! index parts 3;
    expiry <-! py_int (re_sub m_nondigit (fun _ => []) p3);
    if negb (time_format_ok time_str) then Ok None
    else if negb (str_eqb direction (lit "CALL") || str_eqb direction (lit "PUT"))
    then Ok None
    else Ok (Some (mkSignal time_str pair direction expiry)).

(** The body runs inside [try ... except Exception: return None]. *)
Definition parse_signal (line : str) : option Signal :=
  match parse_signal_body line with
  | Ok r => r
  | Raise _ => None
  end.

(** One turn of the loop of [parse_signals_from_text]. *)
Definition text_step (parts : list str) (signals : list Signal) (i : nat)
  : result (list Signal) :=
  time_str <-! index parts i;
  signal_body <-! index parts (i + 1);
  let line := time_str ++ signal_body in
  match parse_signal line with
  | Some sig => Ok (signals ++ [sig])
  | None => Ok signals
  end.

Fixpoint for_each {A S : Type} (body : S -> A -> result S) (s : S) (l : list A)
  : result S :=
  match l with
  | [] => Ok s
  | x :: l' => s' <-! body s x; for_each body s' l'
  end.

Definition parse_signals_from_text (text : str) : result (list Signal) :=
  let parts := re_split m_time text in
  for_each (text_step parts) [] (py_range 1 (length parts) 2).

(** [parse_signals_from_file], from the outcome of opening and reading the
    file: [readlines()] or the exception raised. *)
Definition parse_signals_from_file (read : result (list str)) : list Signal :=
  match read with
  | Ok lines =>
      fold_left (fun signals line =>
                   match parse_signal line with
                   | Some sig => signals ++ [sig]
                   | None => signals
                   end) lines []
  | Raise _ => []
  end.

End SignalParser.

Import SignalParser.

(** Validation of one line, as the conditions [parse_signal] tests. *)
Definition fields (line : str) : list str := split_on ";" (clean_signal_line line).

Definition field (line : str) (i : nat) : str := nth i (fields line) [].

Definition direction_ok (d : str) : bool :=
  str_eqb d (lit "CALL") || str_eqb d (lit "PUT").

(** The digits of the expiry field are those [int] can read: at least one
    and at most [int_max_str_digits]. *)
Definition expiry_ok (p3 : str) : bool :=
  existsb is_digit p3
  && (length (List.filter is_digit p3) <=? int_max_str_digits)%nat.

Definition line_accepted (line : str) : bool :=
  (4 <=? length (fields line))%nat
  && time_format_ok (strip (field line 0))
  && direction_ok (upper (field line 2))
  && expiry_ok (field line 3).

(** A matcher returns a non-empty prefix of its argument. *)
Definition matcher_ok (m : matcher) : Prop :=
  forall s hit, m s = Some hit -> hit <> [] /\ exists rest, s = hit ++ rest.

(** The number of matches of a scan. *)
Definition hits (ps : list piece) : nat :=
  length (flat_map (fun p => match p with Lit _ => [] | Hit h => [h] end) ps).

(** [replace("i", ";")] character by character. *)
Definition swap_i (c : ascii) : ascii := if chr_eqb c "i" then ";"%char else c.

(** [re.sub] of [\D] by the empty string. *)
Definition digits_of (s : str) : str := re_sub m_nondigit (fun _ => []) s.

(** ** Python values

    The values of decoded JSON frames and of the arguments of the trade
    manager.  A float is a rational or one of the three special values, which
    is exact for the comparisons the code makes. *)

Inductive pyfloat : Type :=
| FFinite (q : Q)
| FInf (negative : bool)
| FNaN.

#[warnings="-register-all"] Inductive pyval : Type :=
| PNone
| PBool (b : bool)
| PInt (z : Z)
| PFloat (f : pyfloat)
| PStr (s : string)
| PList (l : list pyval)
| PDict (d : list (string * pyval)).

Definition Qltb (a b : Q) : bool := negb (Qle_bool b a).

Definition float_lt_int (f : pyfloat) (n : Z) : bool :=
  match f with
  | FFinite q => Qltb q (inject_Z n)
  | FInf negative => negative
  | FNaN => false
  end.

Definition float_gt_int (f : pyfloat) (n : Z) : bool :=
  match f with
  | FFinite q => Qltb (inject_Z n) q
  | FInf negative => negb negative
  | FNaN => false
  end.

(** [v is None] *)
Definition is_none (v : pyval) : bool :=
  match v with PNone => true | _ => false end.

(** [isinstance(v, int)]: [bool] is a subclass of [int]. *)
Definition is_int (v : pyval) : bool :=
  match v with PInt _ | PBool _ => true | _ => false end.

(** [isinstance(v, (int, float))] *)
Definition is_number (v : pyval) : bool :=
  match v with PInt _ | PBool _ | PFloat _ => true | _ => false end.

(** [isinstance(v, str)] *)
Definition is_str (v : pyval) : bool :=
  match v with PStr _ => true | _ => false end.

(** [v < n] and [v > n] against an [int] literal. *)
Definition py_lt (v : pyval) (n : Z) : result bool :=
  match v with
  | PBool b => Ok (Z.b2z b <? n)
  | PInt z => Ok (z <? n)
  | PFloat f => Ok (float_lt_int f n)
  | _ => Raise TypeError
  end.

Definition py_gt (v : pyval) (n : Z) : result bool :=
  match v with
  | PBool b => Ok (n <? Z.b2z b)
  | PInt z => Ok (n <? z)
  | PFloat f => Ok (float_gt_int f n)
  | _ => Raise TypeError
  end.

(** Truth value of [v] in a condition. *)
Definition truthy (v : pyval) : bool :=
  match v with
  | PNone => false
  | PBool b => b
  | PInt z => negb (z =? 0)
  | PFloat (FFinite q) => negb (Qeq_bool q 0)
  | PFloat _ => true
  | PStr s => negb (String.eqb s EmptyString)
  | PList l => match l with [] => false | _ => true end
  | PDict d => match d with [] => false | _ => true end
  end.

(** [v == "text"] *)
Definition eq_str (v : pyval) (s : string) : bool :=
  match v with PStr t => String.eqb t s | _ => false end.

Fixpoint assoc (k : string) (d : list (string * pyval)) : option pyval :=
  match d with
  | [] => None
  | (k', v) :: d' => if String.eqb k' k then Some v else assoc k d'
  end.

(** [d.get(k, default)] *)
Definition dict_get (d : pyval) (k : string) (default : pyval) : result pyval :=
  match d with
  | PDict l => Ok (match assoc k l with Some v => v | None => default end)
  | _ => Raise AttributeError
  end.

(** [d[k]] for a string key. *)
Definition subscript (d : pyval) (k : string) : result pyval :=
  match d with
  | PDict l => match assoc k l with Some v => Ok v | None => Raise KeyError end
  | _ => Raise TypeError
  end.

(** [x[0]] *)
Definition first_item (x : pyval) : result pyval :=
  match x with
  | PList (v :: _) => Ok v
  | PList [] => Raise IndexError
  | PStr (String c _) => Ok (PStr (String c EmptyString))
  | PStr EmptyString => Raise IndexError
  | PDict _ => Raise KeyError
  | _ => Raise TypeError
  end.

Definition py_lower (s : string) : string :=
  string_of_list_ascii (lower (list_ascii_of_string s)).

Definition py_strip (s : string) : string :=
  string_of_list_ascii (strip (list_ascii_of_string s)).

(** [str(n)] for an [int]. *)
Definition str_of_int (n : Z) : string := pretty n.

(** The blanks [int] passes over around a number: TAB..CR, the blank, NEL
    and the no-break space.  FS..US, which [str.strip] removes, are not
    among them. *)
Definition is_int_space (c : ascii) : bool :=
  in_range 9 13 c || (code c =? 32)%N || (code c =? 133)%N || (code c =? 160)%N.

Fixpoint drop_while (p : ascii -> bool) (s : str) : str :=
  match s with
  | [] => []
  | c :: tl => if p c then drop_while p tl else s
  end.

(** The digits of a decimal literal, which single underscores may group:
    [None] when an underscore does not stand between two digits, when
    another character occurs or when there is no digit. *)
Fixpoint grouped_digits (after_digit : bool) (s : str) : option str :=
  match s with
  | [] => if after_digit then Some [] else None
  | c :: tl =>
      if is_digit c then option_map (cons c) (grouped_digits true tl)
      else if chr_eqb c "_" && after_digit then grouped_digits false tl
      else None
  end.

(** [int(text)] for a string: blanks around an optional sign and decimal
    digits, at most [int_max_str_digits] of them. *)
Definition int_of_text (s : string) : result Z :=
  let t := rev (drop_while is_int_space
                  (rev (drop_while is_int_space (list_ascii_of_string s)))) in
  let '(negative, body) :=
    match t with
    | c :: tl => if chr_eqb c "-" then (true, tl)
                 else if chr_eqb c "+" then (false, tl) else (false, t)
    | [] => (false, t)
    end in
  match grouped_digits false body with
  | Some ds =>
      if (length ds <=? int_max_str_digits)%nat
      then Ok (if negative : bool then - int_of_digits ds else int_of_digits ds)
      else Raise ValueError
  | None => Raise ValueError
  end.

(** [int(v)] *)
Definition py_int_of (v : pyval) : result Z :=
  match v with
  | PInt z => Ok z
  | PBool b => Ok (Z.b2z b)
  | PFloat (FFinite q) => Ok (Z.quot (Qnum q) (Zpos (Qden q)))
  | PFloat (FInf _) => Raise OverflowError
  | PFloat FNaN => Raise ValueError
  | PStr s => int_of_text s
  | _ => Raise TypeError
  end.

(** ** wsmanager/message_handler.py

    The attributes of [MessageHandler] that the trade manager reads:
    [server_time], [open_positions] and [position_info].  The handlers of the
    other frames ([profile], [candles], [balances], ...) write attributes of
    their own and leave these untouched; the file written by [_save_data] is
    not modelled.  A frame is the record of the three entries the handlers
    read: its name, its request id (the string the client sent with the
    order) and its [msg]. *)

Record Message : Type := mkMessage {
  m_name : string;
  m_request_id : string;
  m_msg : pyval
}.

Record MessageHandler : Type := mkHandler {
  server_time : pyval;
  digital_options : gmap string pyval;
  binary_options : gmap string pyval;
  position_info : gmap Z pyval
}.

(** [MessageHandler.__init__] *)
Definition new_handler : MessageHandler := mkHandler PNone ∅ ∅ ∅.

Definition set_server_time (h : MessageHandler) (v : pyval) : MessageHandler :=
  mkHandler v (digital_options h) (binary_options h) (position_info h).

Definition set_digital (h : MessageHandler) (k : string) (v : pyval) : MessageHandler :=
  mkHandler (server_time h) (<[k := v]> (digital_options h)) (binary_options h)
            (position_info h).

Definition set_binary (h : MessageHandler) (k : string) (v : pyval) : MessageHandler :=
  mkHandler (server_time h) (digital_options h) (<[k := v]> (binary_options h))
            (position_info h).

Definition set_position (h : MessageHandler) (k : Z) (v : pyval) : MessageHandler :=
  mkHandler (server_time h) (digital_options h) (binary_options h)
            (<[k := v]> (position_info h)).

(** [d.get(k)] on a registry: [None] for a missing key. *)
Definition registry_get {K : Type} `{Countable K} (d : gmap K pyval) (k : K) : pyval :=
  match d !! k with Some v => v | None => PNone end.

Definition handle_server_time (h : MessageHandler) (message : Message)
  : result MessageHandler :=
  Ok (set_server_time h (m_msg message)).

Definition handle_digital_option_placed (h : MessageHandler) (message : Message)
  : result MessageHandler :=
  id <-! dict_get (m_msg message) "id" PNone;
  if negb (is_none id)
  then Ok (set_digital h (m_request_id message) id)
  else
    text <-! dict_get (m_msg message) "message" PNone;
    Ok (set_digital h (m_request_id message) text).

Definition handle_position_changed (h : MessageHandler) (message : Message)
  : result MessageHandler :=
  raw_event <-! subscript (m_msg message) "raw_event";
  order_ids <-! subscript raw_event "order_ids";
  first <-! first_item order_ids;
  order_id <-! py_int_of first;
  Ok (set_position h order_id (m_msg message)).

Definition handle_binary_option_opened (h : MessageHandler) (message : Message)
  : result MessageHandler :=
  option_id <-! dict_get (m_msg message) "id" PNone;
  if truthy option_id
  then Ok (set_binary h (m_request_id message) option_id)
  else
    text <-! dict_get (m_msg message) "message" PNone;
    Ok (set_binary h (m_request_id message) text).

Definition handle_binary_option_closed (h : MessageHandler) (message : Message)
  : result MessageHandler :=
  raw <-! subscript (m_msg message) "id";
  option_id <-! py_int_of raw;
  Ok (set_position h option_id (m_msg message)).

Definition handle_message (h : MessageHandler) (message : Message)
  : result MessageHandler :=
  let name := m_name message in
  if String.eqb name "timeSync" then handle_server_time h message
  else if String.eqb name "digital-option-placed" then handle_digital_option_placed h message
  else if String.eqb name "position-changed" then handle_position_changed h message
  else if String.eqb name "option-opened" then handle_binary_option_opened h message
  else if String.eqb name "option-closed" then handle_binary_option_closed h message
  else Ok h.

(** A frame handled while a waiter is suspended: an exception of the
    handler stays in the receiving task and leaves the attributes as they
    were. *)
Definition deliver (h : MessageHandler) (message : Message) : MessageHandler :=
  match handle_message h message with
  | Ok h' => h'
  | Raise _ => h
  end.

(** A placement-result frame for request id [k]. *)
Definition placement (k : string) (payload : list (string * pyval)) : Message :=
  mkMessage "digital-option-placed" k (PDict payload).

(** ** trade.py *)

Inductive level : Type := INFO | ERROR.

(** The records written by the logger of the trade manager. *)
Inductive log_event : Type :=
| OrderExecuted (order_id : pyval) (expires_in : Q)
| OrderExecutionFailed (reason : pyval)
| ConfirmationTimedOut (timeout : Q)
| TradeClosed (order_id : Z) (result_type : string) (pnl : pyval)
| TradeExecutionFailed (e : exn)
| UnexpectedError (e : exn).

Definition log_record : Type := level * log_event.

(** What the environment does while a coroutine runs: [Tick now] is the
    value of the next call of [time.time()]; [Deliver m] is a frame passed
    to [handle_message] by the receiving task. *)
Inductive event : Type :=
| Tick (now : Q)
| Deliver (m : Message).

(** The state of a call: returned, raised, or still inside its loop when the
    listed events end ([Pending] keeps the locals of the loop). *)
Inductive outcome (S A : Type) : Type :=
| Returned (a : A)
| Raised (e : exn)
| Pending (s : S).

Arguments Returned {S A} a.
Arguments Raised {S A} e.
Arguments Pending {S A} s.

(** The body of an order frame built by [_build_options_body]. *)
Record OrderBody : Type := mkOrderBody {
  user_balance_id : Z;
  instrument_id : string;
  amount_text : pyval;    (* the value whose [str()] is sent *)
  asset_id : Z;
  instrument_index : Z
}.

(** One call of [ws_manager.send_message(name, msg, request_id)]. *)
Record Sent : Type := mkSent {
  sent_name : string;
  sent_body : OrderBody;
  sent_request_id : string
}.

(** The objects a [TradeManager] holds, with the frames sent so far and the
    log. *)
Record World : Type := mkWorld {
  handler : MessageHandler;
  current_account_id : pyval;
  outbox : list Sent;
  log : list log_record
}.

Definition with_handler (w : World) (h : MessageHandler) (lg : list log_record) : World :=
  mkWorld h (current_account_id w) (outbox w) lg.

Definition with_log (w : World) (r : log_record) : World :=
  mkWorld (handler w) (current_account_id w) (outbox w) (log w ++ [r]).

Definition send_message (w : World) (name : string) (msg : OrderBody) (request_id : string)
  : World :=
  mkWorld (handler w) (current_account_id w)
          (outbox w ++ [mkSent name msg request_id]) (log w).

(** [self.message_handler.position_info.get(order_id, {})] *)
Definition order_data_of (h : MessageHandler) (order_id : Z) : pyval :=
  match position_info h !! order_id with
  | Some v => v
  | None => PDict []
  end.

(** [order_data and order_data.get("status") == "closed"] *)
Definition order_closed (order_data : pyval) : result bool :=
  if truthy order_data
  then status <-! dict_get order_data "status" PNone;
       Ok (eq_str status "closed")
  else Ok false.

(** [float(z)] for an [int] raises [OverflowError] from the first integer
    that rounds to [2**1024] upwards. *)
Definition float_of_int_overflows (z : Z) : bool :=
  2 ^ 1024 - 2 ^ 970 <=? Z.abs z.

(** [f"{v:.2f}"], as far as it can fail: an [int] is converted to a [float]
    first. *)
Definition format_2f (v : pyval) : result unit :=
  match v with
  | PInt z => if float_of_int_overflows z then Raise OverflowError else Ok tt
  | PBool _ | PFloat _ => Ok tt
  | PStr _ => Raise ValueError
  | _ => Raise TypeError
  end.

(** [pnl] and [result_type] of a closed order, with the text of the log
    record, which is built before the [return]. *)
Definition closed_pnl (order_data : pyval) : result (pyval * string) :=
  pnl <-! dict_get order_data "pnl" (PInt 0);
  win <-! py_gt pnl 0;
  let result_type := if win : bool then "WIN"%string else "LOSS"%string in
  _ <-! format_2f pnl;
  Ok (pnl, result_type).

Section TradeManager.

(** The table of [options_assests.py] and the helpers of [utilities.py],
    which the sources do not include, and the library call
    [datetime.fromtimestamp(t, timezone.utc).strftime("%Y%m%d%H%M")]. *)
Variable UNDERLYING_ASSESTS : gmap string Z.
Variable get_expiration : pyval -> pyval -> result Z.
Variable get_remaining_secs : pyval -> pyval -> result Q.
Variable strftime_utc : Z -> result string.

Definition get_asset_id (asset_name : string) : result Z :=
  match UNDERLYING_ASSESTS !! asset_name with
  | Some i => Ok i
  | None => Raise KeyError
  end.

Definition validate_options_trading_parameters
    (account_id asset amount direction expiry : pyval) : result unit :=
  if negb (is_str asset)
     || negb (truthy (match asset with PStr s => PStr (py_strip s) | v => v end))
  then Raise (InvalidTradeParametersError "Asset name cannot be empty")
  else
    small <-! (if negb (is_number amount) then Ok true else py_lt amount 1);
    if small : bool
    then Raise (InvalidTradeParametersError "Minimum Bet Amount is $1")
    else
      match direction with
      | PStr d =>
          let d := py_strip (py_lower d) in
          if negb (String.eqb d "put" || String.eqb d "call")
          then Raise (InvalidTradeParametersError "Direction must be 'put' or 'call'")
          else
            low <-! (if negb (is_int expiry) then Ok true else py_lt expiry 1);
            if low : bool
            then Raise (InvalidTradeParametersError "Expiry must be positive integer")
            else if negb (truthy account_id)
            then Raise (TradeExecutionError "No active account available")
            else Ok tt
      | _ => Raise AttributeError
      end.

Definition build_options_body (w : World) (asset : string) (amount expiry : pyval)
    (direction : string) : result OrderBody :=
  id <-! get_asset_id asset;
  let active_id := str_of_int id in
  expiration <-! get_expiration (server_time (handler w)) expiry;
  date_formatted <-! strftime_utc expiration;
  expiry_text <-! (match expiry with
                   | PInt z => Ok (str_of_int z)
                   | PBool true => Ok "True"
                   | PBool false => Ok "False"
                   | _ => Raise TypeError
                   end);
  let instrument :=
    ("do" +:+ active_id +:+ "A" +:+ substring 0 8 date_formatted
       +:+ "D" +:+ substring 8 (String.length date_formatted - 8) date_formatted
       +:+ "00T" +:+ expiry_text +:+ "M" +:+ direction +:+ "SPT")%string in
  balance <-! py_int_of (current_account_id w);
  asset_number <-! int_of_text active_id;
  Ok (mkOrderBody balance instrument amount asset_number 0).

(** [wait_for_order_confirmation]: [st] is [start_time] once it has been
    read.  Each turn of the loop reads the clock, looks the request id up and
    sleeps; frames are delivered while it sleeps. *)
Fixpoint confirm_run (request_id : string) (expiry : pyval) (timeout : Q)
    (st : option Q) (h : MessageHandler) (lg : list log_record) (evs : list event)
  : outcome (option Q) (option (bool * pyval)) * MessageHandler * list log_record :=
  match evs with
  | [] => (Pending st, h, lg)
  | Deliver m :: evs' => confirm_run request_id expiry timeout st (deliver h m) lg evs'
  | Tick now :: evs' =>
      match st with
      | None => confirm_run request_id expiry timeout (Some now) h lg evs'
      | Some start_time =>
          if Qltb (now - start_time) timeout
          then
            let result := registry_get (digital_options h) request_id in
            if negb (is_none result)
            then
              if is_int result
              then
                match get_remaining_secs (server_time h) expiry with
                | Ok expires_in =>
                    (Returned (Some (true, result)), h,
                     lg ++ [(INFO, OrderExecuted result expires_in)])
                | Raise e => (Raised e, h, lg)
                end
              else
                (Returned (Some (false, result)), h,
                 lg ++ [(ERROR, OrderExecutionFailed result)])
            else confirm_run request_id expiry timeout st h lg evs'
          else (Returned None, h, lg ++ [(ERROR, ConfirmationTimedOut timeout)])
      end
  end.

Definition wait_for_order_confirmation (request_id : string) (expiry : pyval)
    (timeout : Q) (h : MessageHandler) (lg : list log_record) (evs : list event) :=
  confirm_run request_id expiry timeout None h lg evs.

(** The default of the parameter [timeout]. *)
Definition confirmation_timeout : Q := 10.

(** [get_trade_outcome]: [st] is [(start_time, timeout)] once both have been
    computed. *)
Fixpoint outcome_run (order_id : Z) (expiry : pyval) (st : option (Q * Q))
    (h : MessageHandler) (lg : list log_record) (evs : list event)
  : outcome (option (Q * Q)) (bool * pyval) * MessageHandler * list log_record :=
  match evs with
  | [] => (Pending st, h, lg)
  | Deliver m :: evs' => outcome_run order_id expiry st (deliver h m) lg evs'
  | Tick now :: evs' =>
      match st with
      | None =>
          match get_remaining_secs (server_time h) expiry with
          | Ok timeout => outcome_run order_id expiry (Some (now, timeout)) h lg evs'
          | Raise e => (Raised e, h, lg)
          end
      | Some (start_time, timeout) =>
          if Qltb (now - start_time) (timeout + 3)
          then
            let order_data := order_data_of h order_id in
            match order_closed order_data with
            | Raise e => (Raised e, h, lg)
            | Ok false => outcome_run order_id expiry st h lg evs'
            | Ok true =>
                match closed_pnl order_data with
                | Ok (pnl, result_type) =>
                    (Returned (true, pnl), h,
                     lg ++ [(INFO, TradeClosed order_id result_type pnl)])
                | Raise e => (Raised e, h, lg)
                end
            end
          else (Returned (false, PNone), h, lg)
      end
  end.

Definition get_trade_outcome (order_id : Z) (expiry : pyval)
    (h : MessageHandler) (lg : list log_record) (evs : list event) :=
  outcome_run order_id expiry None h lg evs.

(** The statements of [_execute_digital_option_trade] up to the call of
    [send_message]; [draw] is the value of [randint(0, 100000)]. *)
Definition prepare_order (w : World) (asset amount direction expiry : pyval) (draw : Z)
  : result (OrderBody * string) :=
  match direction with
  | PStr d =>
      let direction := py_lower d in
      _ <-! validate_options_trading_parameters
              (current_account_id w) asset amount (PStr direction) expiry;
      direction_code <-! (if String.eqb direction "put" then Ok "P"%string
                          else if String.eqb direction "call" then Ok "C"%string
                          else Raise KeyError);
      let request_id := str_of_int draw in
      match asset with
      | PStr a =>
          msg <-! build_options_body w a amount expiry direction_code;
          Ok (msg, request_id)
      | _ => Raise TypeError
      end
  | _ => Raise AttributeError
  end.

(** The two [except] clauses: the record logged for an exception. *)
Definition failure_record (e : exn) : log_record :=
  match e with
  | InvalidTradeParametersError _ | TradeExecutionError _ | KeyError =>
      (ERROR, TradeExecutionFailed e)
  | _ => (ERROR, UnexpectedError e)
  end.

(** [_execute_digital_option_trade]: the value returned is [None] when the
    function ends without a [return]. *)
Definition execute_digital_option_trade (w : World)
    (asset amount direction expiry : pyval) (draw : Z) (evs : list event)
  : outcome (option Q) (option (bool * pyval)) * World :=
  match prepare_order w asset amount direction expiry draw with
  | Raise e => (Returned None, with_log w (failure_record e))
  | Ok (msg, request_id) =>
      let w := send_message w "sendMessage" msg request_id in
      match confirm_run request_id expiry confirmation_timeout None
                        (handler w) (log w) evs with
      | (Returned r, h, lg) => (Returned r, with_handler w h lg)
      | (Pending s, h, lg) => (Pending s, with_handler w h lg)
      | (Raised e, h, lg) =>
          (Returned None, with_log (with_handler w h lg) (failure_record e))
      end
  end.

End TradeManager.

(** ** telegram_bot.py: the report of [process_and_schedule_signals]

    [num] is the type of the profits ([float] in the program) with its
    addition; the report is built from the values returned by the trade
    tasks, [None] for a task that returned nothing. *)

Inductive icon : Type := CheckMark | CrossMark | WarningSign.

Section Report.

Variable num : Type.
Variable zero : num.
Variable add : num -> num -> num.

Record TradeResult : Type := mkTradeResult {
  tr_asset : string;
  tr_direction : string;
  tr_result : string;
  tr_profit : num;
  tr_gales : Z
}.

Record ReportLine : Type := mkReportLine {
  rl_icon : icon;
  rl_asset : string;
  rl_direction : string;
  rl_result : string;
  rl_gales : Z
}.

Record Report : Type := mkReport {
  report_lines : list ReportLine;
  wins : nat;
  losses : nat;
  total_profit : num
}.

Definition line_of (res : TradeResult) : ReportLine :=
  mkReportLine
    (if String.eqb (tr_result res) "WIN" then CheckMark
     else if String.eqb (tr_result res) "LOSS" then CrossMark
     else WarningSign)
    (tr_asset res) (tr_direction res) (tr_result res) (tr_gales res).

(** One turn of [for res in results]. *)
Definition report_step (acc : Report) (res : option TradeResult) : Report :=
  match res with
  | None => acc
  | Some res =>
      let lines := report_lines acc ++ [line_of res] in
      if String.eqb (tr_result res) "WIN"
      then mkReport lines (wins acc + 1) (losses acc) (add (total_profit acc) (tr_profit res))
      else if String.eqb (tr_result res) "LOSS"
      then mkReport lines (wins acc) (losses acc + 1) (add (total_profit acc) (tr_profit res))
      else mkReport lines (wins acc) (losses acc) (total_profit acc)
  end.

(** The block under [if all_trade_tasks:]; no report for an empty list. *)
Definition session_report (results : list (option TradeResult)) : option Report :=
  match results with
  | [] => None
  | _ => Some (fold_left report_step results (mkReport [] 0 0 zero))
  end.

(** The tallies as the design document words them. *)
Definition present (results : list (option TradeResult)) : list TradeResult :=
  flat_map (fun r => match r with Some x => [x] | None => [] end) results.

Definition has_result (tag : string) (res : TradeResult) : bool :=
  String.eqb (tr_result res) tag.

Definition count_result (tag : string) (results : list (option TradeResult)) : nat :=
  length (List.filter (has_result tag) (present results)).

Definition counted_profits (results : list (option TradeResult)) : list num :=
  map tr_profit
      (List.filter (fun r => has_result "WIN" r || has_result "LOSS" r) (present results)).

Definition sum_profits (l : list num) : num := fold_left add l zero.

End Report.

Arguments mkTradeResult {num}.
Arguments tr_asset {num}.
Arguments tr_direction {num}.
Arguments tr_result {num}.
Arguments tr_profit {num}.
Arguments tr_gales {num}.
Arguments mkReport {num}.
Arguments report_lines {num}.
Arguments wins {num}.
Arguments losses {num}.
Arguments total_profit {num}.
Arguments line_of {num}.
Arguments present {num}.
Arguments has_result {num}.
Arguments count_result {num}.
Arguments counted_profits {num}.

(** ** Notions used to state the properties of the registry and the waits *)

(** What a placement frame writes under its request id. *)
Definition placement_value (payload : list (string * pyval)) : pyval :=
  let id := match assoc "id" payload with Some v => v | None => PNone end in
  if negb (is_none id) then id
  else match assoc "message" payload with Some v => v | None => PNone end.

Definition is_placement_for (k : string) (m : Message) : bool :=
  String.eqb (m_name m) "digital-option-placed" && String.eqb (m_request_id m) k.

(** Frames none of which is a placement frame for [k]. *)
Definition other_frames (k : string) (ms : list Message) : bool :=
  forallb (fun m => negb (is_placement_for k m)) ms.

(** The handler after a run of frames. *)
Definition deliver_all (h : MessageHandler) (ms : list Message) : MessageHandler :=
  fold_left deliver ms h.

(** No placement frame for [k] among the events. *)
Definition no_placement_for (k : string) (evs : list event) : bool :=
  forallb (fun ev => match ev with
                     | Deliver m => negb (is_placement_for k m)
                     | Tick _ => true
                     end) evs.

(** The polls of the closure wait that run before the deadline find no
    closed record of the order. *)
Fixpoint never_seen_closed (order_id : Z) (h : MessageHandler) (evs : list event) : bool :=
  match evs with
  | [] => true
  | Deliver m :: evs' => never_seen_closed order_id (deliver h m) evs'
  | Tick _ :: evs' =>
      match order_closed (order_data_of h order_id) with
      | Ok false => never_seen_closed order_id h evs'
      | _ => false
      end
  end.

(** A record of [position_info] that the closure poll takes for closed: a
    dict whose status is the text [closed]. *)
Definition record_closed (record : option pyval) : bool :=
  match record with
  | Some (PDict d) =>
      match assoc "status" d with
      | Some (PStr status) => String.eqb status "closed"
      | _ => false
      end
  | _ => false
  end.

(** A record the closure poll passes over: none, a falsy value, or a dict
    with another status or none. *)
Definition record_open (record : option pyval) : bool :=
  match record with
  | None => true
  | Some (PDict d) => negb (record_closed (Some (PDict d)))
  | Some v => negb (truthy v)
  end.

(** Every poll among the events finds the record of the order open. *)
Fixpoint polls_find_open (order_id : Z) (h : MessageHandler) (evs : list event) : bool :=
  match evs with
  | [] => true
  | Deliver m :: evs' => polls_find_open order_id (deliver h m) evs'
  | Tick _ :: evs' =>
      record_open (position_info h !! order_id) && polls_find_open order_id h evs'
  end.

(** A pnl the closure wait can report: a number whose text with two
    decimals exists. *)
Definition reportable (pnl : pyval) : bool :=
  match pnl with
  | PInt z => Z.abs z <? 2 ^ 1024 - 2 ^ 970
  | PBool _ | PFloat _ => true
  | _ => false
  end.

(** [pnl > 0] for a number; false for NaN. *)
Definition is_win (pnl : pyval) : bool :=
  match pnl with
  | PInt z => 0 <? z
  | PBool b => b
  | PFloat (FFinite q) => Qltb 0 q
  | PFloat (FInf negative) => negb negative
  | _ => false
  end.

(** The entry [pnl] of a record, 0 when it has none. *)
Definition pnl_of (data : list (string * pyval)) : pyval :=
  match assoc "pnl" data with Some v => v | None => PInt 0 end.

(** ** The validation rules of the executor *)

(** The asset is a non-blank string with an entry in the table. *)
Definition asset_resolves (table : gmap string Z) (asset : pyval) : bool :=
  match asset with
  | PStr a =>
      truthy (PStr (py_strip a))
      && match table !! a with Some _ => true | None => false end
  | _ => false
  end.

(** The amount is an [int] or a [float] for which [amount < 1] is false. *)
Definition amount_accepted (amount : pyval) : bool :=
  match amount with
  | PInt z => 1 <=? z
  | PBool b => b
  | PFloat f => negb (float_lt_int f 1)
  | _ => false
  end.

(** The amount is a finite number that is at least 1. *)
Definition amount_finite_at_least_1 (amount : pyval) : bool :=
  match amount with
  | PInt z => 1 <=? z
  | PBool b => b
  | PFloat (FFinite q) => Qle_bool 1 q
  | _ => false
  end.

Definition nan_or_plus_infinity (amount : pyval) : bool :=
  match amount with
  | PFloat FNaN | PFloat (FInf false) => true
  | _ => false
  end.

Definition direction_normalizes (direction : pyval) : bool :=
  match direction with
  | PStr d =>
      let d := py_strip (py_lower d) in
      String.eqb d "put" || String.eqb d "call"
  | _ => false
  end.

Definition expiry_positive_int (expiry : pyval) : bool :=
  match expiry with
  | PInt z => 1 <=? z
  | PBool b => b
  | _ => false
  end.

Definition inputs_accepted (table : gmap string Z) (w : World)
    (asset amount direction expiry : pyval) : bool :=
  asset_resolves table asset
  && amount_accepted amount
  && direction_normalizes direction
  && expiry_positive_int expiry
  && truthy (current_account_id w).

(** ** A concrete environment for the worked runs *)

Definition sample_assets : gmap string Z := {["EURUSD"%string := 1]}.
Definition sample_expiration (server_time expiry : pyval) : result Z := Ok 0.
Definition sample_remaining (server_time expiry : pyval) : result Q := Ok 60%Q.
Definition sample_strftime (t : Z) : result string := Ok "197001010000"%string.
Definition sample_world : World := mkWorld new_handler (PInt 12345) [] [].

(** A frame of the server clock, which carries no request id. *)
Definition sample_time_sync : Message :=
  mkMessage "timeSync" EmptyString (PInt 1700000000).

Definition sample_execute :=
  execute_digital_option_trade sample_assets sample_expiration sample_remaining
                               sample_strftime.

Definition sample_order (amount : pyval) : OrderBody :=
  mkOrderBody 12345 "do1A19700101D000000T1MCSPT" amount 1 0.

(** A world in which request id 7 is in flight: sent, not yet answered. *)
Definition sample_in_flight : World :=
  (sample_execute sample_world (PStr "EURUSD") (PInt 1) (PStr "call") (PInt 1) 7
     [Tick 0]).2.

(** A handler that holds the closed record of order 55. *)
Definition sample_closed : MessageHandler :=
  set_position new_handler 55
    (PDict [("status"%string, PStr "closed"); ("pnl"%string, PInt 10)]).

(** ** Notions used to state further properties of the handler and the waits *)

(** The frames among the events, in their order. *)
Definition frames_of (evs : list event) : list Message :=
  flat_map (fun ev => match ev with Deliver m => [m] | Tick _ => [] end) evs.


(** The two closure frames, which carry no request id. *)
Definition position_changed (payload : list (string * pyval)) : Message :=
  mkMessage "position-changed" EmptyString (PDict payload).

Definition option_closed (payload : list (string * pyval)) : Message :=
  mkMessage "option-closed" EmptyString (PDict payload).

(** The order id a [position-changed] payload is filed under:
    [int(msg["raw_event"]["order_ids"][0])]. *)
Definition changed_order_id (payload : list (string * pyval)) : result Z :=
  raw_event <-! subscript (PDict payload) "raw_event";
  order_ids <-! subscript raw_event "order_ids";
  first <-! first_item order_ids;
  py_int_of first.

(** The asset is a non-blank string. *)
Definition asset_nonblank (asset : pyval) : bool :=
  match asset with
  | PStr a => truthy (PStr (py_strip a))
  | _ => false
  end.

Definition is_opening_for (k : string) (m : Message) : bool :=
  String.eqb (m_name m) "option-opened" && String.eqb (m_request_id m) k.

Definition is_closure_frame (m : Message) : bool :=
  String.eqb (m_name m) "position-changed" || String.eqb (m_name m) "option-closed".

(** A closure frame whose order id is sent as the string 55. *)
Definition sample_closure_payload : list (string * pyval) :=
  [("raw_event"%string, PDict [("order_ids"%string, PList [PStr "55"])]);
   ("status"%string, PStr "closed"); ("pnl"%string, PInt (-5))].

(** ** Notions used to state further properties of the parser *)

(** Characters other than blanks and the letter [i]. *)
Definition solid (c : ascii) : bool := negb (is_space c) && negb (chr_eqb c "i").

(** The signals of a list of lines, in their order. *)
Definition signals_of (lines : list str) : list Signal :=
  flat_map (fun line => match parse_signal line with Some sig => [sig] | None => [] end)
           lines.

(** Every character of every piece satisfies [p]. *)
Definition pieces_all (p : ascii -> bool) (ps : list piece) : bool :=
  forallb (fun x => match x with Lit c => p c | Hit h => forallb p h end) ps.

(** The line [time;pair;direction;expiry]. *)
Definition canonical (t p d e : str) : str :=
  t ++ ";"%char :: p ++ ";"%char :: d ++ ";"%char :: e.

(** The time texts HH:MM and H:MM. *)
Definition is_time (t : str) : bool :=
  match t with
  | [a; b; c; d; e] =>
      is_digit a && is_digit b && chr_eqb c ":" && is_digit d && is_digit e
  | [a; b; c; d] => is_digit a && chr_eqb b ":" && is_digit c && is_digit d
  | _ => false
  end.

(** Blanks and separators between the fields of a line. *)
Definition gap_char (c : ascii) : bool := is_space c || chr_eqb c ";".

(** No letter O of [s] is followed by a digit, or by blanks and a colon:
    the two rewrites of the letter O find nothing to change. *)
Fixpoint O_stays (s : str) : bool :=
  match s with
  | [] => true
  | c :: tl =>
      negb (is_O c
            && (match tl with d :: _ => is_digit d | [] => false end
                || match m_spaces_colon tl with Some _ => true | None => false end))
      && O_stays tl
  end.

(** [b] starts neither with a digit nor with blanks and a colon. *)
Definition blocked (b : str) : bool :=
  match b with d :: _ => negb (is_digit d) | [] => true end
  && match m_spaces_colon b with Some _ => false | None => true end.

(** A whole match of [\d+]. *)
Definition is_digits (e : str) : bool :=
  match e with
  | [] => false
  | _ :: _ => forallb is_digit e
  end.

(** The characters of the fields and of the gaps between them. *)
Definition line_char (c : ascii) : bool :=
  is_digit c || chr_eqb c ":" || is_upper c || gap_char c.

(** The separators that are left of a gap once its blanks are removed. *)
Definition separators (g : str) : str := repeat ";"%char (count_char ";" g).

(** Four fields with gaps between them. *)
Definition gapped (t g1 p g2 d g3 e : str) : str :=
  t ++ g1 ++ p ++ g2 ++ d ++ g3 ++ e.

(** A gap that holds one separator, with or without blanks around it. *)
Definition one_separator (g : str) : bool :=
  forallb gap_char g && (count_char ";" g =? 1)%nat.

(** The text of a piece of a scan. *)
Definition piece_text (x : piece) : str :=
  match x with Lit c => [c] | Hit h => h end.

(** The lines [parts[i] + parts[i+1]] of a list [parts[1:]]. *)
Fixpoint pair_up (parts : list str) : list str :=
  match parts with
  | a :: b :: rest => (a ++ b) :: pair_up rest
  | _ => []
  end.

(** The lines that [parse_signals_from_text] hands to [parse_signal]: every
    time of the text with the text up to the next time. *)
Definition text_lines (text : str) : list str :=
  pair_up (drop 1 (re_split m_time text)).

(** [s] does not end with a digit. *)
Definition ends_plain (s : str) : bool :=
  match last s with
  | Some z => negb (is_digit z)
  | None => true
  end.

(** A signal written out: its four fields, the expiry in digits, at most
    4300 of them. *)
Definition row : Type := str * str * str * str.

Definition well_formed (r : row) : bool :=
  let '(t, p, d, e) := r in
  is_time t && forallb is_upper p && direction_ok d && is_digits e
  && (length e <=? 4300)%nat.

Definition row_line (r : row) : str :=
  let '(t, p, d, e) := r in canonical t p d e ++ [ascii_of_N 10].

Definition row_signal (r : row) : Signal :=
  let '(t, p, d, e) := r in mkSignal t p d (int_of_digits e).

(** A written signal without its end of line: its time and what follows. *)
Definition row_time (r : row) : str := let '(t, _, _, _) := r in t.

Definition row_rest (r : row) : str :=
  let '(_, p, d, e) := r in ";"%char :: p ++ ";"%char :: d ++ ";"%char :: e.

Definition row_text (r : row) : str := row_time r ++ row_rest r.

(** A written signal followed by the blanks [snd rw]. *)
Definition ended (rw : row * str) : str := row_text (fst rw) ++ snd rw.

(** Well-formed signals, each but the last followed by at least one blank. *)
Fixpoint ended_ok (l : list (row * str)) : bool :=
  match l with
  | [] => true
  | rw :: more =>
      well_formed (fst rw) && forallb is_space (snd rw)
      && match more, snd rw with
         | _ :: _, [] => false
         | _, _ => true
         end
      && ended_ok more
  end.

(** The signals of [" ".join(...)] with the blank that follows each. *)
Fixpoint with_blank (rows : list row) : list (row * str) :=
  match rows with
  | [] => []
  | [r] => [(r, [])]
  | r :: more => (r, lit " ") :: with_blank more
  end.

(** Lines [time ++ rest] that a scan for times gives back: no [rest] holds
    a colon, and every [rest] but the last ends with something other than a
    digit. *)
Fixpoint lines_ok (lines : list (str * str)) : bool :=
  match lines with
  | [] => true
  | l :: more =>
      is_time (fst l) && negb (contains ":" (snd l))
      && match more with [] => true | _ :: _ => ends_plain (snd l) end
      && lines_ok more
  end.

(** ** telegram_bot.py: from the parsed signals to the trade tasks

    A naive [datetime] is a count of microseconds on the calendar's own
    scale, so that [replace] of the time of day and [timedelta(days=1)] are
    plain arithmetic.  (Dates past the year 9999, where the library
    overflows, are not modelled.) *)

Definition day_us : Z := 86400000000.

(** [now.replace(hour=hh, minute=mm, second=0, microsecond=0)] *)
Definition replace_time (now hh mm : Z) : result Z :=
  if negb ((0 <=? hh) && (hh <=? 23)) then Raise ValueError
  else if negb ((0 <=? mm) && (mm <=? 59)) then Raise ValueError
  else Ok (now - now mod day_us + (hh * 3600 + mm * 60) * 1000000).

(** [hh, mm = map(int, time.split(":"))] *)
Definition hour_minute (time : str) : result (Z * Z) :=
  match split_on ":" time with
  | [a; b] =>
      hh <-! int_of_text (string_of_list_ascii a);
      mm <-! int_of_text (string_of_list_ascii b);
      Ok (hh, mm)
  | _ => Raise ValueError
  end.

(** A signal whose ["time"] has been replaced by its [datetime]. *)
Record Scheduled : Type := mkScheduled {
  sched_time : Z;
  sched_pair : str;
  sched_direction : str;
  sched_expiry : Z
}.

(** One turn of the loop [for sig in parsed_signals] that converts the
    times; [now] is its reading of [datetime.now()]. *)
Definition schedule_signal (now : Z) (sig : Signal) : result Scheduled :=
  hm <-! hour_minute (sig_time sig);
  t <-! replace_time now (fst hm) (snd hm);
  let t := if t <? now then t + day_us else t in
  Ok (mkScheduled t (sig_pair sig) (sig_direction sig) (sig_expiry sig)).

(** The whole loop, [clock k] being the [k]-th reading of the clock. *)
Fixpoint schedule_all (clock : nat -> Z) (k : nat) (sigs : list Signal)
  : result (list Scheduled) :=
  match sigs with
  | [] => Ok []
  | sig :: rest =>
      s <-! schedule_signal (clock k) sig;
      ss <-! schedule_all clock (S k) rest;
      Ok (s :: ss)
  end.

(** [grouped[sig["time"]].append(sig)] on the [defaultdict(list)]. *)
Definition group_add (grouped : gmap Z (list Scheduled)) (s : Scheduled)
  : gmap Z (list Scheduled) :=
  <[sched_time s := (grouped !!! sched_time s) ++ [s]]> grouped.

Definition group_by_time (ss : list Scheduled) : gmap Z (list Scheduled) :=
  fold_left group_add ss ∅.

(** The trade tasks in the order of their creation:
    [for sched_time in sorted(grouped.keys()): for s in grouped[sched_time]].
    The replies, the waits and the trades themselves are left out. *)
Definition trade_tasks (ss : list Scheduled) : list Scheduled :=
  let grouped := group_by_time ss in
  flat_map (fun k => grouped !!! k)
           (merge_sort Z.le (elements (dom grouped : gset Z))).

(** [process_and_schedule_signals] up to the creation of the tasks: nothing
    for an empty list, where the function returns after its reply. *)
Definition process_and_schedule_signals (clock : nat -> Z) (parsed_signals : list Signal)
  : result (option (list Scheduled)) :=
  match parsed_signals with
  | [] => Ok None
  | _ =>
      ss <-! schedule_all clock 0 parsed_signals;
      Ok (Some (trade_tasks ss))
  end.

(** The hour and the minute that a time text HH:MM or H:MM writes, read off
    its digits. *)
Definition written_hour (t : str) : Z :=
  match t with
  | [a; b; _; _; _] => 10 * digit_val a + digit_val b
  | [a; _; _; _] => digit_val a
  | _ => 0
  end.

Definition written_minute (t : str) : Z :=
  match t with
  | [_; _; _; d; e] => 10 * digit_val d + digit_val e
  | [_; _; d; e] => 10 * digit_val d + digit_val e
  | _ => 0
  end.

(** The microseconds from midnight to the hour and minute of a time text. *)
Definition written_offset (t : str) : Z :=
  (written_hour t * 3600 + written_minute t * 60) * 1000000.

(** The hour and the minute that a time writes are those of a day. *)
Definition in_day (time : str) : bool :=
  (written_hour time <=? 23) && (written_minute time <=? 59).

(** The order for an expiry given as [True], which counts as the integer 1
    and prints as [True]. *)
Definition sample_order_true (amount : pyval) : OrderBody :=
  mkOrderBody 12345 "do1A19700101D000000TTrueMCSPT" amount 1 0.

(** ** signal_parser.py on Unicode text

    The functions of [signal_parser.py] once more, on strings of code points
    and with the character tables of the interpreter as a parameter: which
    characters are blanks ([str.isspace], which [\s] and [str.strip]
    follow), which are decimal digits and of what value ([\d], [int]) and
    what [str.upper] makes of a character.  The ranges [[A-Z]] and [[Oo]]
    and the literals of the patterns are plain code points.  Statements
    about every input text are made on this form of the parser; the ASCII
    form above is kept for lines written in ASCII. *)

Module Unicode.

Definition text : Type := list N.

(** The code point of an ASCII character and the text of an ASCII literal. *)
Definition ch (c : ascii) : N := N_of_ascii c.

Definition lit (s : string) : text := map ch (list_ascii_of_string s).

(** The small letters [a] to [z] and the capitals [A] to [Z]. *)
Definition is_small (c : N) : bool := ((97 <=? c) && (c <=? 122))%N.
Definition is_capital (c : N) : bool := ((65 <=? c) && (c <=? 90))%N.

(** The tables, with what the parser's properties need of them: a decimal
    digit has a value from 0 to 9, the newline is a blank, and [str.upper]
    never yields one of the letters [a] to [z]. *)
Record tables : Type := mkTables {
  isspace : N -> bool;
  decimal : N -> option Z;
  to_upper : N -> text;
  decimal_range : forall c v, decimal c = Some v -> 0 <= v <= 9;
  newline_isspace : isspace 10 = true;
  to_upper_capital : forall c x, In x (to_upper c) -> is_small x = false
}.

Section Parser.

Variable T : tables.

Definition is_space (c : N) : bool := isspace T c.

Definition is_digit (c : N) : bool :=
  match decimal T c with
  | Some _ => true
  | None => false
  end.

Definition digit_val (c : N) : Z :=
  match decimal T c with
  | Some v => v
  | None => 0
  end.

(** [s.upper()] *)
Definition upper (s : text) : text := flat_map (to_upper T) s.

(** [s.lstrip()], [s.rstrip()], [s.strip()] *)
Fixpoint lstrip (s : text) : text :=
  match s with
  | [] => []
  | c :: tl => if is_space c then lstrip tl else s
  end.

Definition rstrip (s : text) : text := rev (lstrip (rev s)).

Definition strip (s : text) : text := rstrip (lstrip s).

(** [s.replace(old, new)] for a one-character [old]. *)
Definition replace_char (old : N) (new : text) (s : text) : text :=
  flat_map (fun c => if (c =? old)%N then new else [c]) s.

(** [s.split(sep)] for a one-character separator. *)
Fixpoint split_on (sep : N) (s : text) : list text :=
  match s with
  | [] => [[]]
  | c :: tl =>
      if (c =? sep)%N then [] :: split_on sep tl
      else match split_on sep tl with
           | h :: t => (c :: h) :: t
           | [] => [[c]]
           end
  end.

(** [sep.join(parts)] *)
Fixpoint join (sep : text) (parts : list text) : text :=
  match parts with
  | [] => []
  | [p] => p
  | p :: rest => p ++ sep ++ join sep rest
  end.

(** [sep in s] for a one-character [sep]. *)
Definition contains (sep : N) (s : text) : bool := existsb (fun c => (c =? sep)%N) s.

(** [a == b] *)
Fixpoint text_eqb (a b : text) : bool :=
  match a, b with
  | [], [] => true
  | x :: a', y :: b' => (x =? y)%N && text_eqb a' b'
  | _, _ => false
  end.

Definition int_of_digits (s : text) : Z :=
  fold_left (fun acc c => 10 * acc + digit_val c) s 0.

(** [int(s)] for a string of decimal digits: a [ValueError] for the empty
    string and for more than [int_max_str_digits] digits. *)
Definition py_int (s : text) : result Z :=
  match s with
  | [] => Raise ValueError
  | _ => if (length s <=? int_max_str_digits)%nat
         then Ok (int_of_digits s) else Raise ValueError
  end.

(** The scan of a subject for the matches of a pattern, as in the ASCII
    form. *)
Inductive piece : Type :=
| Lit (c : N)
| Hit (m : text).

Definition matcher : Type := text -> option text.

Fixpoint re_scan (m : matcher) (skip : nat) (s : text) : list piece :=
  match s with
  | [] => []
  | c :: tl =>
      match skip with
      | S k => re_scan m k tl
      | O =>
          match m s with
          | Some hit => Hit hit :: re_scan m (Nat.pred (length hit)) tl
          | None => Lit c :: re_scan m O tl
          end
      end
  end.

(** [re.sub(pattern, repl, s)] *)
Definition re_sub (m : matcher) (repl : text -> text) (s : text) : text :=
  flat_map (fun p => match p with Lit c => [c] | Hit h => repl h end)
           (re_scan m O s).

(** [re.findall(pattern, s)] for a pattern that is one capture group. *)
Definition re_findall (m : matcher) (s : text) : list text :=
  flat_map (fun p => match p with Lit _ => [] | Hit h => [h] end)
           (re_scan m O s).

(** [re.split(pattern, s)] for a pattern that is one capture group. *)
Fixpoint split_pieces (cur : text) (ps : list piece) : list text :=
  match ps with
  | [] => [cur]
  | Lit c :: ps' => split_pieces (cur ++ [c]) ps'
  | Hit h :: ps' => cur :: h :: split_pieces [] ps'
  end.

Definition re_split (m : matcher) (s : text) : list text :=
  split_pieces [] (re_scan m O s).

Definition is_O (c : N) : bool := (c =? ch "O")%N || (c =? ch "o")%N.

(** [[Oo](\d)] *)
Definition m_O_digit : matcher := fun s =>
  match s with
  | c :: d :: _ => if is_O c && is_digit d then Some [c; d] else None
  | _ => None
  end.

(** [\s*:] *)
Fixpoint m_spaces_colon (s : text) : option text :=
  match s with
  | [] => None
  | c :: tl =>
      if (c =? ch ":")%N then Some [c]
      else if is_space c then option_map (cons c) (m_spaces_colon tl)
      else None
  end.

(** [[Oo]\s*:] *)
Definition m_O_colon : matcher := fun s =>
  match s with
  | c :: tl => if is_O c then option_map (cons c) (m_spaces_colon tl) else None
  | [] => None
  end.

(** The longest prefix of characters satisfying [p]. *)
Fixpoint span_of (p : N -> bool) (s : text) : text :=
  match s with
  | c :: tl => if p c then c :: span_of p tl else []
  | [] => []
  end.

Definition m_plus (p : N -> bool) : matcher := fun s =>
  match span_of p s with
  | [] => None
  | h => Some h
  end.

(** [\s+], [\d+], [\D] *)
Definition m_spaces : matcher := m_plus is_space.
Definition m_digits : matcher := m_plus is_digit.
Definition m_nondigit : matcher := fun s =>
  match s with
  | c :: _ => if is_digit c then None else Some [c]
  | [] => None
  end.

(** [\d{1,2}:\d{2}]: two leading digits are tried first, then one. *)
Definition m_time : matcher := fun s =>
  match s with
  | a :: b :: c :: d :: e :: _ =>
      if is_digit a && is_digit b && (c =? ch ":")%N && is_digit d && is_digit e
      then Some [a; b; c; d; e]
      else if is_digit a && (b =? ch ":")%N && is_digit c && is_digit d
      then Some [a; b; c; d]
      else None
  | a :: b :: c :: d :: [] =>
      if is_digit a && (b =? ch ":")%N && is_digit c && is_digit d
      then Some [a; b; c; d]
      else None
  | _ => None
  end.

(** [[A-Z]{6}] *)
Definition m_pair : matcher := fun s =>
  match s with
  | a :: b :: c :: d :: e :: f :: _ =>
      if forallb is_capital [a; b; c; d; e; f] then Some [a; b; c; d; e; f] else None
  | _ => None
  end.

(** A literal word. *)
Fixpoint is_prefix (w s : text) : bool :=
  match w, s with
  | [], _ => true
  | x :: w', y :: s' => (x =? y)%N && is_prefix w' s'
  | _ :: _, [] => false
  end.

Definition m_word (w : text) : matcher := fun s =>
  if is_prefix w s then Some w else None.

(** Ordered alternation [a|b]. *)
Definition m_alt (a b : matcher) : matcher := fun s =>
  match a s with
  | Some h => Some h
  | None => b s
  end.

(** [(\d{1,2}:\d{2}|[A-Z]{6}|CALL|PUT|\d+)] *)
Definition m_field : matcher :=
  m_alt m_time (m_alt m_pair (m_alt (m_word (lit "CALL")) (m_alt (m_word (lit "PUT")) m_digits))).

(** [$]: the end of the subject, or just before a final newline. *)
Definition at_dollar (s : text) : bool :=
  match s with
  | [] => true
  | [c] => (c =? 10)%N
  | _ => false
  end.

(** [re.match(r"^\d{1,2}:\d{2}$", s)] as a truth value. *)
Definition time_format_ok (s : text) : bool :=
  match s with
  | a :: b :: rest2 =>
      (is_digit a && is_digit b &&
       match rest2 with
       | c :: d :: e :: rest => (c =? ch ":")%N && is_digit d && is_digit e && at_dollar rest
       | _ => false
       end)
      || (is_digit a && (b =? ch ":")%N &&
          match rest2 with
          | c :: d :: rest => is_digit c && is_digit d && at_dollar rest
          | _ => false
          end)
  | _ => false
  end.

Record Signal : Type := mkSignal {
  sig_time : text;
  sig_pair : text;
  sig_direction : text;
  sig_expiry : Z
}.

Definition clean_signal_line (line : text) : text :=
  let line := strip line in
  let line := replace_char (ch "i") (lit ";") line in
  let line := re_sub m_O_digit (fun h => ch "0" :: drop 1 h) line in
  let line := re_sub m_O_colon (fun _ => lit "0:") line in
  let line := re_sub m_spaces (fun _ => []) line in
  if negb (contains (ch ";") line)
  then join (lit ";") (re_findall m_field line)
  else line.

Definition parse_signal_body (line : text) : result (option Signal) :=
  let cleaned := clean_signal_line line in
  let parts := split_on (ch ";") cleaned in
  if (length parts <? 4)%nat then Ok None
  else
    p0 <-! index parts 0;
    let time_str := strip p0 in
    p1 <-! index parts 1;
    let pair := replace_char (ch "/") [] (upper p1) in
    p2 <-! index parts 2;
    let direction := upper p2 in
    p3 <-! index parts 3;
    expiry <-! py_int (re_sub m_nondigit (fun _ => []) p3);
    if negb (time_format_ok time_str) then Ok None
    else if negb (text_eqb direction (lit "CALL") || text_eqb direction (lit "PUT"))
    then Ok None
    else Ok (Some (mkSignal time_str pair direction expiry)).

(** The body runs inside [try ... except Exception: return None]. *)
Definition parse_signal (line : text) : option Signal :=
  match parse_signal_body line with
  | Ok r => r
  | Raise _ => None
  end.

(** One turn of the loop of [parse_signals_from_text]. *)
Definition text_step (parts : list text) (signals : list Signal) (i : nat)
  : result (list Signal) :=
  time_str <-! index parts i;
  signal_body <-! index parts (i + 1);
  let line := time_str ++ signal_body in
  match parse_signal line with
  | Some sig => Ok (signals ++ [sig])
  | None => Ok signals
  end.

Definition parse_signals_from_text (txt : text) : result (list Signal) :=
  let parts := re_split m_time txt in
  for_each (text_step parts) [] (py_range 1 (length parts) 2).

(** [parse_signals_from_file], from the outcome of opening and reading the
    file: [readlines()] or the exception raised. *)
Definition parse_signals_from_file (read : result (list text)) : list Signal :=
  match read with
  | Ok lines =>
      fold_left (fun signals line =>
                   match parse_signal line with
                   | Some sig => signals ++ [sig]
                   | None => signals
                   end) lines []
  | Raise _ => []
  end.

(** *** What the design document says of a line

    The fields of a line are the parts of the cleaned line between its
    separators.  A time has the form HH:MM or H:MM in decimal digits; the
    digits of the expiry are all the decimal digits of the fourth field, at
    least one and at most [int_max_str_digits]. *)

Definition fields (line : text) : list text := split_on (ch ";") (clean_signal_line line).

Definition field (line : text) (i : nat) : text := nth i (fields line) [].

Definition is_time (t : text) : bool :=
  match t with
  | [a; b; c; d; e] =>
      is_digit a && is_digit b && (c =? ch ":")%N && is_digit d && is_digit e
  | [a; b; c; d] => is_digit a && (b =? ch ":")%N && is_digit c && is_digit d
  | _ => false
  end.

Definition is_direction (d : text) : bool :=
  text_eqb d (lit "CALL") || text_eqb d (lit "PUT").

Definition expiry_digits (p3 : text) : text := List.filter is_digit p3.

Definition line_accepted (line : text) : bool :=
  (4 <=? length (fields line))%nat
  && is_time (strip (field line 0))
  && is_direction (upper (field line 2))
  && negb (length (expiry_digits (field line 3)) =? 0)%nat
  && (length (expiry_digits (field line 3)) <=? int_max_str_digits)%nat.

(** The signal of an accepted line. *)
Definition signal_of (line : text) : Signal :=
  mkSignal (strip (field line 0))
           (replace_char (ch "/") [] (upper (field line 1)))
           (upper (field line 2))
           (int_of_digits (expiry_digits (field line 3))).

Fixpoint count_char (x : N) (s : text) : nat :=
  match s with
  | [] => O
  | c :: tl => ((if (c =? x)%N then 1 else 0) + count_char x tl)%nat
  end.

(** The lines of a text: the parts between its newlines. *)
Definition lines_of (txt : text) : list text := split_on 10 txt.

End Parser.

(** *** The tables of CPython 3.11 (Unicode 14.0)

    The blanks as ranges of code points; the zeros of the decimal digits,
    each followed by its digits 1 to 9; the upper-case forms of one
    character as runs [(first, last, step, upper of first)] whose members
    keep their distance to the first, and the characters whose upper-case
    form is several characters long. *)

Definition space_ranges : list (N * N) :=
  [(9, 13); (28, 32); (133, 133); (160, 160); (5760, 5760); (8192, 8202);
   (8232, 8233); (8239, 8239); (8287, 8287); (12288, 12288)]%N.

Definition decimal_zeros : list N :=
  [48; 1632; 1776; 1984; 2406; 2534; 2662; 2790; 2918; 3046; 3174; 3302;
   3430; 3558; 3664; 3792; 3872; 4160; 4240; 6112; 6160; 6470; 6608; 6784;
   6800; 6992; 7088; 7232; 7248; 42528; 43216; 43264; 43472; 43504; 43600;
   44016; 65296; 66720; 68912; 69734; 69872; 69942; 70096; 70384; 70736;
   70864; 71248; 71360; 71472; 71904; 72016; 72784; 73040; 73120; 92768;
   92864; 93008; 120782; 120792; 120802; 120812; 120822; 123200; 123632;
   125264; 130032]%N.

Definition upper_runs : list (N * N * N * N) :=
  [(97, 122, 1, 65); (181, 181, 1, 924); (224, 246, 1, 192);
   (248, 254, 1, 216); (255, 255, 1, 376); (257, 303, 2, 256);
   (305, 305, 1, 73); (307, 311, 2, 306); (314, 328, 2, 313);
   (331, 375, 2, 330); (378, 382, 2, 377); (383, 383, 1, 83);
   (384, 384, 1, 579); (387, 389, 2, 386); (392, 392, 1, 391);
   (396, 396, 1, 395); (402, 402, 1, 401); (405, 405, 1, 502);
   (409, 409, 1, 408); (410, 410, 1, 573); (414, 414, 1, 544);
   (417, 421, 2, 416); (424, 424, 1, 423); (429, 429, 1, 428);
   (432, 432, 1, 431); (436, 438, 2, 435); (441, 441, 1, 440);
   (445, 445, 1, 444); (447, 447, 1, 503); (453, 453, 1, 452);
   (454, 454, 1, 452); (456, 456, 1, 455); (457, 457, 1, 455);
   (459, 459, 1, 458); (460, 460, 1, 458); (462, 476, 2, 461);
   (477, 477, 1, 398); (479, 495, 2, 478); (498, 498, 1, 497);
   (499, 499, 1, 497); (501, 501, 1, 500); (505, 543, 2, 504);
   (547, 563, 2, 546); (572, 572, 1, 571); (575, 576, 1, 11390);
   (578, 578, 1, 577); (583, 591, 2, 582); (592, 592, 1, 11375);
   (593, 593, 1, 11373); (594, 594, 1, 11376); (595, 595, 1, 385);
   (596, 596, 1, 390); (598, 599, 1, 393); (601, 601, 1, 399);
   (603, 603, 1, 400); (604, 604, 1, 42923); (608, 608, 1, 403);
   (609, 609, 1, 42924); (611, 611, 1, 404); (613, 613, 1, 42893);
   (614, 614, 1, 42922); (616, 616, 1, 407); (617, 617, 1, 406);
   (618, 618, 1, 42926); (619, 619, 1, 11362); (620, 620, 1, 42925);
   (623, 623, 1, 412); (625, 625, 1, 11374); (626, 626, 1, 413);
   (629, 629, 1, 415); (637, 637, 1, 11364); (640, 640, 1, 422);
   (642, 642, 1, 42949); (643, 643, 1, 425); (647, 647, 1, 42929);
   (648, 648, 1, 430); (649, 649, 1, 580); (650, 651, 1, 433);
   (652, 652, 1, 581); (658, 658, 1, 439); (669, 669, 1, 42930);
   (670, 670, 1, 42928); (837, 837, 1, 921); (881, 883, 2, 880);
   (887, 887, 1, 886); (891, 893, 1, 1021); (940, 940, 1, 902);
   (941, 943, 1, 904); (945, 961, 1, 913); (962, 962, 1, 931);
   (963, 971, 1, 931); (972, 972, 1, 908); (973, 974, 1, 910);
   (976, 976, 1, 914); (977, 977, 1, 920); (981, 981, 1, 934);
   (982, 982, 1, 928); (983, 983, 1, 975); (985, 1007, 2, 984);
   (1008, 1008, 1, 922); (1009, 1009, 1, 929); (1010, 1010, 1, 1017);
   (1011, 1011, 1, 895); (1013, 1013, 1, 917); (1016, 1016, 1, 1015);
   (1019, 1019, 1, 1018); (1072, 1103, 1, 1040); (1104, 1119, 1, 1024);
   (1121, 1153, 2, 1120); (1163, 1215, 2, 1162); (1218, 1230, 2, 1217);
   (1231, 1231, 1, 1216); (1233, 1327, 2, 1232); (1377, 1414, 1, 1329);
   (4304, 4346, 1, 7312); (4349, 4351, 1, 7357); (5112, 5117, 1, 5104);
   (7296, 7296, 1, 1042); (7297, 7297, 1, 1044); (7298, 7298, 1, 1054);
   (7299, 7300, 1, 1057); (7301, 7301, 1, 1058); (7302, 7302, 1, 1066);
   (7303, 7303, 1, 1122); (7304, 7304, 1, 42570); (7545, 7545, 1, 42877);
   (7549, 7549, 1, 11363); (7566, 7566, 1, 42950); (7681, 7829, 2, 7680);
   (7835, 7835, 1, 7776); (7841, 7935, 2, 7840); (7936, 7943, 1, 7944);
   (7952, 7957, 1, 7960); (7968, 7975, 1, 7976); (7984, 7991, 1, 7992);
   (8000, 8005, 1, 8008); (8017, 8023, 2, 8025); (8032, 8039, 1, 8040);
   (8048, 8049, 1, 8122); (8050, 8053, 1, 8136); (8054, 8055, 1, 8154);
   (8056, 8057, 1, 8184); (8058, 8059, 1, 8170); (8060, 8061, 1, 8186);
   (8112, 8113, 1, 8120); (8126, 8126, 1, 921); (8144, 8145, 1, 8152);
   (8160, 8161, 1, 8168); (8165, 8165, 1, 8172); (8526, 8526, 1, 8498);
   (8560, 8575, 1, 8544); (8580, 8580, 1, 8579); (9424, 9449, 1, 9398);
   (11312, 11359, 1, 11264); (11361, 11361, 1, 11360);
   (11365, 11365, 1, 570); (11366, 11366, 1, 574); (11368, 11372, 2, 11367);
   (11379, 11379, 1, 11378); (11382, 11382, 1, 11381);
   (11393, 11491, 2, 11392); (11500, 11502, 2, 11499);
   (11507, 11507, 1, 11506); (11520, 11557, 1, 4256);
   (11559, 11559, 1, 4295); (11565, 11565, 1, 4301);
   (42561, 42605, 2, 42560); (42625, 42651, 2, 42624);
   (42787, 42799, 2, 42786); (42803, 42863, 2, 42802);
   (42874, 42876, 2, 42873); (42879, 42887, 2, 42878);
   (42892, 42892, 1, 42891); (42897, 42899, 2, 42896);
   (42900, 42900, 1, 42948); (42903, 42921, 2, 42902);
   (42933, 42947, 2, 42932); (42952, 42954, 2, 42951);
   (42961, 42961, 1, 42960); (42967, 42969, 2, 42966);
   (42998, 42998, 1, 42997); (43859, 43859, 1, 42931);
   (43888, 43967, 1, 5024); (65345, 65370, 1, 65313);
   (66600, 66639, 1, 66560); (66776, 66811, 1, 66736);
   (66967, 66977, 1, 66928); (66979, 66993, 1, 66940);
   (66995, 67001, 1, 66956); (67003, 67004, 1, 66964);
   (68800, 68850, 1, 68736); (71872, 71903, 1, 71840);
   (93792, 93823, 1, 93760); (125218, 125251, 1, 125184)]%N.

Definition upper_special : list (N * list N) :=
  [(223, [83; 83]); (329, [700; 78]); (496, [74; 780]);
   (912, [921; 776; 769]); (944, [933; 776; 769]); (1415, [1333; 1362]);
   (7830, [72; 817]); (7831, [84; 776]); (7832, [87; 778]);
   (7833, [89; 778]); (7834, [65; 702]); (8016, [933; 787]);
   (8018, [933; 787; 768]); (8020, [933; 787; 769]); (8022, [933; 787; 834]);
   (8064, [7944; 921]); (8065, [7945; 921]); (8066, [7946; 921]);
   (8067, [7947; 921]); (8068, [7948; 921]); (8069, [7949; 921]);
   (8070, [7950; 921]); (8071, [7951; 921]); (8072, [7944; 921]);
   (8073, [7945; 921]); (8074, [7946; 921]); (8075, [7947; 921]);
   (8076, [7948; 921]); (8077, [7949; 921]); (8078, [7950; 921]);
   (8079, [7951; 921]); (8080, [7976; 921]); (8081, [7977; 921]);
   (8082, [7978; 921]); (8083, [7979; 921]); (8084, [7980; 921]);
   (8085, [7981; 921]); (8086, [7982; 921]); (8087, [7983; 921]);
   (8088, [7976; 921]); (8089, [7977; 921]); (8090, [7978; 921]);
   (8091, [7979; 921]); (8092, [7980; 921]); (8093, [7981; 921]);
   (8094, [7982; 921]); (8095, [7983; 921]); (8096, [8040; 921]);
   (8097, [8041; 921]); (8098, [8042; 921]); (8099, [8043; 921]);
   (8100, [8044; 921]); (8101, [8045; 921]); (8102, [8046; 921]);
   (8103, [8047; 921]); (8104, [8040; 921]); (8105, [8041; 921]);
   (8106, [8042; 921]); (8107, [8043; 921]); (8108, [8044; 921]);
   (8109, [8045; 921]); (8110, [8046; 921]); (8111, [8047; 921]);
   (8114, [8122; 921]); (8115, [913; 921]); (8116, [902; 921]);
   (8118, [913; 834]); (8119, [913; 834; 921]); (8124, [913; 921]);
   (8130, [8138; 921]); (8131, [919; 921]); (8132, [905; 921]);
   (8134, [919; 834]); (8135, [919; 834; 921]); (8140, [919; 921]);
   (8146, [921; 776; 768]); (8147, [921; 776; 769]); (8150, [921; 834]);
   (8151, [921; 776; 834]); (8162, [933; 776; 768]); (8163, [933; 776; 769]);
   (8164, [929; 787]); (8166, [933; 834]); (8167, [933; 776; 834]);
   (8178, [8186; 921]); (8179, [937; 921]); (8180, [911; 921]);
   (8182, [937; 834]); (8183, [937; 834; 921]); (8188, [937; 921]);
   (64256, [70; 70]); (64257, [70; 73]); (64258, [70; 76]);
   (64259, [70; 70; 73]); (64260, [70; 70; 76]); (64261, [83; 84]);
   (64262, [83; 84]); (64275, [1348; 1350]); (64276, [1348; 1333]);
   (64277, [1348; 1339]); (64278, [1358; 1350]); (64279, [1348; 1341])]%N.

Definition in_range2 (r : N * N) (c : N) : bool := ((fst r <=? c) && (c <=? snd r))%N.

Definition py_isspace (c : N) : bool := existsb (fun r => in_range2 r c) space_ranges.

Definition in_decade (c zero : N) : bool := ((zero <=? c) && (c <? zero + 10))%N.

Definition py_decimal (c : N) : option Z :=
  match find (in_decade c) decimal_zeros with
  | Some zero => Some (Z.of_N (c - zero))
  | None => None
  end.

Definition in_run (c : N) (r : N * N * N * N) : bool :=
  let '(first, last, step, _) := r in
  ((first <=? c) && (c <=? last) && ((c - first) mod step =? 0))%N.

Definition run_keeps_capital (r : N * N * N * N) : bool :=
  let '(first, last, _, up) := r in
  ((122 <? up) || (up + (last - first) <? 97))%N.

Definition py_to_upper (c : N) : text :=
  match find (fun e => (fst e =? c)%N) upper_special with
  | Some e => snd e
  | None =>
      match find (in_run c) upper_runs with
      | Some (first, _, _, up) => [(up + (c - first))%N]
      | None => [c]
      end
  end.

Definition cpython : tables.
Proof.
  refine (mkTables py_isspace py_decimal py_to_upper _ _ _).
  - intros c v. unfold py_decimal.
    destruct (find (in_decade c) decimal_zeros) as [zero|] eqn:E; [|discriminate].
    apply find_some in E as [_ E]. unfold in_decade in E.
    apply andb_prop in E as [E1 E2]. apply N.leb_le in E1. apply N.ltb_lt in E2.
    intros [= <-]. lia.
  - reflexivity.
  - intros c x. unfold py_to_upper.
    destruct (find (fun e => (fst e =? c)%N) upper_special) as [e|] eqn:E.
    + apply find_some in E as [E _].
      assert (forallb (fun e => forallb (fun y => negb (is_small y)) (snd e))
                      upper_special = true) as Hall by (vm_compute; reflexivity).
      rewrite forallb_forall in Hall. specialize (Hall e E).
      rewrite forallb_forall in Hall. intros Hx. specialize (Hall x Hx).
      now apply negb_true_iff.
    + clear E. destruct (find (in_run c) upper_runs) as [[[[first last] step] up]|] eqn:E.
      * apply find_some in E as [E Hc].
        assert (forallb run_keeps_capital upper_runs = true) as Hall
            by (vm_compute; reflexivity).
        rewrite forallb_forall in Hall. specialize (Hall _ E).
        cbn [in_run run_keeps_capital] in Hc, Hall.
        apply andb_prop in Hc as [Hc _]. apply andb_prop in Hc as [H1 H2].
        apply N.leb_le in H1, H2.
        intros [<- | []]. unfold is_small.
        apply orb_prop in Hall as [H | H]; apply N.ltb_lt in H.
        -- apply andb_false_intro2. apply N.leb_gt. lia.
        -- apply andb_false_intro1. apply N.leb_gt. lia.
      * intros [<- | []].
        assert (In (97, 122, 1, 65)%N upper_runs) as Hin by (apply in_eq).
        pose proof (find_none _ _ E _ Hin) as Hc. cbn [in_run] in Hc.
        rewrite N.mod_1_r in Hc. cbn [N.eqb] in Hc. rewrite andb_true_r in Hc.
        exact Hc.
Defined.

End Unicode.

(** ** The two forms of the parser side by side

    An ASCII string as Unicode text, a signal of the ASCII form as one of
    the Unicode form, and the result of a function that can raise. *)

Definition is_ascii (c : ascii) : bool := (code c <? 128)%N.

Definition encode (s : str) : Unicode.text := map code s.

Definition encode_signal (sig : Signal) : Unicode.Signal :=
  Unicode.mkSignal (encode (sig_time sig)) (encode (sig_pair sig))
                   (encode (sig_direction sig)) (sig_expiry sig).

Definition encode_piece (p : piece) : Unicode.piece :=
  match p with
  | Lit c => Unicode.Lit (code c)
  | Hit h => Unicode.Hit (encode h)
  end.

Definition rmap {A B : Type} (f : A -> B) (r : result A) : result B :=
  match r with
  | Ok a => Ok (f a)
  | Raise e => Raise e
  end.

(** ** Properties of the string functions *)

Section Strings.

Lemma chr_eqb_eq (a b : ascii) : chr_eqb a b = true <-> a = b.
Proof. apply Ascii.eqb_eq. Qed.

Lemma chr_eqb_refl (a : ascii) : chr_eqb a a = true.
Proof. apply Ascii.eqb_refl. Qed.

Lemma str_eqb_eq (a b : str) : str_eqb a b = true <-> a = b.
Proof.
  unfold str_eqb. revert b. induction a as [|x a IH]; intros [|y b]; cbn; try easy.
  rewrite andb_true_iff, Nat.eqb_eq, andb_true_iff, chr_eqb_eq.
  specialize (IH b). rewrite andb_true_iff, Nat.eqb_eq in IH.
  split.
  - intros (Hlen & -> & Hall). f_equal. apply IH. split; [lia | exact Hall].
  - intros [= -> ->]. destruct IH as [_ IH]. destruct (IH eq_refl) as [_ Hall].
    now repeat split.
Qed.

Lemma count_char_app (x : ascii) (s t : str) :
  count_char x (s ++ t) = (count_char x s + count_char x t)%nat.
Proof. induction s as [|c s IH]; simpl; [reflexivity | rewrite IH; lia]. Qed.

Lemma count_char_rev (x : ascii) (s : str) :
  count_char x (rev s) = count_char x s.
Proof.
  induction s as [|c s IH]; simpl; [reflexivity|].
  rewrite count_char_app, IH. simpl. lia.
Qed.

Lemma count_char_lstrip (x : ascii) (s : str) :
  is_space x = false -> count_char x (lstrip s) = count_char x s.
Proof.
  intros Hx. induction s as [|c s IH]; simpl; [reflexivity|].
  destruct (is_space c) eqn:Hc; [|reflexivity].
  rewrite IH. destruct (chr_eqb c x) eqn:E; [|reflexivity].
  apply chr_eqb_eq in E. congruence.
Qed.

Lemma count_char_strip (x : ascii) (s : str) :
  is_space x = false -> count_char x (strip s) = count_char x s.
Proof.
  intros Hx. unfold strip, rstrip.
  rewrite count_char_rev, count_char_lstrip, count_char_rev by assumption.
  now apply count_char_lstrip.
Qed.

Lemma contains_count (x : ascii) (s : str) :
  contains x s = negb (count_char x s =? 0)%nat.
Proof.
  unfold contains. induction s as [|c s IH]; simpl; [reflexivity|].
  rewrite IH. destruct (chr_eqb c x); reflexivity.
Qed.

Lemma length_split_on (sep : ascii) (s : str) :
  length (split_on sep s) = S (count_char sep s).
Proof.
  induction s as [|c s IH]; simpl; [reflexivity|].
  destruct (chr_eqb c sep); simpl; [now rewrite IH|].
  destruct (split_on sep s); simpl in *; lia.
Qed.

End Strings.

(** ** Properties of the scan *)

Section Scanning.

Lemma length_split_pieces (cur : str) (ps : list piece) :
  length (split_pieces cur ps) = S (2 * hits ps).
Proof.
  revert cur. induction ps as [|[c|h] ps IH]; intros cur; simpl.
  - reflexivity.
  - apply IH.
  - rewrite IH. unfold hits. simpl. lia.
Qed.

Lemma length_re_split_odd (m : matcher) (s : str) :
  exists h, length (re_split m s) = S (2 * h).
Proof. eexists. apply length_split_pieces. Qed.

Lemma count_char_flat_scan (x : ascii) (m : matcher) (repl : str -> str) :
  matcher_ok m ->
  (forall s hit, m s = Some hit ->
                 count_char x hit = O /\ count_char x (repl hit) = O) ->
  forall s k,
    count_char x
      (flat_map (fun p => match p with Lit c => [c] | Hit h => repl h end)
                (re_scan m k s))
    = count_char x (drop k s).
Proof.
  intros Hok Hx. induction s as [|c tl IH]; intros k.
  - destruct k; reflexivity.
  - destruct k as [|k]; cbn [re_scan drop].
    + destruct (m (c :: tl)) as [hit|] eqn:Hm; cbn [flat_map].
      * destruct (Hok _ _ Hm) as [Hne [rest Hrest]].
        destruct (Hx _ _ Hm) as [Hhit Hrepl].
        destruct hit as [|c' hit']; [congruence|].
        assert (tl = hit' ++ rest) as Htl by (injection Hrest; auto).
        assert (count_char x (c :: tl) = count_char x rest) as ->
          by (rewrite Hrest, count_char_app, Hhit; reflexivity).
        rewrite count_char_app, Hrepl, IH.
        cbn [length Nat.pred]. now rewrite Htl, drop_app_length.
      * rewrite count_char_app, IH. rewrite drop_0. cbn [count_char]. lia.
    + apply IH.
Qed.

Lemma count_char_re_sub (x : ascii) (m : matcher) (repl : str -> str) (s : str) :
  matcher_ok m ->
  (forall s hit, m s = Some hit ->
                 count_char x hit = O /\ count_char x (repl hit) = O) ->
  count_char x (re_sub m repl s) = count_char x s.
Proof.
  intros Hok Hx. unfold re_sub.
  now rewrite (count_char_flat_scan x m repl Hok Hx s O).
Qed.

Lemma span_of_prefix (p : ascii -> bool) (s : str) :
  exists rest, s = span_of p s ++ rest.
Proof.
  induction s as [|c s [rest IH]]; simpl; [now exists []|].
  destruct (p c); simpl; [|now eexists].
  exists rest. now rewrite <- IH.
Qed.

Lemma span_of_all (p : ascii -> bool) (s : str) :
  forallb p (span_of p s) = true.
Proof.
  induction s as [|c s IH]; simpl; [reflexivity|].
  destruct (p c) eqn:E; simpl; [now rewrite E|reflexivity].
Qed.

Lemma m_plus_ok (p : ascii -> bool) : matcher_ok (m_plus p).
Proof.
  intros s hit. unfold m_plus.
  destruct (span_of p s) as [|c h] eqn:E; [discriminate|].
  intros [= <-]. split; [discriminate|].
  rewrite <- E. apply span_of_prefix.
Qed.

Lemma m_O_digit_ok : matcher_ok m_O_digit.
Proof.
  intros [|c [|d tl]] hit; simpl; try discriminate.
  destruct (is_O c && is_digit d); [|discriminate].
  intros [= <-]. split; [discriminate|]. now exists tl.
Qed.

Lemma m_spaces_colon_prefix (s hit : str) :
  m_spaces_colon s = Some hit ->
  hit <> [] /\ (exists rest, s = hit ++ rest)
  /\ forallb (fun c => chr_eqb c ":" || is_space c) hit = true.
Proof.
  revert hit. induction s as [|c s IH]; intros hit; simpl; [discriminate|].
  destruct (chr_eqb c ":") eqn:Ec.
  - intros [= <-]. split; [discriminate|]. split; [now exists s|].
    simpl. now rewrite Ec.
  - destruct (is_space c) eqn:Es; [|discriminate].
    destruct (m_spaces_colon s) as [h|]; [|discriminate].
    simpl. intros [= <-]. destruct (IH h eq_refl) as (_ & [rest ->] & Hall).
    split; [discriminate|]. split; [now exists rest|].
    simpl. now rewrite Ec, Es, Hall.
Qed.

Lemma m_O_colon_ok : matcher_ok m_O_colon.
Proof.
  intros [|c s] hit; simpl; [discriminate|].
  destruct (is_O c); [|discriminate].
  destruct (m_spaces_colon s) as [h|] eqn:E; [|discriminate].
  simpl. intros [= <-]. destruct (m_spaces_colon_prefix _ _ E) as (_ & [rest ->] & _).
  split; [discriminate|]. now exists rest.
Qed.

Lemma m_nondigit_ok : matcher_ok m_nondigit.
Proof.
  intros [|c s] hit; simpl; [discriminate|].
  destruct (is_digit c); [discriminate|].
  intros [= <-]. split; [discriminate|]. now exists s.
Qed.

Lemma m_time_ok : matcher_ok m_time.
Proof.
  intros s hit. unfold m_time.
  destruct s as [|a [|b [|c [|d [|e tl]]]]]; try discriminate.
  - destruct (_ && _); [|discriminate].
    intros [= <-]. split; [discriminate|]. now exists [].
  - destruct (_ && _).
    + intros [= <-]. split; [discriminate|]. now exists tl.
    + destruct (_ && _); [|discriminate].
      intros [= <-]. split; [discriminate|]. now exists (e :: tl).
Qed.

(** Characters that are not the field separator. *)
Lemma count_char_none (x : ascii) (p : ascii -> bool) (s : str) :
  p x = false -> forallb p s = true -> count_char x s = O.
Proof.
  intros Hx. induction s as [|c s IH]; simpl; [reflexivity|].
  intros [Hc Hs]%andb_prop. rewrite (IH Hs).
  destruct (chr_eqb c x) eqn:E; [|reflexivity].
  apply chr_eqb_eq in E. congruence.
Qed.

Lemma sub_O_digit_keeps_semicolons (s : str) :
  count_char ";" (re_sub m_O_digit (fun h => "0"%char :: drop 1 h) s)
  = count_char ";" s.
Proof.
  apply count_char_re_sub; [apply m_O_digit_ok|].
  intros [|c [|d tl]] hit; simpl; try discriminate.
  destruct (is_O c && is_digit d) eqn:E; [|discriminate].
  intros [= <-]. apply andb_prop in E as [Hc Hd].
  assert (count_char ";" [c; d] = O) as Hcd.
  { apply (count_char_none ";" (fun a => is_O a || is_digit a)); [reflexivity|].
    simpl. now rewrite Hc, Hd, orb_true_r. }
  split; [exact Hcd|].
  simpl in *. destruct (chr_eqb c ";"); [discriminate|]. exact Hcd.
Qed.

Lemma sub_O_colon_keeps_semicolons (s : str) :
  count_char ";" (re_sub m_O_colon (fun _ => lit "0:") s) = count_char ";" s.
Proof.
  apply count_char_re_sub; [apply m_O_colon_ok|].
  intros [|c tl] hit; simpl; [discriminate|].
  destruct (is_O c) eqn:Hc; [|discriminate].
  destruct (m_spaces_colon tl) as [h|] eqn:E; [|discriminate].
  simpl. intros [= <-]. split; [|reflexivity].
  destruct (m_spaces_colon_prefix _ _ E) as (_ & _ & Hall).
  apply (count_char_none ";" (fun a => is_O a || (chr_eqb a ":" || is_space a)));
    [reflexivity|].
  cbn [forallb]. rewrite Hc. cbn [orb andb].
  revert Hall. clear. induction h as [|a h IH]; [reflexivity|].
  cbn [forallb]. intros [-> Hh]%andb_prop. rewrite orb_true_r. now apply IH.
Qed.

End Scanning.

(** ** Properties of the cleanup *)

Section Cleanup.

Lemma sub_spaces_keeps_semicolons (s : str) :
  count_char ";" (re_sub m_spaces (fun _ => []) s) = count_char ";" s.
Proof.
  apply count_char_re_sub; [apply m_plus_ok|].
  intros s' hit. unfold m_spaces, m_plus.
  pose proof (span_of_all is_space s') as Hall.
  destruct (span_of is_space s') as [|c h]; [discriminate|].
  intros [= <-]. split; [|reflexivity].
  now apply (count_char_none ";" is_space).
Qed.

Lemma replace_i_map (s : str) : replace_i s = map swap_i s.
Proof.
  unfold replace_i, replace_char, swap_i.
  induction s as [|c s IH]; cbn [flat_map map]; [reflexivity|].
  rewrite IH. now destruct (chr_eqb c "i").
Qed.

Lemma is_space_swap_i (c : ascii) : is_space (swap_i c) = is_space c.
Proof.
  unfold swap_i. destruct (chr_eqb c "i") eqn:E; [|reflexivity].
  apply chr_eqb_eq in E. now subst.
Qed.

Lemma lstrip_map_swap_i (s : str) : lstrip (map swap_i s) = map swap_i (lstrip s).
Proof.
  induction s as [|c s IH]; simpl; [reflexivity|].
  rewrite is_space_swap_i. now destruct (is_space c).
Qed.

Lemma strip_replace_i (s : str) : strip (replace_i s) = replace_i (strip s).
Proof.
  rewrite !replace_i_map. unfold strip, rstrip.
  now rewrite lstrip_map_swap_i, <- map_rev, lstrip_map_swap_i, <- map_rev.
Qed.

Lemma count_i_replace_i (s : str) : count_char "i" (replace_i s) = O.
Proof.
  rewrite replace_i_map. induction s as [|c s IH]; simpl; [reflexivity|].
  rewrite IH. unfold swap_i. destruct (chr_eqb c "i") eqn:E; [reflexivity|].
  now rewrite E.
Qed.

Lemma count_semicolon_replace_i (s : str) :
  count_char ";" (replace_i s) = (count_char ";" s + count_char "i" s)%nat.
Proof.
  rewrite replace_i_map. induction s as [|c s IH]; simpl; [reflexivity|].
  rewrite IH. unfold swap_i. destruct (chr_eqb c "i") eqn:E.
  - apply chr_eqb_eq in E. subst c. simpl. lia.
  - destruct (chr_eqb c ";"); lia.
Qed.

Lemma count_semicolon_normalize_tail (s : str) :
  contains ";" s = true ->
  count_char ";" (normalize_tail s) = count_char ";" s.
Proof.
  intros Hs. unfold normalize_tail.
  set (l3 := re_sub m_spaces _ _).
  assert (count_char ";" l3 = count_char ";" s) as Hl3.
  { unfold l3. now rewrite sub_spaces_keeps_semicolons,
      sub_O_colon_keeps_semicolons, sub_O_digit_keeps_semicolons. }
  rewrite contains_count in Hs. rewrite contains_count, Hl3, Hs. exact Hl3.
Qed.

Lemma length_fields (line : str) :
  contains ";" line || contains "i" line = true ->
  length (fields line) = S (count_char ";" line + count_char "i" line).
Proof.
  intros H. unfold fields, clean_signal_line.
  rewrite length_split_on, count_semicolon_normalize_tail.
  - now rewrite count_semicolon_replace_i, !count_char_strip.
  - rewrite contains_count, count_semicolon_replace_i, !count_char_strip
      by reflexivity.
    rewrite !contains_count in H.
    destruct (count_char ";" line), (count_char "i" line); simpl in *;
      congruence.
Qed.

End Cleanup.

(** ** Properties of [parse_signal] *)

Section ParseSignal.

Lemma digits_of_cons (c : ascii) (s : str) :
  digits_of (c :: s) = if is_digit c then c :: digits_of s else digits_of s.
Proof.
  unfold digits_of, re_sub. simpl. now destruct (is_digit c).
Qed.

Lemma digits_of_nil_iff (s : str) :
  digits_of s = [] <-> existsb is_digit s = false.
Proof.
  induction s as [|c s IH]; [easy|].
  rewrite digits_of_cons. simpl. destruct (is_digit c); simpl; [easy|exact IH].
Qed.

Lemma digits_of_filter (s : str) : digits_of s = List.filter is_digit s.
Proof.
  induction s as [|c s IH]; [reflexivity|].
  rewrite digits_of_cons. cbn [List.filter]. now rewrite IH.
Qed.

Lemma py_int_digits_of (s : str) :
  py_int (digits_of s) =
  if expiry_ok s then Ok (int_of_digits (digits_of s)) else Raise ValueError.
Proof.
  unfold expiry_ok. rewrite <- digits_of_filter.
  destruct (existsb is_digit s) eqn:E; cbn [andb].
  - destruct (digits_of s) eqn:D; [|reflexivity].
    apply digits_of_nil_iff in D. congruence.
  - apply digits_of_nil_iff in E. now rewrite E.
Qed.

(** What [parse_signal] returns, by the validation of the line. *)
Lemma parse_signal_spec (line : str) :
  parse_signal line =
  if line_accepted line
  then Some (mkSignal (strip (field line 0))
                      (replace_char "/" [] (upper (field line 1)))
                      (upper (field line 2))
                      (int_of_digits (digits_of (field line 3))))
  else None.
Proof.
  unfold parse_signal, parse_signal_body, line_accepted, field.
  fold (fields line). fold digits_of.
  destruct (fields line) as [|p0 [|p1 [|p2 [|p3 rest]]]]; try reflexivity.
  cbn [length Nat.ltb Nat.leb index nth_error nth rbind andb].
  rewrite py_int_digits_of.
  destruct (expiry_ok p3); cbn [rbind]; [|now rewrite andb_false_r].
  rewrite andb_true_r. unfold direction_ok.
  destruct (time_format_ok (strip p0)); cbn [negb andb]; [|reflexivity].
  now destruct (str_eqb (upper p2) (lit "CALL") || str_eqb (upper p2) (lit "PUT")).
Qed.

End ParseSignal.

(** ** Properties of [parse_signals_from_text] *)

Section ParseText.

Lemma index_in_range {A : Type} (l : list A) (i : nat) :
  (i < length l)%nat -> exists x, index l i = Ok x.
Proof.
  intros H. unfold index. destruct (nth_error l i) as [x|] eqn:E; [now exists x|].
  apply nth_error_None in E. lia.
Qed.

(** The indices of the loop over an odd-length list leave room for [i+1]. *)
Lemma py_range_pairs (h i : nat) :
  In i (py_range 1 (S (2 * h)) 2) -> (i + 1 < S (2 * h))%nat.
Proof.
  unfold py_range. intros (k & <- & Hk)%in_map_iff.
  apply in_seq in Hk as [_ Hk]. rewrite Nat.add_0_l in Hk.
  replace (S (2 * h) - 1 + 2 - 1)%nat with (2 * h + 1)%nat in Hk by lia.
  pose proof (Nat.Div0.mul_div_le (2 * h + 1) 2) as Hd.
  lia.
Qed.

End ParseText.

Section ReportFacts.

Variable num : Type.
Variable zero : num.
Variable add : num -> num -> num.

Lemma count_result_cons (tag : string) (res : TradeResult num)
    (results : list (option (TradeResult num))) :
  count_result tag (Some res :: results) =
  ((if has_result tag res then 1 else 0) + count_result tag results)%nat.
Proof.
  unfold count_result. cbn [present flat_map app List.filter].
  now destruct (has_result tag res).
Qed.

Lemma counted_profits_cons (res : TradeResult num)
    (results : list (option (TradeResult num))) :
  counted_profits (Some res :: results) =
  if has_result "WIN" res || has_result "LOSS" res
  then tr_profit res :: counted_profits results
  else counted_profits results.
Proof.
  unfold counted_profits. cbn [present flat_map app List.filter].
  now destruct (has_result "WIN" res || has_result "LOSS" res).
Qed.

Lemma fold_report_step (results : list (option (TradeResult num))) (acc : Report num) :
  fold_left (report_step num add) results acc =
  mkReport (report_lines acc ++ map line_of (present results))
           (wins acc + count_result "WIN" results)
           (losses acc + count_result "LOSS" results)
           (fold_left add (counted_profits results) (total_profit acc)).
Proof.
  revert acc. induction results as [|[res|] results IH]; intros acc.
  - destruct acc. unfold count_result. simpl.
    now rewrite app_nil_r, !Nat.add_0_r.
  - cbn [fold_left]. rewrite IH, !count_result_cons, counted_profits_cons.
    unfold report_step, has_result.
    change (present (Some res :: results)) with (res :: present results).
    destruct (String.eqb_spec (tr_result res) "WIN") as [Ew|Ew].
    + rewrite Ew. cbn. rewrite <- app_assoc. f_equal; lia.
    + destruct (String.eqb (tr_result res) "LOSS"); cbn;
        rewrite <- app_assoc; f_equal; lia.
  - cbn [fold_left report_step]. now rewrite IH.
Qed.

End ReportFacts.

(** ** Properties of the message handler *)

Section HandlerFacts.

Lemma deliver_placement (h : MessageHandler) (k : string) (payload : list (string * pyval)) :
  deliver h (placement k payload) = set_digital h k (placement_value payload).
Proof.
  unfold deliver, handle_message, handle_digital_option_placed, placement_value.
  cbn. now destruct (assoc "id" payload) as [[]|].
Qed.

Lemma digital_options_result (h h' : MessageHandler) (m : Message) (k : string) :
  handle_message h m = Ok h' ->
  is_placement_for k m = false ->
  digital_options h' !! k = digital_options h !! k.
Proof.
  unfold handle_message, is_placement_for.
  destruct (String.eqb (m_name m) "timeSync") eqn:E1.
  { intros [= <-] _. reflexivity. }
  destruct (String.eqb (m_name m) "digital-option-placed") eqn:E2.
  { cbn [andb]. intros H Hk. apply String.eqb_neq in Hk.
    unfold handle_digital_option_placed in H.
    destruct (dict_get (m_msg m) "id" PNone) as [id|]; [|discriminate].
    cbn [rbind] in H. destruct (negb (is_none id)).
    - injection H as <-. cbn. now rewrite lookup_insert_ne.
    - destruct (dict_get (m_msg m) "message" PNone); [|discriminate].
      injection H as <-. cbn. now rewrite lookup_insert_ne. }
  destruct (String.eqb (m_name m) "position-changed").
  { unfold handle_position_changed. intros H _.
    destruct (subscript (m_msg m) "raw_event") as [x|]; [|discriminate].
    cbn [rbind] in H. destruct (subscript x "order_ids") as [y|]; [|discriminate].
    cbn [rbind] in H. destruct (first_item y) as [z|]; [|discriminate].
    cbn [rbind] in H. destruct (py_int_of z); [|discriminate].
    now injection H as <-. }
  destruct (String.eqb (m_name m) "option-opened").
  { unfold handle_binary_option_opened. intros H _.
    destruct (dict_get (m_msg m) "id" PNone) as [id|]; [|discriminate].
    cbn [rbind] in H. destruct (truthy id).
    - now injection H as <-.
    - destruct (dict_get (m_msg m) "message" PNone); [|discriminate].
      now injection H as <-. }
  destruct (String.eqb (m_name m) "option-closed").
  { unfold handle_binary_option_closed. intros H _.
    destruct (subscript (m_msg m) "id") as [x|]; [|discriminate].
    cbn [rbind] in H. destruct (py_int_of x); [|discriminate].
    now injection H as <-. }
  now intros [= <-] _.
Qed.

Lemma deliver_other (h : MessageHandler) (m : Message) (k : string) :
  is_placement_for k m = false ->
  digital_options (deliver h m) !! k = digital_options h !! k.
Proof.
  intros Hk. unfold deliver.
  destruct (handle_message h m) as [h'|] eqn:E; [|reflexivity].
  now apply (digital_options_result h h' m k).
Qed.

(** No handler removes a key of [open_positions['digital_options']]. *)
Lemma deliver_keeps_key (h : MessageHandler) (m : Message) (k : string) :
  is_Some (digital_options h !! k) -> is_Some (digital_options (deliver h m) !! k).
Proof.
  intros Hk. destruct (is_placement_for k m) eqn:E.
  - unfold is_placement_for in E. apply andb_prop in E as [En Ek].
    apply String.eqb_eq in En, Ek. unfold deliver, handle_message.
    rewrite En. cbn. unfold handle_digital_option_placed.
    destruct (dict_get (m_msg m) "id" PNone) as [id|]; [|exact Hk].
    cbn [rbind]. destruct (negb (is_none id)).
    + cbn. rewrite Ek, lookup_insert_eq. eauto.
    + destruct (dict_get (m_msg m) "message" PNone); [|exact Hk].
      cbn. rewrite Ek, lookup_insert_eq. eauto.
  - now rewrite deliver_other.
Qed.

Lemma deliver_all_other (k : string) (ms : list Message) :
  forall h,
    other_frames k ms = true ->
    digital_options (deliver_all h ms) !! k = digital_options h !! k.
Proof.
  induction ms as [|m ms IH]; intros h Hms; [reflexivity|].
  cbn in Hms. apply andb_prop in Hms as [Hm Hms]. apply negb_true_iff in Hm.
  cbn [deliver_all fold_left]. fold (deliver_all (deliver h m) ms).
  rewrite IH by exact Hms. now apply deliver_other.
Qed.

Lemma insert_keeps_key {K : Type} `{Countable K} (d : gmap K pyval) (k k' : K) (v : pyval) :
  is_Some (d !! k) -> is_Some (<[k' := v]> d !! k).
Proof.
  intros Hk. destruct (decide (k' = k)) as [->|Hne].
  - rewrite lookup_insert_eq. eauto.
  - now rewrite lookup_insert_ne.
Qed.

(** No handler removes a key of [position_info]. *)
Lemma deliver_keeps_position (h : MessageHandler) (m : Message) (k : Z) :
  is_Some (position_info h !! k) -> is_Some (position_info (deliver h m) !! k).
Proof.
  intros Hk. unfold deliver, handle_message.
  destruct (String.eqb (m_name m) "timeSync"); [exact Hk|].
  destruct (String.eqb (m_name m) "digital-option-placed").
  { unfold handle_digital_option_placed.
    destruct (dict_get (m_msg m) "id" PNone) as [id|]; [|exact Hk].
    cbn [rbind]. destruct (negb (is_none id)); [exact Hk|].
    now destruct (dict_get (m_msg m) "message" PNone). }
  destruct (String.eqb (m_name m) "position-changed").
  { unfold handle_position_changed.
    destruct (subscript (m_msg m) "raw_event") as [x|]; [|exact Hk].
    cbn [rbind]. destruct (subscript x "order_ids") as [y|]; [|exact Hk].
    cbn [rbind]. destruct (first_item y) as [z|]; [|exact Hk].
    cbn [rbind]. destruct (py_int_of z); [|exact Hk].
    cbn. now apply insert_keeps_key. }
  destruct (String.eqb (m_name m) "option-opened").
  { unfold handle_binary_option_opened.
    destruct (dict_get (m_msg m) "id" PNone) as [id|]; [|exact Hk].
    cbn [rbind]. destruct (truthy id); [exact Hk|].
    now destruct (dict_get (m_msg m) "message" PNone). }
  destruct (String.eqb (m_name m) "option-closed"); [|exact Hk].
  unfold handle_binary_option_closed.
  destruct (subscript (m_msg m) "id") as [x|]; [|exact Hk].
  cbn [rbind]. destruct (py_int_of x); [|exact Hk].
  cbn. now apply insert_keeps_key.
Qed.

End HandlerFacts.

(** ** Properties of the waits *)

Section WaitFacts.

Variable get_remaining_secs : pyval -> pyval -> result Q.

Local Abbreviation confirm := (confirm_run get_remaining_secs).
Local Abbreviation closure := (outcome_run get_remaining_secs).

Lemma registry_get_not_none {K : Type} `{Countable K} (d : gmap K pyval) (k : K) :
  is_none (registry_get d k) = false -> d !! k = Some (registry_get d k).
Proof. unfold registry_get. now destruct (d !! k). Qed.

Lemma registry_get_missing {K : Type} `{Countable K} (d : gmap K pyval) (k : K) :
  d !! k = None -> registry_get d k = PNone.
Proof. unfold registry_get. now intros ->. Qed.

(** The wait and the frames delivered meanwhile never remove a key. *)
Lemma confirm_keeps_keys (k : string) (expiry : pyval) (timeout : Q) (k' : string)
    (evs : list event) :
  forall st h lg,
    is_Some (digital_options h !! k') ->
    is_Some (digital_options (confirm k expiry timeout st h lg evs).1.2 !! k').
Proof.
  induction evs as [|[now|m] evs IH]; intros st h lg Hk; cbn [confirm_run].
  - exact Hk.
  - destruct st as [start|]; [|now apply IH].
    destruct (Qltb (now - start) timeout); [|exact Hk].
    destruct (negb (is_none (registry_get (digital_options h) k))); [|now apply IH].
    destruct (is_int _); [|exact Hk].
    now destruct (get_remaining_secs _ _).
  - apply IH. now apply deliver_keeps_key.
Qed.

(** A value returned by the wait is still stored under the key. *)
Lemma confirm_returned_held (k : string) (expiry : pyval) (timeout : Q)
    (evs : list event) :
  forall st h lg b v h' lg',
    confirm k expiry timeout st h lg evs = (Returned (Some (b, v)), h', lg') ->
    digital_options h' !! k = Some v.
Proof.
  induction evs as [|[now|m] evs IH]; intros st h lg b v h' lg'; cbn [confirm_run].
  - discriminate.
  - destruct st as [start|]; [|now apply IH].
    destruct (Qltb (now - start) timeout); [|discriminate].
    destruct (is_none (registry_get (digital_options h) k)) eqn:En; cbn [negb];
      [now apply IH|].
    apply registry_get_not_none in En.
    destruct (is_int _).
    + destruct (get_remaining_secs _ _); [|discriminate].
      intros Hr. inversion Hr; subst. exact En.
    + intros Hr. inversion Hr; subst. exact En.
  - apply IH.
Qed.

(** Without a placement frame for [k], a key that is absent stays absent and
    the wait cannot return a value for it. *)
Lemma confirm_no_push (k : string) (expiry : pyval) (timeout : Q) (evs : list event) :
  forall st h lg,
    digital_options h !! k = None ->
    no_placement_for k evs = true ->
    digital_options (confirm k expiry timeout st h lg evs).1.2 !! k = None
    /\ ((confirm k expiry timeout st h lg evs).1.1 = Returned None
        \/ exists s, (confirm k expiry timeout st h lg evs).1.1 = Pending s).
Proof.
  induction evs as [|[now|m] evs IH]; intros st h lg Hk Hno; cbn [confirm_run].
  - split; [exact Hk|]. right. now eexists.
  - cbn in Hno. destruct st as [start|]; [|now apply IH].
    destruct (Qltb (now - start) timeout); [|split; [exact Hk|now left]].
    rewrite (registry_get_missing _ _ Hk). cbn. now apply IH.
  - cbn in Hno. apply andb_prop in Hno as [Hm Hno].
    apply negb_true_iff in Hm. apply IH; [|exact Hno].
    now rewrite deliver_other.
Qed.

(** The wait ends at the first reading of the clock at or past the
    deadline. *)
Lemma confirm_times_out (k : string) (expiry : pyval) (timeout start now : Q)
    (rest mid : list event) :
  forall h lg,
    digital_options h !! k = None ->
    no_placement_for k mid = true ->
    Qltb (now - start) timeout = false ->
    (confirm k expiry timeout (Some start) h lg (mid ++ Tick now :: rest)).1.1
      = Returned None
    /\ digital_options
         (confirm k expiry timeout (Some start) h lg (mid ++ Tick now :: rest)).1.2
       !! k = None.
Proof.
  induction mid as [|[t|m] mid IH]; intros h lg Hk Hno Hnow; cbn [app confirm_run].
  - rewrite Hnow. now split.
  - cbn in Hno. destruct (Qltb (t - start) timeout); [|now split].
    rewrite (registry_get_missing _ _ Hk). cbn. now apply IH.
  - cbn in Hno. apply andb_prop in Hno as [Hm Hno].
    apply negb_true_iff in Hm. apply IH; [|exact Hno|exact Hnow].
    now rewrite deliver_other.
Qed.

(** Frames delivered in a row reach the handler before the next reading of
    the clock. *)
Lemma confirm_deliveries (k : string) (expiry : pyval) (timeout : Q)
    (ms : list Message) (evs : list event) :
  forall st h lg,
    confirm k expiry timeout st h lg (map Deliver ms ++ evs)
    = confirm k expiry timeout st (deliver_all h ms) lg evs.
Proof.
  induction ms as [|m ms IH]; intros st h lg; [reflexivity|].
  cbn [map app confirm_run]. apply IH.
Qed.

(** A wait that is pending after some events goes on from its locals. *)
Lemma confirm_resume (k : string) (expiry : pyval) (timeout : Q) (pre evs : list event) :
  forall st h lg st' h' lg',
    confirm k expiry timeout st h lg pre = (Pending st', h', lg') ->
    confirm k expiry timeout st h lg (pre ++ evs)
    = confirm k expiry timeout st' h' lg' evs.
Proof.
  induction pre as [|[now|m] pre IH]; intros st h lg st' h' lg'; cbn [app confirm_run].
  - now intros [= <- <- <-].
  - destruct st as [start|]; [|now apply IH].
    destruct (Qltb (now - start) timeout); [|discriminate].
    destruct (negb (is_none _)); [|now apply IH].
    destruct (is_int _); [|discriminate].
    now destruct (get_remaining_secs _ _).
  - apply IH.
Qed.

Lemma closure_times_out (order_id : Z) (expiry : pyval) (start timeout now : Q)
    (rest mid : list event) :
  forall h lg,
    never_seen_closed order_id h mid = true ->
    Qltb (now - start) (timeout + 3) = false ->
    exists h',
      closure order_id expiry (Some (start, timeout)) h lg (mid ++ Tick now :: rest)
      = (Returned (false, PNone), h', lg).
Proof.
  induction mid as [|[t|m] mid IH]; intros h lg Hno Hnow; cbn [app outcome_run].
  - rewrite Hnow. now exists h.
  - cbn in Hno. destruct (Qltb (t - start) (timeout + 3)); [|now exists h].
    destruct (order_closed (order_data_of h order_id)) as [[]|]; try discriminate.
    now apply IH.
  - cbn in Hno. now apply IH.
Qed.

(** The closure wait and the frames delivered meanwhile never remove a
    record of [position_info]. *)
Lemma closure_keeps_positions (order_id : Z) (expiry : pyval) (k' : Z)
    (evs : list event) :
  forall st h lg,
    is_Some (position_info h !! k') ->
    is_Some (position_info (closure order_id expiry st h lg evs).1.2 !! k').
Proof.
  induction evs as [|[now|m] evs IH]; intros st h lg Hk; cbn [outcome_run].
  - exact Hk.
  - destruct st as [[start timeout]|].
    + destruct (Qltb (now - start) (timeout + 3)); [|exact Hk].
      destruct (order_closed (order_data_of h order_id)) as [[]|]; [| |exact Hk].
      * now destruct (closed_pnl (order_data_of h order_id)) as [[]|].
      * now apply IH.
    + destruct (get_remaining_secs _ _); [now apply IH|exact Hk].
  - apply IH. now apply deliver_keeps_position.
Qed.

(** The record of a closed order is still held when the wait has returned
    its pnl. *)
Lemma closure_returned_held (order_id : Z) (expiry : pyval) (evs : list event) :
  forall st h lg pnl h' lg',
    closure order_id expiry st h lg evs = (Returned (true, pnl), h', lg') ->
    is_Some (position_info h' !! order_id).
Proof.
  induction evs as [|[now|m] evs IH]; intros st h lg pnl h' lg'; cbn [outcome_run].
  - discriminate.
  - destruct st as [[start timeout]|].
    + destruct (Qltb (now - start) (timeout + 3)); [|discriminate].
      destruct (order_closed (order_data_of h order_id)) as [[]|] eqn:Ec;
        [| |discriminate].
      * destruct (closed_pnl (order_data_of h order_id)) as [[]|]; [|discriminate].
        intros Hr. inversion Hr; subst.
        unfold order_data_of in Ec.
        destruct (position_info h' !! order_id); [eauto|discriminate].
      * apply IH.
    + destruct (get_remaining_secs _ _); [apply IH|discriminate].
  - apply IH.
Qed.

End WaitFacts.

Section ExecuteFacts.

Variable UNDERLYING_ASSESTS : gmap string Z.
Variable get_expiration : pyval -> pyval -> result Z.
Variable get_remaining_secs : pyval -> pyval -> result Q.
Variable strftime_utc : Z -> result string.

Local Abbreviation prepare :=
  (prepare_order UNDERLYING_ASSESTS get_expiration strftime_utc).
Local Abbreviation execute :=
  (execute_digital_option_trade UNDERLYING_ASSESTS get_expiration
     get_remaining_secs strftime_utc).

Lemma to_lower_idem (c : ascii) : to_lower (to_lower c) = to_lower c.
Proof. destruct c as [[] [] [] [] [] [] [] []]; reflexivity. Qed.

Lemma py_lower_idem (s : string) : py_lower (py_lower s) = py_lower s.
Proof.
  unfold py_lower, lower. rewrite list_ascii_of_string_of_list_ascii, map_map.
  f_equal. apply map_ext. intros c. apply to_lower_idem.
Qed.

Lemma validate_ok (account_id asset amount expiry : pyval) (d : string) :
  validate_options_trading_parameters account_id asset amount (PStr d) expiry = Ok tt ->
  (exists a, asset = PStr a /\ truthy (PStr (py_strip a)) = true)
  /\ amount_accepted amount = true
  /\ direction_normalizes (PStr d) = true
  /\ expiry_positive_int expiry = true
  /\ truthy account_id = true.
Proof.
  unfold validate_options_trading_parameters, direction_normalizes.
  destruct asset as [| | | |a| |]; cbn [is_str negb orb]; try discriminate.
  destruct (truthy (PStr (py_strip a))) eqn:Ea; cbn [negb]; [|discriminate].
  assert (forall v, (if negb (is_number v) then Ok true else py_lt v 1)
                    = Ok (negb (amount_accepted v))) as Hamt.
  { intros []; cbn; try reflexivity.
    - now destruct b.
    - f_equal. rewrite Z.leb_antisym. f_equal. lia.
    - now rewrite negb_involutive. }
  assert (forall v, (if negb (is_int v) then Ok true else py_lt v 1)
                    = Ok (negb (expiry_positive_int v))) as Hexp.
  { intros []; cbn; try reflexivity.
    - now destruct b.
    - f_equal. rewrite Z.leb_antisym. f_equal. lia. }
  rewrite Hamt, Hexp. cbn [rbind].
  destruct (amount_accepted amount); cbn [negb]; [|discriminate].
  destruct (String.eqb (py_strip (py_lower d)) "put"
            || String.eqb (py_strip (py_lower d)) "call"); cbn [negb]; [|discriminate].
  destruct (expiry_positive_int expiry); cbn [negb]; [|discriminate].
  destruct (truthy account_id); cbn [negb]; [|discriminate].
  intros _. repeat split; eauto.
Qed.

(** Inputs that break a rule make the preparation raise. *)
Lemma prepare_rejects (w : World) (asset amount direction expiry : pyval) (draw : Z) :
  inputs_accepted UNDERLYING_ASSESTS w asset amount direction expiry = false ->
  exists e, prepare w asset amount direction expiry draw = Raise e.
Proof.
  intros Hrej. unfold prepare_order.
  destruct direction as [| | | |d| |]; try (eexists; reflexivity).
  destruct (validate_options_trading_parameters (current_account_id w) asset amount
              (PStr (py_lower d)) expiry) as [[]|e] eqn:Hv; [|now exists e].
  apply validate_ok in Hv as ((a & -> & Ha) & Hamt & Hdir & Hexp & Hacc).
  unfold direction_normalizes in Hdir. rewrite py_lower_idem in Hdir.
  unfold inputs_accepted, asset_resolves, direction_normalizes in Hrej.
  rewrite Ha, Hamt, Hdir, Hexp, Hacc, !andb_true_r in Hrej. cbn [andb] in Hrej.
  cbn [rbind].
  destruct (if String.eqb (py_lower d) "put" then Ok "P"%string
            else if String.eqb (py_lower d) "call" then Ok "C"%string
            else Raise KeyError) as [code|e]; [|now exists e].
  cbn [rbind]. unfold build_options_body, get_asset_id.
  destruct (UNDERLYING_ASSESTS !! a); [discriminate|].
  now exists KeyError.
Qed.

Lemma failure_record_is_error (e : exn) : exists ev, failure_record e = (ERROR, ev).
Proof. destruct e; cbn; eauto. Qed.

(** The order is sent as soon as the preparation succeeds, whatever the
    registry and the outbox hold. *)
Lemma execute_sends (w : World) (asset amount direction expiry : pyval) (draw : Z)
    (evs : list event) (msg : OrderBody) (rid : string) :
  prepare w asset amount direction expiry draw = Ok (msg, rid) ->
  outbox (execute w asset amount direction expiry draw evs).2
  = outbox w ++ [mkSent "sendMessage" msg rid].
Proof.
  intros Hp. unfold execute_digital_option_trade. rewrite Hp.
  destruct (confirm_run _ _ _ _ _ _ _ _) as [[[r|e|s] h] lg]; reflexivity.
Qed.

Lemma prepare_request_id (w : World) (asset amount direction expiry : pyval) (draw : Z)
    (msg : OrderBody) (rid : string) :
  prepare w asset amount direction expiry draw = Ok (msg, rid) ->
  rid = str_of_int draw.
Proof.
  unfold prepare_order. destruct direction; try discriminate.
  destruct (validate_options_trading_parameters _ _ _ _ _); [|discriminate].
  cbn [rbind]. destruct (if String.eqb _ _ then _ else _); [|discriminate].
  cbn [rbind]. destruct asset; try discriminate.
  destruct (build_options_body _ _ _ _ _ _ _ _); [|discriminate].
  cbn [rbind]. now intros [= _ <-].
Qed.

(** The preparation reads the server time and the account only. *)
Lemma prepare_ignores_registry (w w' : World) (asset amount direction expiry : pyval)
    (draw : Z) :
  server_time (handler w) = server_time (handler w') ->
  current_account_id w = current_account_id w' ->
  prepare w asset amount direction expiry draw
  = prepare w' asset amount direction expiry draw.
Proof.
  intros Ht Ha. unfold prepare_order, build_options_body. now rewrite Ht, Ha.
Qed.

End ExecuteFacts.

(** ** The parser: stated properties *)

(** C9.  The line [O3:4O;EURAUD;CALL;5] is cleaned to [03:4O;EURAUD;CALL;5]:
    the letter O that follows the digit 4 stays, the time fails validation
    and no signal is produced.  With the second O already a zero the line
    parses to a signal at 03:40. *)
Theorem clean_keeps_O_after_digit :
  clean_signal_line (lit "O3:4O;EURAUD;CALL;5") = lit "03:4O;EURAUD;CALL;5"
  /\ parse_signal (lit "O3:4O;EURAUD;CALL;5") = None
  /\ clean_signal_line (lit "O3:40;EURAUD;CALL;5") = lit "03:40;EURAUD;CALL;5"
  /\ parse_signal (lit "O3:40;EURAUD;CALL;5")
     = Some (mkSignal (lit "03:40") (lit "EURAUD") (lit "CALL") 5).
Proof. repeat split; vm_compute; reflexivity. Qed.

(** C10.  Cleanup replaces every lowercase [i] by the separator [;] ahead
    of the other rewrites (the leading [strip] commutes with it), so none
    is left and each becomes one more separator; a line that contains an
    [i] is therefore split into one field more per [i], beside those of its
    own separators. *)
Theorem clean_turns_i_into_separator (line : str) (Hi : contains "i" line = true) :
  clean_signal_line line = normalize_tail (replace_i (strip line))
  /\ replace_i (strip line) = strip (replace_i line)
  /\ count_char "i" (replace_i (strip line)) = O
  /\ count_char ";" (replace_i (strip line))
     = (count_char ";" line + count_char "i" line)%nat
  /\ (0 < count_char "i" line)%nat
  /\ length (fields line) = S (count_char ";" line + count_char "i" line).
Proof.
  split; [reflexivity|].
  split; [symmetry; apply strip_replace_i|].
  split; [apply count_i_replace_i|].
  split; [now rewrite count_semicolon_replace_i, !count_char_strip|].
  split.
  - rewrite contains_count in Hi. destruct (count_char "i" line); [discriminate|lia].
  - apply length_fields. now rewrite Hi, orb_true_r.
Qed.

Lemma clean_turns_i_into_separator_witness :
  contains "i" (lit "03:40;EURAUD;CALL;5 min") = true
  /\ clean_signal_line (lit "03:40;EURAUD;CALL;5 min") = lit "03:40;EURAUD;CALL;5m;n"
  /\ length (fields (lit "03:40;EURAUD;CALL;5 min")) = 5%nat.
Proof.
  split; [reflexivity|]. split; [vm_compute; reflexivity|].
  exact (proj2 (proj2 (proj2 (proj2 (proj2
    (clean_turns_i_into_separator (lit "03:40;EURAUD;CALL;5 min") eq_refl)))))).
Defined.

(** ** The registry and the waits: stated properties *)

Section WaitTheorems.

Variable get_remaining_secs : pyval -> pyval -> result Q.

Local Abbreviation confirm := (confirm_run get_remaining_secs).
Local Abbreviation closure := (outcome_run get_remaining_secs).

Lemma registry_get_insert (d : gmap string pyval) (k : string) (v : pyval) :
  registry_get (<[k := v]> d) k = v.
Proof. unfold registry_get. now rewrite lookup_insert_eq. Qed.

(** C1, as the code has it.  A placement frame for request id [k] stores
    under [k] the [id] of its payload when that is not null and the
    [message] otherwise.  A wait on [k] - started after the frame was
    handled or already in its loop when the frame arrives, whatever other
    frames are handled in between - that polls before its deadline returns
    [(True, v)] when the stored [v] is an [int] and [(False, v)] for any
    other [v] that is not null: an [id] that is a float or a string is
    returned as a failure, and it is the [id] that is returned, not the
    message.  (An exception of [get_remaining_secs], which the success path
    calls for its log record, leaves the wait.)  A null [v] counts as no
    answer and the wait goes on; a frame handled when the next reading of
    the clock is at or past the deadline is not looked at, and the wait
    returns [None]. *)
Theorem placement_push_resolves_wait
    (k : string) (payload : list (string * pyval)) (h : MessageHandler)
    (expiry : pyval) (timeout : Q) (lg : list log_record) (start now : Q)
    (others : list Message) (rest : list event)
    (Hothers : other_frames k others = true)
    (Hdeadline : Qltb (now - start) timeout = true) :
  let v := placement_value payload in
  let h1 := deliver_all (deliver h (placement k payload)) others in
  let arrival := Deliver (placement k payload) :: map Deliver others in
  let resolved (done : outcome (option Q) (option (bool * pyval))
                       * MessageHandler * list log_record) :=
    wait_for_order_confirmation get_remaining_secs k expiry timeout h1 lg
      (Tick start :: Tick now :: rest) = done
    /\ confirm k expiry timeout (Some start) h lg (arrival ++ Tick now :: rest) = done
    /\ (forall pre h0 lg0,
           wait_for_order_confirmation get_remaining_secs k expiry timeout h0 lg0 pre
           = (Pending (Some start), h, lg) ->
           wait_for_order_confirmation get_remaining_secs k expiry timeout h0 lg0
             (pre ++ arrival ++ Tick now :: rest) = done) in
  (forall id, assoc "id" payload = Some id -> is_none id = false -> v = id)
  /\ (assoc "id" payload = None \/ assoc "id" payload = Some PNone ->
      v = match assoc "message" payload with Some text => text | None => PNone end)
  /\ digital_options h1 !! k = Some v
  /\ (is_int v = true ->
      forall secs,
        get_remaining_secs (server_time h1) expiry = Ok secs ->
        resolved (Returned (Some (true, v)), h1, lg ++ [(INFO, OrderExecuted v secs)]))
  /\ (is_int v = true ->
      forall e,
        get_remaining_secs (server_time h1) expiry = Raise e ->
        resolved (Raised e, h1, lg))
  /\ (is_none v = false -> is_int v = false ->
      resolved (Returned (Some (false, v)), h1, lg ++ [(ERROR, OrderExecutionFailed v)]))
  /\ (is_none v = true ->
      resolved (confirm k expiry timeout (Some start) h1 lg rest))
  /\ (forall late,
         Qltb (late - start) timeout = false ->
         confirm k expiry timeout (Some start) h lg (arrival ++ Tick late :: rest)
         = (Returned None, h1, lg ++ [(ERROR, ConfirmationTimedOut timeout)])).
Proof.
  cbn zeta.
  set (h1 := deliver_all (deliver h (placement k payload)) others).
  assert (digital_options h1 !! k = Some (placement_value payload)) as Hstored.
  { unfold h1. rewrite (deliver_all_other k others _ Hothers).
    rewrite deliver_placement. cbn. now rewrite lookup_insert_eq. }
  assert (registry_get (digital_options h1) k = placement_value payload) as Hget
      by (unfold registry_get; now rewrite Hstored).
  assert (forall done,
             confirm k expiry timeout (Some start) h1 lg (Tick now :: rest) = done ->
             wait_for_order_confirmation get_remaining_secs k expiry timeout h1 lg
               (Tick start :: Tick now :: rest) = done
             /\ confirm k expiry timeout (Some start) h lg
                  ((Deliver (placement k payload) :: map Deliver others)
                     ++ Tick now :: rest) = done
             /\ (forall pre h0 lg0,
                    wait_for_order_confirmation get_remaining_secs k expiry timeout
                      h0 lg0 pre = (Pending (Some start), h, lg) ->
                    wait_for_order_confirmation get_remaining_secs k expiry timeout
                      h0 lg0
                      (pre ++ (Deliver (placement k payload) :: map Deliver others)
                           ++ Tick now :: rest) = done))
    as Hforms.
  { intros done Hdone.
    assert (confirm k expiry timeout (Some start) h lg
              ((Deliver (placement k payload) :: map Deliver others)
                 ++ Tick now :: rest) = done) as Hloop.
    { cbn [app confirm_run]. now rewrite confirm_deliveries. }
    split; [exact Hdone|]. split; [exact Hloop|].
    intros pre h0 lg0 Hpre. unfold wait_for_order_confirmation in *.
    now rewrite (confirm_resume get_remaining_secs k expiry timeout pre _ _ _ _ _ _ _ Hpre). }
  split.
  { intros id Hid Hnone. unfold placement_value. now rewrite Hid, Hnone. }
  split.
  { intros Hid. unfold placement_value. now destruct Hid as [-> | ->]. }
  split; [exact Hstored|].
  split.
  { intros Hint secs Hsecs. apply Hforms.
    cbn [confirm_run]. rewrite Hdeadline, Hget, Hint, Hsecs.
    now destruct (placement_value payload). }
  split.
  { intros Hint e He. apply Hforms.
    cbn [confirm_run]. rewrite Hdeadline, Hget, Hint, He.
    now destruct (placement_value payload). }
  split.
  { intros Hnone Hint. apply Hforms.
    cbn [confirm_run]. now rewrite Hdeadline, Hget, Hnone, Hint. }
  split.
  { intros Hnone. apply Hforms.
    cbn [confirm_run]. now rewrite Hdeadline, Hget, Hnone. }
  intros late Hlate. cbn [app confirm_run]. rewrite confirm_deliveries.
  fold h1. cbn [confirm_run]. now rewrite Hlate.
Qed.

(** C2, as the code has it.  Nothing removes a key of the registry: every
    key held before a wait is held after it, and a value the wait returned
    for [k] is still stored under [k]; likewise every record of
    [position_info] outlives the closure wait, the record of the closed
    order included.  A wait on [k] that meets no placement frame for [k], on
    a registry that did not hold [k], ends without a value (at the first
    clock reading past the deadline with [None]) and leaves [k] absent: no
    entry was ever made. *)
Theorem registry_never_releases
    (k : string) (expiry : pyval) (timeout : Q) (st : option Q)
    (h : MessageHandler) (lg : list log_record) (evs : list event) :
  (forall k', is_Some (digital_options h !! k') ->
              is_Some (digital_options (confirm k expiry timeout st h lg evs).1.2 !! k'))
  /\ (forall b v h' lg',
         confirm k expiry timeout st h lg evs = (Returned (Some (b, v)), h', lg') ->
         digital_options h' !! k = Some v)
  /\ (digital_options h !! k = None ->
      no_placement_for k evs = true ->
      digital_options (confirm k expiry timeout st h lg evs).1.2 !! k = None
      /\ ((confirm k expiry timeout st h lg evs).1.1 = Returned None
          \/ exists s, (confirm k expiry timeout st h lg evs).1.1 = Pending s))
  /\ (forall start now mid rest,
         evs = Tick start :: mid ++ Tick now :: rest ->
         st = None ->
         digital_options h !! k = None ->
         no_placement_for k mid = true ->
         Qltb (now - start) timeout = false ->
         (confirm k expiry timeout st h lg evs).1.1 = Returned None
         /\ digital_options (confirm k expiry timeout st h lg evs).1.2 !! k = None)
  /\ (forall order_id expiry' st' k',
         is_Some (position_info h !! k') ->
         is_Some (position_info (closure order_id expiry' st' h lg evs).1.2 !! k'))
  /\ (forall order_id expiry' st' pnl h' lg',
         closure order_id expiry' st' h lg evs = (Returned (true, pnl), h', lg') ->
         is_Some (position_info h' !! order_id)).
Proof.
  split; [intros k'; apply confirm_keeps_keys|].
  split; [intros b v h' lg'; apply confirm_returned_held|].
  split; [apply confirm_no_push|].
  split.
  { intros start now mid rest -> -> Hk Hno Hnow. cbn [confirm_run].
    now apply confirm_times_out. }
  split.
  - intros order_id expiry' st' k'. apply closure_keeps_positions.
  - intros order_id expiry' st' pnl h' lg'. apply closure_returned_held.
Qed.

Lemma record_open_passes (h : MessageHandler) (order_id : Z) :
  record_open (position_info h !! order_id) = true ->
  order_closed (order_data_of h order_id) = Ok false.
Proof.
  unfold record_open, record_closed, order_closed, order_data_of.
  destruct (position_info h !! order_id) as [v|]; [|reflexivity].
  destruct v as [| b | z | f | t | l | d]; try (now intros ->%negb_true_iff).
  destruct d as [|entry d]; [reflexivity|]. cbn [truthy dict_get rbind].
  destruct (assoc "status" (entry :: d)) as [[]|]; cbn [eq_str]; try reflexivity.
  now intros ->%negb_true_iff.
Qed.

Lemma record_closed_seen (h : MessageHandler) (order_id : Z) :
  record_closed (position_info h !! order_id) = true ->
  order_closed (order_data_of h order_id) = Ok true.
Proof.
  unfold record_closed, order_closed, order_data_of.
  destruct (position_info h !! order_id) as [[| | | | | |d]|]; try discriminate.
  destruct d as [|entry d]; [discriminate|]. cbn [truthy dict_get rbind].
  destruct (assoc "status" (entry :: d)) as [[]|]; try discriminate.
  cbn [eq_str]. now intros ->.
Qed.

Lemma polls_open_never_closed (order_id : Z) (evs : list event) :
  forall h, polls_find_open order_id h evs = true ->
            never_seen_closed order_id h evs = true.
Proof.
  induction evs as [|[t|m] evs IH]; intros h; cbn [polls_find_open never_seen_closed].
  - reflexivity.
  - intros [Ho Hrest]%andb_prop. rewrite (record_open_passes h order_id Ho).
    now apply IH.
  - apply IH.
Qed.

Lemma reported_pnl (pnl : pyval) :
  (win <-! py_gt pnl 0;
   _ <-! format_2f pnl;
   Ok (pnl, if win : bool then "WIN"%string else "LOSS"%string))
  = if reportable pnl
    then Ok (pnl, if is_win pnl then "WIN"%string else "LOSS"%string)
    else Raise (match pnl with PInt _ => OverflowError | _ => TypeError end).
Proof.
  destruct pnl as [| b | z | f | t | l | d]; try reflexivity.
  - now destruct b.
  - cbn [rbind py_gt format_2f reportable is_win]. unfold float_of_int_overflows.
    rewrite Z.leb_antisym. now destruct (Z.abs z <? 2 ^ 1024 - 2 ^ 970).
Qed.

(** C5, as the code has it.  The closure wait computes its deadline once,
    as the remaining seconds to expiry plus 3.  A poll before the deadline
    that finds a dict record of the order with status [closed] ends the
    wait: with [(True, pnl)], logged as WIN when [pnl > 0] and as LOSS
    otherwise, when the [pnl] of the record (0 when it has none) is a number
    that can be printed, and with an exception otherwise.  When every poll
    finds the record absent, falsy or not closed, the first reading of the
    clock at or past the deadline returns [(False, None)]; and a reading at
    or past the deadline returns [(False, None)] whatever the record holds
    by then, so a closure recorded before the deadline but after the last
    poll is not reported. *)
Theorem closure_wait_deadline_and_result
    (order_id : Z) (expiry : pyval) (h : MessageHandler) (lg : list log_record)
    (start remaining : Q) (rest : list event)
    (Hrem : get_remaining_secs (server_time h) expiry = Ok remaining) :
  get_trade_outcome get_remaining_secs order_id expiry h lg (Tick start :: rest)
  = closure order_id expiry (Some (start, remaining)) h lg rest
  /\ (forall h' lg' now rest' data,
         Qltb (now - start) (remaining + 3) = true ->
         position_info h' !! order_id = Some (PDict data) ->
         record_closed (Some (PDict data)) = true ->
         closure order_id expiry (Some (start, remaining)) h' lg' (Tick now :: rest')
         = if reportable (pnl_of data)
           then (Returned (true, pnl_of data), h',
                 lg' ++ [(INFO, TradeClosed order_id
                                  (if is_win (pnl_of data) then "WIN" else "LOSS")
                                  (pnl_of data))])
           else (Raised (match pnl_of data with
                         | PInt _ => OverflowError
                         | _ => TypeError
                         end), h', lg'))
  /\ (forall h' lg' now rest',
         Qltb (now - start) (remaining + 3) = true ->
         record_open (position_info h' !! order_id) = true ->
         closure order_id expiry (Some (start, remaining)) h' lg' (Tick now :: rest')
         = closure order_id expiry (Some (start, remaining)) h' lg' rest')
  /\ (forall h' lg' mid now rest',
         polls_find_open order_id h' mid = true ->
         Qltb (now - start) (remaining + 3) = false ->
         exists h'',
           closure order_id expiry (Some (start, remaining)) h' lg'
             (mid ++ Tick now :: rest')
           = (Returned (false, PNone), h'', lg'))
  /\ (forall h' lg' now rest',
         Qltb (now - start) (remaining + 3) = false ->
         closure order_id expiry (Some (start, remaining)) h' lg' (Tick now :: rest')
         = (Returned (false, PNone), h', lg')).
Proof.
  split.
  { unfold get_trade_outcome. cbn [outcome_run]. now rewrite Hrem. }
  split.
  { intros h' lg' now rest' data Hnow Hpos Hclosed.
    cbn [outcome_run]. rewrite Hnow.
    rewrite (record_closed_seen h' order_id) by now rewrite Hpos.
    unfold closed_pnl, order_data_of. rewrite Hpos. cbn [dict_get rbind].
    change (match assoc "pnl" data with Some v => v | None => PInt 0 end)
      with (pnl_of data).
    rewrite (reported_pnl (pnl_of data)).
    now destruct (reportable (pnl_of data)). }
  split.
  { intros h' lg' now rest' Hnow Hopen. cbn [outcome_run].
    now rewrite Hnow, (record_open_passes h' order_id Hopen). }
  split.
  { intros h' lg' mid now rest' Hopen. apply closure_times_out.
    now apply polls_open_never_closed. }
  intros h' lg' now rest' Hnow. cbn [outcome_run]. now rewrite Hnow.
Qed.

End WaitTheorems.

Lemma placement_push_resolves_wait_witness :
  wait_for_order_confirmation sample_remaining "7" (PInt 1) 10
    (deliver_all (deliver new_handler (placement "7" [("id"%string, PInt 55)]))
                 [sample_time_sync])
    [] [Tick 0; Tick 1]
  = (Returned (Some (true, PInt 55)),
     deliver_all (deliver new_handler (placement "7" [("id"%string, PInt 55)]))
                 [sample_time_sync],
     [(INFO, OrderExecuted (PInt 55) 60)])
  /\ confirm_run sample_remaining "7" (PInt 1) 10 (Some 0%Q) new_handler []
       [Deliver (placement "7" [("id"%string, PInt 55)]);
        Deliver sample_time_sync; Tick 1]
     = (Returned (Some (true, PInt 55)),
        deliver_all (deliver new_handler (placement "7" [("id"%string, PInt 55)]))
                    [sample_time_sync],
        [(INFO, OrderExecuted (PInt 55) 60)]).
Proof.
  pose proof (placement_push_resolves_wait sample_remaining "7"
                [("id"%string, PInt 55)] new_handler (PInt 1) 10 [] 0 1
                [sample_time_sync] [] eq_refl eq_refl)
    as (_ & _ & _ & Hint & _).
  destruct (Hint eq_refl 60%Q eq_refl) as (H1 & H2 & _).
  exact (conj H1 H2).
Defined.

(** Against C1 as worded: a numeric id that is not an [int] is returned as
    a failure; a failure carries the [id] when there is one, not the
    message; a payload with neither leaves the wait to its timeout; and so
    does a frame handled after the last poll before the deadline. *)
Lemma float_id_is_returned_as_failure :
  wait_for_order_confirmation sample_remaining "7" (PInt 1) confirmation_timeout
    new_handler []
    [Tick 0; Deliver (placement "7" [("id"%string, PFloat (FFinite 12))]); Tick 1]
  = (Returned (Some (false, PFloat (FFinite 12))),
     set_digital new_handler "7" (PFloat (FFinite 12)),
     [(ERROR, OrderExecutionFailed (PFloat (FFinite 12)))])
  /\ (wait_for_order_confirmation sample_remaining "7" (PInt 1) confirmation_timeout
        new_handler []
        [Tick 0;
         Deliver (placement "7" [("id"%string, PStr "12");
                                 ("message"%string, PStr "rejected")]);
         Tick 1]).1.1
     = Returned (Some (false, PStr "12"))
  /\ wait_for_order_confirmation sample_remaining "7" (PInt 1) confirmation_timeout
       new_handler [] [Tick 0; Deliver (placement "7" []); Tick 1; Tick 10]
     = (Returned None, set_digital new_handler "7" PNone,
        [(ERROR, ConfirmationTimedOut confirmation_timeout)])
  /\ wait_for_order_confirmation sample_remaining "7" (PInt 1) confirmation_timeout
       new_handler []
       [Tick 0; Tick 9; Deliver (placement "7" [("id"%string, PInt 55)]); Tick 10]
     = (Returned None, set_digital new_handler "7" (PInt 55),
        [(ERROR, ConfirmationTimedOut confirmation_timeout)]).
Proof. repeat split; vm_compute; reflexivity. Qed.

(** Against C2 as worded: a rejected slot that its waiter has read is still
    in the registry afterwards. *)
Lemma resolved_key_stays_in_registry :
  (confirm_run sample_remaining "7" (PInt 1) confirmation_timeout None new_handler []
     [Tick 0; Deliver (placement "7" [("message"%string, PStr "rejected")]); Tick 1]).1.1
  = Returned (Some (false, PStr "rejected"))
  /\ digital_options
       (confirm_run sample_remaining "7" (PInt 1) confirmation_timeout None new_handler []
          [Tick 0; Deliver (placement "7" [("message"%string, PStr "rejected")]);
           Tick 1]).1.2
     !! "7"%string
     = Some (PStr "rejected").
Proof. split; vm_compute; reflexivity. Qed.

Lemma closure_wait_deadline_and_result_witness :
  get_trade_outcome sample_remaining 55 (PInt 1) sample_closed [] [Tick 0; Tick 62]
  = outcome_run sample_remaining 55 (PInt 1) (Some (0%Q, 60%Q)) sample_closed []
      [Tick 62]
  /\ outcome_run sample_remaining 55 (PInt 1) (Some (0%Q, 60%Q)) sample_closed []
       [Tick 62]
     = (Returned (true, PInt 10), sample_closed, [(INFO, TradeClosed 55 "WIN" (PInt 10))]).
Proof.
  pose proof (closure_wait_deadline_and_result sample_remaining 55 (PInt 1)
                sample_closed [] 0 60 [Tick 62] eq_refl) as (H1 & H2 & _).
  split; [exact H1|].
  exact (H2 sample_closed [] 62%Q []
            [("status"%string, PStr "closed"); ("pnl"%string, PInt 10)]
            eq_refl eq_refl eq_refl).
Defined.

(** Against C5 as worded: a closure recorded before the deadline (63) that
    is first polled at the deadline is not reported, where a poll one second
    earlier reports it; and a closed record does not always give its pnl. *)
Lemma closure_polled_at_deadline_times_out :
  get_trade_outcome sample_remaining 55 (PInt 1) new_handler []
    [Tick 0; Deliver (position_changed sample_closure_payload); Tick 63]
  = (Returned (false, PNone),
     set_position new_handler 55 (PDict sample_closure_payload), [])
  /\ get_trade_outcome sample_remaining 55 (PInt 1) new_handler []
       [Tick 0; Deliver (position_changed sample_closure_payload); Tick 62]
     = (Returned (true, PInt (-5)),
        set_position new_handler 55 (PDict sample_closure_payload),
        [(INFO, TradeClosed 55 "LOSS" (PInt (-5)))])
  /\ (get_trade_outcome sample_remaining 55 (PInt 1)
        (set_position new_handler 55
           (PDict [("status"%string, PStr "closed"); ("pnl"%string, PInt (2 ^ 1024))]))
        [] [Tick 0; Tick 1]).1.1
     = Raised OverflowError.
Proof. repeat split; vm_compute; reflexivity. Qed.


(** ** The executor: stated properties *)

(** C3.  An execution whose order is sent and whose placement wait times
    out (no placement frame for its request id, a clock reading at or past
    10 seconds) returns [None]: the wait ends without a [return], and the
    executor hands that value on. *)
Theorem timed_out_execution_returns_None
    (table : gmap string Z) (get_expiration : pyval -> pyval -> result Z)
    (get_remaining_secs : pyval -> pyval -> result Q)
    (strftime_utc : Z -> result string)
    (w : World) (asset amount direction expiry : pyval) (draw : Z)
    (start now : Q) (mid rest : list event) (msg : OrderBody) (rid : string)
    (Hp : prepare_order table get_expiration strftime_utc w asset amount direction
                        expiry draw = Ok (msg, rid))
    (Hk : digital_options (handler w) !! rid = None)
    (Hno : no_placement_for rid mid = true)
    (Hnow : Qltb (now - start) confirmation_timeout = false) :
  (execute_digital_option_trade table get_expiration get_remaining_secs strftime_utc
     w asset amount direction expiry draw (Tick start :: mid ++ Tick now :: rest)).1
  = Returned None
  /\ outbox (execute_digital_option_trade table get_expiration get_remaining_secs
               strftime_utc w asset amount direction expiry draw
               (Tick start :: mid ++ Tick now :: rest)).2
     = outbox w ++ [mkSent "sendMessage" msg rid].
Proof.
  split; [|now apply execute_sends].
  unfold execute_digital_option_trade. rewrite Hp. cbn [confirm_run].
  pose proof (confirm_times_out get_remaining_secs rid expiry confirmation_timeout
                start now rest mid
                (handler (send_message w "sendMessage" msg rid))
                (log (send_message w "sendMessage" msg rid)) Hk Hno Hnow) as [Hr _].
  destruct (confirm_run _ _ _ _ _ _ _ _) as [[r h'] lg']. cbn in Hr. now subst r.
Qed.

Lemma timed_out_execution_returns_None_witness :
  (sample_execute sample_world (PStr "EURUSD") (PInt 1) (PStr "call") (PInt 1) 7
     [Tick 0; Tick 5; Tick 10]).1 = Returned None
  /\ outbox (sample_execute sample_world (PStr "EURUSD") (PInt 1) (PStr "call")
               (PInt 1) 7 [Tick 0; Tick 5; Tick 10]).2
     = [mkSent "sendMessage" (sample_order (PInt 1)) "7"].
Proof.
  exact (timed_out_execution_returns_None sample_assets sample_expiration
           sample_remaining sample_strftime sample_world
           (PStr "EURUSD") (PInt 1) (PStr "call") (PInt 1) 7 0 10 [Tick 5] []
           (sample_order (PInt 1)) "7" eq_refl eq_refl eq_refl eq_refl).
Defined.

(** C4, as the code has it.  There is no registration step: the request id
    is the text of the random draw, the order is sent under it whatever the
    registry and the outbox already hold, and a placement frame writes its
    value under the request id over any value stored there before. *)
Theorem request_id_is_never_registered
    (table : gmap string Z) (get_expiration : pyval -> pyval -> result Z)
    (get_remaining_secs : pyval -> pyval -> result Q)
    (strftime_utc : Z -> result string)
    (w : World) (asset amount direction expiry : pyval) (draw : Z)
    (evs : list event) (msg : OrderBody) (rid : string)
    (Hp : prepare_order table get_expiration strftime_utc w asset amount direction
                        expiry draw = Ok (msg, rid)) :
  rid = str_of_int draw
  /\ outbox (execute_digital_option_trade table get_expiration get_remaining_secs
               strftime_utc w asset amount direction expiry draw evs).2
     = outbox w ++ [mkSent "sendMessage" msg rid]
  /\ (forall w',
         server_time (handler w') = server_time (handler w) ->
         current_account_id w' = current_account_id w ->
         prepare_order table get_expiration strftime_utc w' asset amount direction
                       expiry draw = Ok (msg, rid))
  /\ (forall h payload,
         digital_options (deliver h (placement rid payload)) !! rid
         = Some (placement_value payload)).
Proof.
  split; [now apply prepare_request_id in Hp|].
  split; [now apply execute_sends|].
  split.
  - intros w' Ht Ha. rewrite <- Hp. now apply prepare_ignores_registry.
  - intros h payload. rewrite deliver_placement. cbn. apply lookup_insert_eq.
Qed.

Lemma request_id_is_never_registered_witness :
  outbox sample_in_flight = [mkSent "sendMessage" (sample_order (PInt 1)) "7"]
  /\ outbox (sample_execute sample_in_flight (PStr "EURUSD") (PInt 2) (PStr "call")
               (PInt 1) 7 [Tick 0]).2
     = [mkSent "sendMessage" (sample_order (PInt 1)) "7";
        mkSent "sendMessage" (sample_order (PInt 2)) "7"].
Proof.
  split; [reflexivity|].
  exact (proj1 (proj2 (request_id_is_never_registered sample_assets sample_expiration
           sample_remaining sample_strftime sample_in_flight
           (PStr "EURUSD") (PInt 2) (PStr "call") (PInt 1) 7 [Tick 0]
           (sample_order (PInt 2)) "7" eq_refl))).
Defined.

(** Against C4 as worded: with request id 7 in flight, a second execution
    that draws 7 is sent all the same and raises nothing; one placement frame
    then answers both waiters with the same order id. *)
Lemma duplicate_request_id_is_accepted :
  (sample_execute sample_world (PStr "EURUSD") (PInt 1) (PStr "call") (PInt 1) 7
     [Tick 0]).1 = Pending (Some 0%Q)
  /\ (sample_execute sample_in_flight (PStr "EURUSD") (PInt 2) (PStr "call") (PInt 1) 7
        [Tick 0; Deliver (placement "7" [("id"%string, PInt 55)]); Tick 1]).1
     = Returned (Some (true, PInt 55))
  /\ map sent_request_id
         (outbox (sample_execute sample_in_flight (PStr "EURUSD") (PInt 2) (PStr "call")
                    (PInt 1) 7
                    [Tick 0; Deliver (placement "7" [("id"%string, PInt 55)]); Tick 1]).2)
     = ["7"%string; "7"%string]
  /\ (confirm_run sample_remaining "7" (PInt 1) confirmation_timeout (Some 0%Q)
        (handler (sample_execute sample_in_flight (PStr "EURUSD") (PInt 2) (PStr "call")
                    (PInt 1) 7
                    [Tick 0; Deliver (placement "7" [("id"%string, PInt 55)]); Tick 1]).2)
        [] [Tick 1]).1.1
     = Returned (Some (true, PInt 55)).
Proof. repeat split; vm_compute; reflexivity. Qed.

(** C6, as the code has it.  Inputs that break a rule of the executor (the
    asset is not a non-blank string of the table, the amount is not a number
    or compares below 1, the direction is not a string that lower-cased and
    stripped is put or call, the expiry is not an integer of at least 1, the
    account id is missing) are never sent: the execution returns [None],
    leaves the outbox and the handler as they were and logs one error
    record.  The amount rule is the comparison [amount < 1]: it accepts the
    finite numbers from 1 up, and NaN and plus infinity besides. *)
Theorem rejected_inputs_are_never_sent
    (table : gmap string Z) (get_expiration : pyval -> pyval -> result Z)
    (get_remaining_secs : pyval -> pyval -> result Q)
    (strftime_utc : Z -> result string)
    (w : World) (asset amount direction expiry : pyval) (draw : Z) (evs : list event)
    (Hrej : inputs_accepted table w asset amount direction expiry = false) :
  (execute_digital_option_trade table get_expiration get_remaining_secs strftime_utc
     w asset amount direction expiry draw evs).1 = Returned None
  /\ outbox (execute_digital_option_trade table get_expiration get_remaining_secs
               strftime_utc w asset amount direction expiry draw evs).2 = outbox w
  /\ handler (execute_digital_option_trade table get_expiration get_remaining_secs
                strftime_utc w asset amount direction expiry draw evs).2 = handler w
  /\ (exists ev,
         log (execute_digital_option_trade table get_expiration get_remaining_secs
                strftime_utc w asset amount direction expiry draw evs).2
         = log w ++ [(ERROR, ev)])
  /\ amount_accepted amount
     = amount_finite_at_least_1 amount || nan_or_plus_infinity amount.
Proof.
  destruct (prepare_rejects table get_expiration strftime_utc w asset amount direction
              expiry draw Hrej) as [e He].
  unfold execute_digital_option_trade. rewrite He. cbn.
  repeat split.
  - destruct (failure_record_is_error e) as [ev ->]. now exists ev.
  - destruct amount as [| | |[q|[]|]| | |]; cbn; try reflexivity;
      rewrite orb_false_r; try reflexivity.
    unfold Qltb. now rewrite negb_involutive.
Qed.

Lemma rejected_inputs_are_never_sent_witness :
  (sample_execute sample_world (PStr "EURUSD") (PFloat (FFinite (1 # 2))) (PStr "call")
     (PInt 1) 7 [Tick 0; Tick 11]).1 = Returned None
  /\ outbox (sample_execute sample_world (PStr "EURUSD") (PFloat (FFinite (1 # 2)))
               (PStr "call") (PInt 1) 7 [Tick 0; Tick 11]).2 = [].
Proof.
  pose proof (rejected_inputs_are_never_sent sample_assets sample_expiration
                sample_remaining sample_strftime sample_world
                (PStr "EURUSD") (PFloat (FFinite (1 # 2))) (PStr "call") (PInt 1) 7
                [Tick 0; Tick 11] eq_refl) as (H1 & H2 & _).
  exact (conj H1 H2).
Defined.

(** Against C6 as worded: an amount that is not a finite number (NaN)
    passes the check [amount < 1] and the order is sent. *)
Lemma nan_amount_is_sent :
  amount_finite_at_least_1 (PFloat FNaN) = false
  /\ validate_options_trading_parameters (PInt 12345) (PStr "EURUSD") (PFloat FNaN)
       (PStr "call") (PInt 1) = Ok tt
  /\ outbox (sample_execute sample_world (PStr "EURUSD") (PFloat FNaN) (PStr "call")
               (PInt 1) 7 [Tick 0; Tick 11]).2
     = [mkSent "sendMessage" (sample_order (PFloat FNaN)) "7"].
Proof. repeat split; vm_compute; reflexivity. Qed.

(** ** The report: stated properties *)

Section ReportTheorems.

Variable num : Type.
Variable zero : num.
Variable add : num -> num -> num.

Lemma present_app (rs1 rs2 : list (option (TradeResult num))) :
  present (rs1 ++ rs2) = present rs1 ++ present rs2.
Proof. unfold present. apply flat_map_app. Qed.

(** C7.  The report of a non-empty list of results has one line per
    result that is present, [wins] the number of results WIN, [losses] the
    number of results LOSS, and as total the profits of the WIN and LOSS
    results added in their order to zero; a result that is absent or has
    another tag (TIMEOUT) adds to no tally and to no sum. *)
Theorem report_counts_and_total (results : list (option (TradeResult num))) :
  session_report num zero add results
  = match results with
    | [] => None
    | _ => Some (mkReport (map line_of (present results))
                          (count_result "WIN" results)
                          (count_result "LOSS" results)
                          (sum_profits num zero add (counted_profits results)))
    end
  /\ (forall rs1 rs2 : list (option (TradeResult num)),
         count_result "WIN" (rs1 ++ None :: rs2) = count_result "WIN" (rs1 ++ rs2)
         /\ count_result "LOSS" (rs1 ++ None :: rs2) = count_result "LOSS" (rs1 ++ rs2)
         /\ counted_profits (rs1 ++ None :: rs2) = counted_profits (rs1 ++ rs2))
  /\ (forall rs1 rs2 (r : TradeResult num),
         has_result "WIN" r = false ->
         has_result "LOSS" r = false ->
         count_result "WIN" (rs1 ++ Some r :: rs2) = count_result "WIN" (rs1 ++ rs2)
         /\ count_result "LOSS" (rs1 ++ Some r :: rs2) = count_result "LOSS" (rs1 ++ rs2)
         /\ counted_profits (rs1 ++ Some r :: rs2) = counted_profits (rs1 ++ rs2)).
Proof.
  split.
  - unfold session_report. destruct results as [|r results]; [reflexivity|].
    now rewrite fold_report_step.
  - split.
    + intros rs1 rs2. unfold count_result, counted_profits.
      now rewrite !present_app.
    + intros rs1 rs2 r Hw Hl. unfold count_result, counted_profits.
      rewrite !present_app. cbn [present flat_map app].
      rewrite !List.filter_app. cbn [List.filter]. now rewrite Hw, Hl.
Qed.

End ReportTheorems.

(** The session of the design document: one win of 10 and one loss of 5. *)
Example report_of_one_win_one_loss :
  session_report Z 0 Z.add
    [Some (mkTradeResult "EURAUD" "CALL" "WIN" 10 0);
     None;
     Some (mkTradeResult "GBPUSD" "PUT" "LOSS" (-5) 0);
     Some (mkTradeResult "USDJPY" "PUT" "TIMEOUT" 0 0)]
  = Some (mkReport
            [mkReportLine CheckMark "EURAUD" "CALL" "WIN" 0;
             mkReportLine CrossMark "GBPUSD" "PUT" "LOSS" 0;
             mkReportLine WarningSign "USDJPY" "PUT" "TIMEOUT" 0]
            1 1 5).
Proof. reflexivity. Qed.

(** ** Further properties of the handler and the waits *)

Section MoreWaitFacts.

Variable get_remaining_secs : pyval -> pyval -> result Q.

Local Abbreviation confirm := (confirm_run get_remaining_secs).
Local Abbreviation closure := (outcome_run get_remaining_secs).



Lemma confirm_handler_frames (k : string) (expiry : pyval) (timeout : Q)
    (evs : list event) :
  forall st h lg,
    exists n,
      (confirm k expiry timeout st h lg evs).1.2 = deliver_all h (take n (frames_of evs)).
Proof.
  induction evs as [|[now|m] evs IH]; intros st h lg; cbn [confirm_run].
  - now exists O.
  - cbn [frames_of flat_map app]. fold (frames_of evs).
    destruct st as [start|]; [|apply IH].
    destruct (Qltb (now - start) timeout); [|now exists O].
    destruct (negb (is_none _)); [|apply IH].
    destruct (is_int _); [|now exists O].
    destruct (get_remaining_secs _ _); now exists O.
  - destruct (IH st (deliver h m) lg) as [n Hn]. exists (S n).
    cbn [frames_of flat_map app]. fold (frames_of evs). exact Hn.
Qed.

Lemma closure_handler_frames (order_id : Z) (expiry : pyval) (evs : list event) :
  forall st h lg,
    exists n,
      (closure order_id expiry st h lg evs).1.2 = deliver_all h (take n (frames_of evs)).
Proof.
  induction evs as [|[now|m] evs IH]; intros st h lg; cbn [outcome_run].
  - now exists O.
  - cbn [frames_of flat_map app]. fold (frames_of evs).
    destruct st as [[start timeout]|].
    + destruct (Qltb (now - start) (timeout + 3)); [|now exists O].
      destruct (order_closed _) as [[]|]; [| apply IH | now exists O].
      destruct (closed_pnl _) as [[]|]; now exists O.
    + destruct (get_remaining_secs _ _); [apply IH | now exists O].
  - destruct (IH st (deliver h m) lg) as [n Hn]. exists (S n).
    cbn [frames_of flat_map app]. fold (frames_of evs). exact Hn.
Qed.

Ltac log_same := exists []; rewrite app_nil_r; split; [reflexivity | cbn; lia].
Ltac log_one := eexists; split; [reflexivity | cbn; lia].

Lemma confirm_log_grows (k : string) (expiry : pyval) (timeout : Q) (evs : list event) :
  forall st h lg,
    exists more,
      (confirm k expiry timeout st h lg evs).2 = lg ++ more /\ (length more <= 1)%nat.
Proof.
  induction evs as [|[now|m] evs IH]; intros st h lg; cbn [confirm_run].
  - log_same.
  - destruct st as [start|]; [|apply IH].
    destruct (Qltb (now - start) timeout); [|log_one].
    destruct (negb (is_none _)); [|apply IH].
    destruct (is_int _); [|log_one].
    destruct (get_remaining_secs _ _); [log_one | log_same].
  - apply IH.
Qed.

Lemma closure_log_grows (order_id : Z) (expiry : pyval) (evs : list event) :
  forall st h lg,
    exists more,
      (closure order_id expiry st h lg evs).2 = lg ++ more /\ (length more <= 1)%nat.
Proof.
  induction evs as [|[now|m] evs IH]; intros st h lg; cbn [outcome_run].
  - log_same.
  - destruct st as [[start timeout]|].
    + destruct (Qltb (now - start) (timeout + 3)); [|log_same].
      destruct (order_closed _) as [[]|]; [| apply IH | log_same].
      destruct (closed_pnl _) as [[]|]; [log_one | log_same].
    + destruct (get_remaining_secs _ _); [apply IH | log_same].
  - apply IH.
Qed.


(** X2.  The waits only read the handler: after either wait the handler is
    the one reached by the frames delivered up to its return, and the log
    has at most one record more. *)
Theorem waits_only_read_the_handler
    (k : string) (order_id : Z) (expiry : pyval) (timeout : Q)
    (h : MessageHandler) (lg : list log_record) (evs : list event) :
  (exists n,
      (wait_for_order_confirmation get_remaining_secs k expiry timeout h lg evs).1.2
      = deliver_all h (take n (frames_of evs)))
  /\ (exists more,
         (wait_for_order_confirmation get_remaining_secs k expiry timeout h lg evs).2
         = lg ++ more /\ (length more <= 1)%nat)
  /\ (exists n,
         (get_trade_outcome get_remaining_secs order_id expiry h lg evs).1.2
         = deliver_all h (take n (frames_of evs)))
  /\ (exists more,
         (get_trade_outcome get_remaining_secs order_id expiry h lg evs).2
         = lg ++ more /\ (length more <= 1)%nat).
Proof.
  split; [apply confirm_handler_frames|].
  split; [apply confirm_log_grows|].
  split; [apply closure_handler_frames | apply closure_log_grows].
Qed.

End MoreWaitFacts.


Section MoreWaitTheorems.

Variable get_remaining_secs : pyval -> pyval -> result Q.

Local Abbreviation confirm := (confirm_run get_remaining_secs).
Local Abbreviation closure := (outcome_run get_remaining_secs).

Lemma confirm_result_shape (k : string) (expiry : pyval) (timeout : Q) (evs : list event) :
  forall st h lg r h' lg',
    confirm k expiry timeout st h lg evs = (Returned r, h', lg') ->
    match r with
    | Some (b, v) =>
        digital_options h' !! k = Some v /\ is_none v = false /\ b = is_int v
        /\ exists lg0 ev, lg' = lg0 ++ [(if b then INFO else ERROR, ev)]
    | None => exists lg0, lg' = lg0 ++ [(ERROR, ConfirmationTimedOut timeout)]
    end.
Proof.
  induction evs as [|[now|m] evs IH]; intros st h lg r h' lg'; cbn [confirm_run].
  - discriminate.
  - destruct st as [start|]; [|apply IH].
    destruct (Qltb (now - start) timeout).
    + destruct (is_none (registry_get (digital_options h) k)) eqn:En; cbn [negb];
        [apply IH|].
      pose proof (registry_get_not_none _ _ En) as Hk.
      destruct (is_int (registry_get (digital_options h) k)) eqn:Ei.
      * destruct (get_remaining_secs _ _); [|discriminate].
        intros Hr. inversion Hr; subst. rewrite Ei. repeat split; eauto.
      * intros Hr. inversion Hr; subst. rewrite Ei. repeat split; eauto.
    + intros Hr. inversion Hr; subst. eauto.
  - apply IH.
Qed.

(** X3.  What the placement wait returns is what the registry holds: a
    returned pair [(b, v)] has [v] stored under the request id, [v] is not
    [None], and the flag [b] is [isinstance(v, int)], logged at level INFO
    when true and ERROR when false; a returned [None] comes with the
    timeout record as last log entry.  So an id that is not an [int] (a
    float, a string) is reported as a failure. *)
Theorem confirmation_result_is_the_stored_value
    (k : string) (expiry : pyval) (timeout : Q) (st : option Q)
    (h h' : MessageHandler) (lg lg' : list log_record) (evs : list event)
    (r : option (bool * pyval))
    (Hrun : confirm k expiry timeout st h lg evs = (Returned r, h', lg')) :
  match r with
  | Some (b, v) =>
      digital_options h' !! k = Some v /\ is_none v = false /\ b = is_int v
      /\ exists lg0 ev, lg' = lg0 ++ [(if b then INFO else ERROR, ev)]
  | None => exists lg0, lg' = lg0 ++ [(ERROR, ConfirmationTimedOut timeout)]
  end.
Proof. exact (confirm_result_shape k expiry timeout evs st h lg r h' lg' Hrun). Qed.

(** X4.  A closed record decides the closure wait at the next poll before
    the deadline whatever its [pnl] entry: without a [pnl] key the wait
    returns [(True, 0)] and logs LOSS; with a [pnl] that is not a number
    (null, a string) the comparison [pnl > 0] raises [TypeError] out of the
    wait. *)
Theorem closed_record_pnl_edges
    (order_id : Z) (expiry : pyval) (h : MessageHandler) (lg : list log_record)
    (start remaining now : Q) (rest : list event) (data : list (string * pyval))
    (Hnow : Qltb (now - start) (remaining + 3) = true)
    (Hrec : position_info h !! order_id = Some (PDict data))
    (Hstatus : assoc "status" data = Some (PStr "closed")) :
  (assoc "pnl" data = None ->
   closure order_id expiry (Some (start, remaining)) h lg (Tick now :: rest)
   = (Returned (true, PInt 0), h, lg ++ [(INFO, TradeClosed order_id "LOSS" (PInt 0))]))
  /\ (forall v,
         assoc "pnl" data = Some v ->
         is_number v = false ->
         closure order_id expiry (Some (start, remaining)) h lg (Tick now :: rest)
         = (Raised TypeError, h, lg)).
Proof.
  assert (order_closed (order_data_of h order_id) = Ok true) as Hclosed.
  { unfold order_data_of, order_closed. rewrite Hrec.
    assert (truthy (PDict data) = true) as ->
        by (destruct data; [discriminate|reflexivity]).
    cbn [dict_get]. now rewrite Hstatus. }
  split.
  - intros Hpnl. cbn [outcome_run]. rewrite Hnow, Hclosed.
    unfold closed_pnl, order_data_of. rewrite Hrec. cbn [dict_get].
    now rewrite Hpnl.
  - intros v Hpnl Hv. cbn [outcome_run]. rewrite Hnow, Hclosed.
    unfold closed_pnl, order_data_of. rewrite Hrec. cbn [dict_get].
    rewrite Hpnl. now destruct v.
Qed.

(** X5.  A closure frame answers the closure wait on its order id: a
    [position-changed] frame is filed under [int(raw_event.order_ids[0])]
    and an [option-closed] frame under [int(id)] (so an id sent as a decimal
    string meets the integer order id), other order ids keep their records,
    and when the payload has status [closed] and a [pnl] that is a number
    the log can print, a waiter in its loop returns [(True, pnl)] at its
    next poll before the deadline, logged as WIN when [pnl > 0] and as LOSS
    otherwise. *)
Theorem closure_push_resolves_outcome
    (order_id : Z) (expiry : pyval) (h : MessageHandler) (lg : list log_record)
    (start remaining now : Q) (rest : list event)
    (payload : list (string * pyval)) (pnl : pyval) (frame : Message)
    (Hframe : (frame = position_changed payload /\ changed_order_id payload = Ok order_id)
              \/ (frame = option_closed payload
                  /\ (raw <-! subscript (PDict payload) "id"; py_int_of raw) = Ok order_id))
    (Hnow : Qltb (now - start) (remaining + 3) = true)
    (Hstatus : assoc "status" payload = Some (PStr "closed"))
    (Hpnl : assoc "pnl" payload = Some pnl)
    (Hprint : reportable pnl = true) :
  deliver h frame = set_position h order_id (PDict payload)
  /\ (forall other, other <> order_id ->
                    position_info (deliver h frame) !! other = position_info h !! other)
  /\ closure order_id expiry (Some (start, remaining)) h lg
       (Deliver frame :: Tick now :: rest)
     = (Returned (true, pnl), set_position h order_id (PDict payload),
        lg ++ [(INFO, TradeClosed order_id (if is_win pnl then "WIN" else "LOSS") pnl)]).
Proof.
  assert (deliver h frame = set_position h order_id (PDict payload)) as Hd.
  { destruct Hframe as [[-> Hid] | [-> Hid]].
    - unfold deliver, handle_message, handle_position_changed, position_changed.
      cbn [m_name m_msg String.eqb Ascii.eqb Bool.eqb].
      unfold changed_order_id in Hid.
      destruct (subscript (PDict payload) "raw_event") as [x|]; [|discriminate].
      cbn [rbind] in *.
      destruct (subscript x "order_ids") as [y|]; [|discriminate].
      cbn [rbind] in *.
      destruct (first_item y) as [z|]; [|discriminate].
      cbn [rbind] in *. now rewrite Hid.
    - unfold deliver, handle_message, handle_binary_option_closed, option_closed.
      cbn [m_name m_msg String.eqb Ascii.eqb Bool.eqb].
      destruct (subscript (PDict payload) "id") as [x|]; [|discriminate].
      cbn [rbind] in *. now rewrite Hid. }
  split; [exact Hd|]. split.
  { intros other Hne. rewrite Hd. cbn. now rewrite lookup_insert_ne. }
  cbn [outcome_run]. rewrite Hd, Hnow.
  assert (position_info (set_position h order_id (PDict payload)) !! order_id
          = Some (PDict payload)) as Hrec
      by (cbn [set_position position_info]; apply lookup_insert_eq).
  rewrite (record_closed_seen _ order_id)
    by (rewrite Hrec; cbn [record_closed]; now rewrite Hstatus).
  unfold closed_pnl, order_data_of. rewrite Hrec. cbn [dict_get rbind].
  rewrite Hpnl, (reported_pnl pnl), Hprint. reflexivity.
Qed.

End MoreWaitTheorems.

Lemma confirmation_result_is_the_stored_value_witness :
  digital_options
    (deliver new_handler (placement "7" [("id"%string, PFloat (FFinite 12))]))
    !! "7"%string = Some (PFloat (FFinite 12))
  /\ is_none (PFloat (FFinite 12)) = false
  /\ false = is_int (PFloat (FFinite 12))
  /\ exists lg0 ev,
      [(ERROR, OrderExecutionFailed (PFloat (FFinite 12)))] = lg0 ++ [(ERROR, ev)].
Proof.
  exact (confirmation_result_is_the_stored_value sample_remaining "7" (PInt 1) 10 None
           new_handler
           (deliver new_handler (placement "7" [("id"%string, PFloat (FFinite 12))]))
           [] [(ERROR, OrderExecutionFailed (PFloat (FFinite 12)))]
           [Tick 0; Deliver (placement "7" [("id"%string, PFloat (FFinite 12))]); Tick 1]
           (Some (false, PFloat (FFinite 12))) eq_refl).
Defined.

Lemma closed_record_pnl_edges_witness :
  outcome_run sample_remaining 55 (PInt 1) (Some (0%Q, 60%Q))
    (set_position new_handler 55 (PDict [("status"%string, PStr "closed")])) []
    [Tick 1]
  = (Returned (true, PInt 0),
     set_position new_handler 55 (PDict [("status"%string, PStr "closed")]),
     [(INFO, TradeClosed 55 "LOSS" (PInt 0))])
  /\ outcome_run sample_remaining 55 (PInt 1) (Some (0%Q, 60%Q))
       (set_position new_handler 55
          (PDict [("status"%string, PStr "closed"); ("pnl"%string, PNone)])) []
       [Tick 1]
     = (Raised TypeError,
        set_position new_handler 55
          (PDict [("status"%string, PStr "closed"); ("pnl"%string, PNone)]),
        []).
Proof.
  split.
  - exact (proj1 (closed_record_pnl_edges sample_remaining 55 (PInt 1)
                    (set_position new_handler 55
                       (PDict [("status"%string, PStr "closed")]))
                    [] 0 60 1 [] [("status"%string, PStr "closed")]
                    eq_refl eq_refl eq_refl) eq_refl).
  - exact (proj2 (closed_record_pnl_edges sample_remaining 55 (PInt 1)
                    (set_position new_handler 55
                       (PDict [("status"%string, PStr "closed");
                               ("pnl"%string, PNone)]))
                    [] 0 60 1 []
                    [("status"%string, PStr "closed"); ("pnl"%string, PNone)]
                    eq_refl eq_refl eq_refl) PNone eq_refl eq_refl).
Defined.

Lemma closure_push_resolves_outcome_witness :
  deliver new_handler (position_changed sample_closure_payload)
  = set_position new_handler 55 (PDict sample_closure_payload)
  /\ outcome_run sample_remaining 55 (PInt 1) (Some (0%Q, 60%Q)) new_handler []
       [Deliver (position_changed sample_closure_payload); Tick 30]
     = (Returned (true, PInt (-5)),
        set_position new_handler 55 (PDict sample_closure_payload),
        [(INFO, TradeClosed 55 "LOSS" (PInt (-5)))]).
Proof.
  pose proof (closure_push_resolves_outcome sample_remaining 55 (PInt 1) new_handler []
                0 60 30 [] sample_closure_payload (PInt (-5))
                (position_changed sample_closure_payload)
                (or_introl (conj eq_refl eq_refl)) eq_refl eq_refl eq_refl eq_refl)
    as (H1 & _ & H3).
  exact (conj H1 H3).
Defined.

Section MoreHandlerFacts.

(** A frame that is handled writes one attribute, by its name. *)
Lemma handle_message_writes (h h' : MessageHandler) (m : Message) :
  handle_message h m = Ok h' ->
  h' = h
  \/ (String.eqb (m_name m) "timeSync" = true /\ h' = set_server_time h (m_msg m))
  \/ (String.eqb (m_name m) "digital-option-placed" = true
      /\ exists v, h' = set_digital h (m_request_id m) v)
  \/ (String.eqb (m_name m) "option-opened" = true
      /\ exists v, h' = set_binary h (m_request_id m) v)
  \/ (is_closure_frame m = true /\ exists k v, h' = set_position h k v).
Proof.
  unfold handle_message, is_closure_frame.
  destruct (String.eqb (m_name m) "timeSync") eqn:E1.
  { intros [= <-]. right. left. now split. }
  destruct (String.eqb (m_name m) "digital-option-placed") eqn:E2.
  { intros H. right. right. left. split; [reflexivity|].
    unfold handle_digital_option_placed in H.
    destruct (dict_get (m_msg m) "id" PNone) as [id|]; [|discriminate].
    cbn [rbind] in H. destruct (negb (is_none id)).
    - injection H as <-. eauto.
    - destruct (dict_get (m_msg m) "message" PNone); [|discriminate].
      injection H as <-. eauto. }
  destruct (String.eqb (m_name m) "position-changed") eqn:E3.
  { intros H. do 4 right. split; [reflexivity|].
    unfold handle_position_changed in H.
    destruct (subscript (m_msg m) "raw_event") as [x|]; [|discriminate].
    cbn [rbind] in H. destruct (subscript x "order_ids") as [y|]; [|discriminate].
    cbn [rbind] in H. destruct (first_item y) as [z|]; [|discriminate].
    cbn [rbind] in H. destruct (py_int_of z); [|discriminate].
    injection H as <-. eauto. }
  destruct (String.eqb (m_name m) "option-opened") eqn:E4.
  { intros H. do 3 right. left. split; [reflexivity|].
    unfold handle_binary_option_opened in H.
    destruct (dict_get (m_msg m) "id" PNone) as [id|]; [|discriminate].
    cbn [rbind] in H. destruct (truthy id).
    - injection H as <-. eauto.
    - destruct (dict_get (m_msg m) "message" PNone); [|discriminate].
      injection H as <-. eauto. }
  destruct (String.eqb (m_name m) "option-closed") eqn:E5.
  { intros H. do 4 right. split; [reflexivity|].
    unfold handle_binary_option_closed in H.
    destruct (subscript (m_msg m) "id") as [x|]; [|discriminate].
    cbn [rbind] in H. destruct (py_int_of x); [|discriminate].
    injection H as <-. eauto. }
  intros [= <-]. now left.
Qed.

Lemma deliver_writes (h : MessageHandler) (m : Message) :
  deliver h m = h
  \/ (String.eqb (m_name m) "timeSync" = true
      /\ deliver h m = set_server_time h (m_msg m))
  \/ (String.eqb (m_name m) "digital-option-placed" = true
      /\ exists v, deliver h m = set_digital h (m_request_id m) v)
  \/ (String.eqb (m_name m) "option-opened" = true
      /\ exists v, deliver h m = set_binary h (m_request_id m) v)
  \/ (is_closure_frame m = true /\ exists k v, deliver h m = set_position h k v).
Proof.
  unfold deliver. destruct (handle_message h m) as [h'|] eqn:E; [|now left].
  now apply handle_message_writes.
Qed.

End MoreHandlerFacts.

(** X6.  A frame writes at most the one entry it is addressed to: a frame
    that is not a placement frame for [k] leaves the digital entry of [k] as
    it was, and likewise for the binary registry; only closure frames change
    [position_info] and only [timeSync] changes the server time.  Orders
    sent under different draws have different request ids, so the placement
    frame of one never touches the entry of the other. *)
Theorem frames_touch_one_entry (h : MessageHandler) (m : Message) :
  (forall k, is_placement_for k m = false ->
             digital_options (deliver h m) !! k = digital_options h !! k)
  /\ (forall k, is_opening_for k m = false ->
                binary_options (deliver h m) !! k = binary_options h !! k)
  /\ (is_closure_frame m = false -> position_info (deliver h m) = position_info h)
  /\ (String.eqb (m_name m) "timeSync" = false ->
      server_time (deliver h m) = server_time h)
  /\ (forall d1 d2 payload,
         d1 <> d2 ->
         digital_options (deliver h (placement (str_of_int d1) payload)) !! str_of_int d2
         = digital_options h !! str_of_int d2).
Proof.
  split; [intros k; apply deliver_other|].
  split.
  { intros k Hk. unfold is_opening_for in Hk.
    destruct (deliver_writes h m)
      as [-> | [[_ ->] | [[_ [v ->]] | [[Hn [v ->]] | [_ (k' & v & ->)]]]]];
      try reflexivity.
    rewrite Hn in Hk. cbn in Hk. apply String.eqb_neq in Hk.
    cbn. now rewrite lookup_insert_ne. }
  split.
  { intros Hc.
    destruct (deliver_writes h m)
      as [-> | [[_ ->] | [[_ [v ->]] | [[_ [v ->]] | [Hn (k' & v & ->)]]]]];
      try reflexivity.
    congruence. }
  split.
  { intros Ht.
    destruct (deliver_writes h m)
      as [-> | [[Hn ->] | [[_ [v ->]] | [[_ [v ->]] | [_ (k' & v & ->)]]]]];
      try reflexivity.
    congruence. }
  intros d1 d2 payload Hne. apply deliver_other.
  unfold is_placement_for, placement. cbn [m_name m_request_id].
  rewrite String.eqb_refl. cbn [andb]. apply String.eqb_neq.
  unfold str_of_int. intros Heq. apply Hne. now apply (inj pretty).
Qed.

(** ** Further properties of the executor *)

Section MoreExecuteFacts.

Lemma amount_test (v : pyval) :
  (if negb (is_number v) then Ok true else py_lt v 1) = Ok (negb (amount_accepted v)).
Proof.
  destruct v; cbn; try reflexivity.
  - now destruct b.
  - f_equal. rewrite Z.leb_antisym. f_equal. lia.
  - now rewrite negb_involutive.
Qed.

Lemma expiry_test (v : pyval) :
  (if negb (is_int v) then Ok true else py_lt v 1) = Ok (negb (expiry_positive_int v)).
Proof.
  destruct v; cbn; try reflexivity.
  - now destruct b.
  - f_equal. rewrite Z.leb_antisym. f_equal. lia.
Qed.

Lemma validate_by_rules (account_id asset amount direction expiry : pyval) :
  validate_options_trading_parameters account_id asset amount direction expiry
  = if negb (asset_nonblank asset)
    then Raise (InvalidTradeParametersError "Asset name cannot be empty")
    else if negb (amount_accepted amount)
    then Raise (InvalidTradeParametersError "Minimum Bet Amount is $1")
    else if negb (is_str direction) then Raise AttributeError
    else if negb (direction_normalizes direction)
    then Raise (InvalidTradeParametersError "Direction must be 'put' or 'call'")
    else if negb (expiry_positive_int expiry)
    then Raise (InvalidTradeParametersError "Expiry must be positive integer")
    else if negb (truthy account_id)
    then Raise (TradeExecutionError "No active account available")
    else Ok tt.
Proof.
  unfold validate_options_trading_parameters, asset_nonblank, direction_normalizes.
  rewrite amount_test, expiry_test.
  destruct asset as [| | | |a| |]; cbn [is_str negb orb]; try reflexivity.
  destruct (truthy (PStr (py_strip a))); cbn [negb]; [|reflexivity].
  cbn [rbind]. destruct (amount_accepted amount); cbn [negb]; [|reflexivity].
  destruct direction as [| | | |d| |]; cbn [is_str negb]; reflexivity.
Qed.

End MoreExecuteFacts.

(** X7.  Validation passes exactly when the asset is a non-blank string,
    the amount is accepted, the direction normalizes to put or call, the
    expiry is an integer of at least 1 and the account id is set; otherwise
    the error raised is that of the first rule broken, in the order asset,
    amount, direction, expiry, account.  The table of assets is not looked
    at, and the booleans count as integers ([True] is an amount and an
    expiry of 1). *)
Theorem validation_by_rules (account_id asset amount direction expiry : pyval) :
  (validate_options_trading_parameters account_id asset amount direction expiry = Ok tt
   <-> asset_nonblank asset && amount_accepted amount && direction_normalizes direction
       && expiry_positive_int expiry && truthy account_id = true)
  /\ (asset_nonblank asset = false ->
      validate_options_trading_parameters account_id asset amount direction expiry
      = Raise (InvalidTradeParametersError "Asset name cannot be empty"))
  /\ (asset_nonblank asset = true -> amount_accepted amount = false ->
      validate_options_trading_parameters account_id asset amount direction expiry
      = Raise (InvalidTradeParametersError "Minimum Bet Amount is $1"))
  /\ (asset_nonblank asset = true -> amount_accepted amount = true ->
      is_str direction = true -> direction_normalizes direction = false ->
      validate_options_trading_parameters account_id asset amount direction expiry
      = Raise (InvalidTradeParametersError "Direction must be 'put' or 'call'"))
  /\ (asset_nonblank asset = true -> amount_accepted amount = true ->
      direction_normalizes direction = true -> expiry_positive_int expiry = false ->
      validate_options_trading_parameters account_id asset amount direction expiry
      = Raise (InvalidTradeParametersError "Expiry must be positive integer"))
  /\ (asset_nonblank asset = true -> amount_accepted amount = true ->
      direction_normalizes direction = true -> expiry_positive_int expiry = true ->
      truthy account_id = false ->
      validate_options_trading_parameters account_id asset amount direction expiry
      = Raise (TradeExecutionError "No active account available"))
  /\ amount_accepted (PBool true) = true
  /\ expiry_positive_int (PBool true) = true.
Proof.
  rewrite validate_by_rules.
  assert (direction_normalizes direction = true -> is_str direction = true) as Hstr
      by (destruct direction; cbn; congruence).
  split.
  { destruct (asset_nonblank asset), (amount_accepted amount); cbn; try easy.
    destruct (direction_normalizes direction) eqn:Hd.
    - rewrite (Hstr eq_refl). cbn.
      destruct (expiry_positive_int expiry), (truthy account_id); cbn; easy.
    - destruct (is_str direction); cbn; easy. }
  split; [now intros ->|].
  split; [now intros -> ->|].
  split; [now intros -> -> -> ->|].
  split; [intros -> -> Hd ->; now rewrite (Hstr Hd), Hd|].
  split; [intros -> -> Hd -> ->; now rewrite (Hstr Hd), Hd|].
  split; reflexivity.
Qed.

(** X8.  The direction is validated stripped but looked up unstripped: a
    direction that normalizes to put or call only after stripping blanks
    (such as [" CALL"]) passes validation, then fails the lookup of its
    code with [KeyError]; the execution logs the failure, returns [None]
    and sends nothing. *)
Theorem blank_padded_direction_is_not_sent
    (table : gmap string Z) (get_expiration : pyval -> pyval -> result Z)
    (get_remaining_secs : pyval -> pyval -> result Q)
    (strftime_utc : Z -> result string)
    (w : World) (asset amount expiry : pyval) (d : string) (draw : Z)
    (evs : list event)
    (Hvalid : validate_options_trading_parameters (current_account_id w) asset amount
                (PStr (py_lower d)) expiry = Ok tt)
    (Hput : String.eqb (py_lower d) "put" = false)
    (Hcall : String.eqb (py_lower d) "call" = false) :
  direction_normalizes (PStr d) = true
  /\ execute_digital_option_trade table get_expiration get_remaining_secs strftime_utc
       w asset amount (PStr d) expiry draw evs
     = (Returned None, with_log w (ERROR, TradeExecutionFailed KeyError)).
Proof.
  split.
  - apply validate_ok in Hvalid as (_ & _ & Hd & _).
    unfold direction_normalizes in *. now rewrite py_lower_idem in Hd.
  - unfold execute_digital_option_trade, prepare_order.
    now rewrite Hvalid, Hput, Hcall.
Qed.

Lemma blank_padded_direction_is_not_sent_witness :
  direction_normalizes (PStr " CALL") = true
  /\ sample_execute sample_world (PStr "EURUSD") (PInt 1) (PStr " CALL") (PInt 1) 7
       [Tick 0; Tick 1]
     = (Returned None, with_log sample_world (ERROR, TradeExecutionFailed KeyError)).
Proof.
  exact (blank_padded_direction_is_not_sent sample_assets sample_expiration
           sample_remaining sample_strftime sample_world
           (PStr "EURUSD") (PInt 1) (PInt 1) " CALL" 7 [Tick 0; Tick 1]
           eq_refl eq_refl eq_refl).
Defined.



Lemma confirm_raised_log (get_remaining_secs : pyval -> pyval -> result Q)
    (k : string) (expiry : pyval) (timeout : Q) (evs : list event) :
  forall st h lg e h' lg',
    confirm_run get_remaining_secs k expiry timeout st h lg evs = (Raised e, h', lg') ->
    lg' = lg.
Proof.
  induction evs as [|[now|m] evs IH]; intros st h lg e h' lg'; cbn [confirm_run].
  - discriminate.
  - destruct st as [start|]; [|apply IH].
    destruct (Qltb (now - start) timeout); [|discriminate].
    destruct (negb (is_none _)); [|apply IH].
    destruct (is_int _); [|discriminate].
    destruct (get_remaining_secs _ _); [discriminate|].
    now intros [= _ _ <-].
  - apply IH.
Qed.

(** X10.  The executor writes nothing of its own to the handler or the
    account: after any execution the handler is the one reached by the
    frames delivered meanwhile, the account id is unchanged, the outbox
    holds at most one frame more (named [sendMessage], under the text of the
    draw), and the log at most one record more. *)
Theorem executor_sends_at_most_once
    (table : gmap string Z) (get_expiration : pyval -> pyval -> result Z)
    (get_remaining_secs : pyval -> pyval -> result Q)
    (strftime_utc : Z -> result string)
    (w : World) (asset amount direction expiry : pyval) (draw : Z) (evs : list event) :
  let w' := (execute_digital_option_trade table get_expiration get_remaining_secs
               strftime_utc w asset amount direction expiry draw evs).2 in
  (exists n, handler w' = deliver_all (handler w) (take n (frames_of evs)))
  /\ current_account_id w' = current_account_id w
  /\ (outbox w' = outbox w
      \/ exists msg, outbox w' = outbox w ++ [mkSent "sendMessage" msg (str_of_int draw)])
  /\ (exists more, log w' = log w ++ more /\ (length more <= 1)%nat).
Proof.
  cbn zeta. unfold execute_digital_option_trade.
  destruct (prepare_order table get_expiration strftime_utc w asset amount direction
              expiry draw) as [[msg rid]|e] eqn:Hp.
  - pose proof (prepare_request_id _ _ _ _ _ _ _ _ _ _ _ Hp) as ->.
    cbn [send_message handler log].
    pose proof (confirm_handler_frames get_remaining_secs (str_of_int draw) expiry
                  confirmation_timeout evs None (handler w) (log w)) as [n Hn].
    pose proof (confirm_log_grows get_remaining_secs (str_of_int draw) expiry
                  confirmation_timeout evs None (handler w) (log w))
      as (more & Hmore & Hlen).
    destruct (confirm_run _ _ _ _ _ _ _ _) as [[[r|e|s] h'] lg'] eqn:Hrun;
      cbn in Hn, Hmore; subst h' lg'; cbn.
    + repeat split; eauto.
    + apply confirm_raised_log in Hrun.
      assert (more = []) as ->
          by (apply (app_inv_head (log w)); now rewrite app_nil_r).
      rewrite app_nil_r.
      split; [eauto|]. split; [reflexivity|]. split; [eauto|].
      exists [failure_record e]. split; [reflexivity|cbn; lia].
    + repeat split; eauto.
  - cbn. split; [now exists O|]. split; [reflexivity|]. split; [now left|].
    exists [failure_record e]. split; [reflexivity|cbn; lia].
Qed.

(** ** Further properties of the parser *)

Section MoreParserFacts.

Lemma forallb_rev {A : Type} (p : A -> bool) (l : list A) :
  forallb p (rev l) = forallb p l.
Proof.
  induction l as [|x l IH]; [reflexivity|].
  cbn [rev]. rewrite forallb_app, IH. cbn. rewrite andb_true_r. apply andb_comm.
Qed.

Lemma digit_val_bounds (c : ascii) : is_digit c = true -> 0 <= digit_val c <= 9.
Proof.
  unfold is_digit, in_range, digit_val. intros [H1 H2]%andb_prop.
  apply N.leb_le in H1, H2. lia.
Qed.

Lemma fold_digits_nonneg (s : str) :
  forallb is_digit s = true ->
  forall acc, 0 <= acc -> 0 <= fold_left (fun a c => 10 * a + digit_val c) s acc.
Proof.
  induction s as [|c s IH]; cbn; [intros; assumption|].
  intros [Hc Hs]%andb_prop acc Hacc. apply IH; [exact Hs|].
  pose proof (digit_val_bounds c Hc). lia.
Qed.

Lemma int_of_digits_nonneg (s : str) : forallb is_digit s = true -> 0 <= int_of_digits s.
Proof. intros Hs. unfold int_of_digits. now apply fold_digits_nonneg. Qed.

Lemma digits_of_all_digits (s : str) : forallb is_digit (digits_of s) = true.
Proof.
  induction s as [|c s IH]; [reflexivity|].
  rewrite digits_of_cons. destruct (is_digit c) eqn:E; [|exact IH].
  cbn. now rewrite E.
Qed.

Lemma digits_of_digits (s : str) : forallb is_digit s = true -> digits_of s = s.
Proof.
  induction s as [|c s IH]; [reflexivity|].
  rewrite digits_of_cons. cbn [forallb]. intros [Hc Hs]%andb_prop.
  rewrite Hc. f_equal. now apply IH.
Qed.

Lemma to_upper_not_lower (c : ascii) : is_lower (to_upper c) = false.
Proof. destruct c as [[] [] [] [] [] [] [] []]; reflexivity. Qed.

Lemma to_upper_fixed (c : ascii) : is_lower c = false -> to_upper c = c.
Proof. unfold to_upper. now intros ->. Qed.

Lemma upper_not_lower (s : str) : existsb is_lower (upper s) = false.
Proof.
  unfold upper. induction s as [|c s IH]; [reflexivity|].
  cbn [map existsb]. now rewrite to_upper_not_lower, IH.
Qed.

Lemma replace_char_removes (x : ascii) (s : str) :
  count_char x (replace_char x [] s) = O.
Proof.
  unfold replace_char. induction s as [|c s IH]; [reflexivity|].
  cbn [flat_map]. rewrite count_char_app, IH.
  destruct (chr_eqb c x) eqn:E; cbn; [reflexivity|]. now rewrite E.
Qed.

Lemma replace_char_keeps (p : ascii -> bool) (x : ascii) (s : str) :
  existsb p s = false -> existsb p (replace_char x [] s) = false.
Proof.
  unfold replace_char. induction s as [|c s IH]; [reflexivity|].
  cbn [flat_map existsb]. intros [Hc Hs]%orb_false_elim.
  rewrite existsb_app, (IH Hs), orb_false_r.
  destruct (chr_eqb c x); cbn; [reflexivity|]. now rewrite Hc.
Qed.

Lemma direction_ok_iff (d : str) :
  direction_ok d = true <-> d = lit "CALL" \/ d = lit "PUT".
Proof.
  unfold direction_ok. now rewrite orb_true_iff, !str_eqb_eq.
Qed.

Lemma fold_parse_lines (lines : list str) (acc : list Signal) :
  fold_left (fun signals line =>
               match parse_signal line with
               | Some sig => signals ++ [sig]
               | None => signals
               end) lines acc
  = acc ++ signals_of lines.
Proof.
  revert acc. induction lines as [|l lines IH]; intros acc; cbn.
  - now rewrite app_nil_r.
  - rewrite IH. destruct (parse_signal l); cbn; [|reflexivity].
    now rewrite <- app_assoc.
Qed.

End MoreParserFacts.

(** X12.  [parse_signals_from_file] returns the signals of the lines that
    parse, in the order of the file, so the result for two files read one
    after the other is the two results joined; lines that do not parse are
    passed over without effect on the others. *)
Theorem file_signals_in_order (lines1 lines2 : list str) :
  parse_signals_from_file (Ok lines1) = signals_of lines1
  /\ parse_signals_from_file (Ok (lines1 ++ lines2))
     = parse_signals_from_file (Ok lines1) ++ parse_signals_from_file (Ok lines2)
  /\ (forall line, parse_signal line = None ->
                   parse_signals_from_file (Ok (lines1 ++ line :: lines2))
                   = parse_signals_from_file (Ok (lines1 ++ lines2)))
  /\ (forall line sig, parse_signal line = Some sig ->
                       parse_signals_from_file (Ok (lines1 ++ line :: lines2))
                       = parse_signals_from_file (Ok lines1) ++ sig
                         :: parse_signals_from_file (Ok lines2)).
Proof.
  unfold parse_signals_from_file. rewrite !fold_parse_lines. cbn [app].
  unfold signals_of. rewrite flat_map_app.
  split; [reflexivity|]. split; [reflexivity|]. split.
  - intros line Hl. rewrite fold_parse_lines. cbn [app].
    unfold signals_of. rewrite !flat_map_app. cbn [flat_map]. now rewrite Hl.
  - intros line sig Hl. rewrite fold_parse_lines. cbn [app].
    unfold signals_of. rewrite !flat_map_app. cbn [flat_map]. now rewrite Hl.
Qed.

Section MoreScanFacts.

Lemma forallb_drop {A : Type} (p : A -> bool) (n : nat) (l : list A) :
  forallb p l = true -> forallb p (drop n l) = true.
Proof.
  revert n. induction l as [|x l IH]; intros [|n]; cbn; try easy.
  intros [_ Hl]%andb_prop. now apply IH.
Qed.

(** The pieces of a scan are made of characters of the subject. *)
Lemma re_scan_pieces_all (p : ascii -> bool) (m : matcher) :
  matcher_ok m ->
  forall s k, forallb p s = true -> pieces_all p (re_scan m k s) = true.
Proof.
  intros Hok. induction s as [|c tl IH]; intros k Hs; [reflexivity|].
  cbn [forallb] in Hs. apply andb_prop in Hs as [Hc Htl].
  destruct k as [|k]; cbn [re_scan]; [|now apply IH].
  destruct (m (c :: tl)) as [hit|] eqn:Hm; cbn [pieces_all forallb].
  - destruct (Hok _ _ Hm) as [_ [rest Hrest]].
    assert (forallb p hit = true) as ->.
    { assert (forallb p (hit ++ rest) = true) as Hall
          by (rewrite <- Hrest; cbn; now rewrite Hc, Htl).
      rewrite forallb_app in Hall. now apply andb_prop in Hall as [-> _]. }
    now apply IH.
  - rewrite Hc. now apply IH.
Qed.

Lemma re_sub_forall (p : ascii -> bool) (m : matcher) (repl : str -> str) (s : str) :
  matcher_ok m ->
  (forall h, forallb p h = true -> forallb p (repl h) = true) ->
  forallb p s = true ->
  forallb p (re_sub m repl s) = true.
Proof.
  intros Hok Hrepl Hs. unfold re_sub.
  pose proof (re_scan_pieces_all p m Hok s O Hs) as Hps.
  induction (re_scan m O s) as [|[c|h] ps IH]; [reflexivity| |];
    cbn [pieces_all forallb] in Hps; apply andb_prop in Hps as [Hx Hps];
    cbn [flat_map]; rewrite forallb_app, (IH Hps), andb_true_r.
  - cbn. now rewrite Hx.
  - now apply Hrepl.
Qed.

Lemma re_findall_forall (p : ascii -> bool) (m : matcher) (s : str) :
  matcher_ok m ->
  forallb p s = true ->
  forallb (forallb p) (re_findall m s) = true.
Proof.
  intros Hok Hs. unfold re_findall.
  pose proof (re_scan_pieces_all p m Hok s O Hs) as Hps.
  induction (re_scan m O s) as [|[c|h] ps IH]; [reflexivity| |];
    cbn [pieces_all forallb] in Hps; apply andb_prop in Hps as [Hx Hps];
    cbn [flat_map app forallb]; [|rewrite Hx]; now apply IH.
Qed.

Lemma join_forall (p : ascii -> bool) (sep : str) (parts : list str) :
  forallb p sep = true ->
  forallb (forallb p) parts = true ->
  forallb p (join sep parts) = true.
Proof.
  intros Hsep. induction parts as [|x parts IH]; [reflexivity|].
  cbn [forallb]. intros [Hx Hparts]%andb_prop.
  cbn [join]. destruct parts as [|y parts]; [exact Hx|].
  rewrite !forallb_app, Hx, Hsep. now apply IH.
Qed.

(** [re.sub(r"\s+", ...)] by the empty string keeps the other characters. *)
Lemma remove_spaces_scan (s : str) :
  forall k,
    forallb is_space (take k s) = true ->
    flat_map (fun x => match x with Lit c => [c] | Hit _ => [] end)
             (re_scan m_spaces k s)
    = List.filter (fun c => negb (is_space c)) s.
Proof.
  induction s as [|c tl IH]; intros k Hk; [now destruct k|].
  destruct k as [|k]; cbn [re_scan].
  - unfold m_spaces, m_plus. cbn [span_of List.filter].
    destruct (is_space c) eqn:Hc; cbn [negb flat_map app].
    + apply IH. cbn [length Nat.pred].
      destruct (span_of_prefix is_space tl) as [rest Hrest].
      rewrite Hrest at 2. rewrite take_app_length. apply span_of_all.
    + cbn. f_equal. now apply IH.
  - cbn [take forallb] in Hk. apply andb_prop in Hk as [Hc Hk].
    cbn [List.filter]. rewrite Hc. cbn [negb]. now apply IH.
Qed.

Lemma remove_spaces_filter (s : str) :
  re_sub m_spaces (fun _ => []) s = List.filter (fun c => negb (is_space c)) s.
Proof. unfold re_sub. now apply (remove_spaces_scan s O). Qed.

Lemma filter_no_space (s : str) :
  forallb (fun c => negb (is_space c)) (List.filter (fun c => negb (is_space c)) s) = true.
Proof.
  induction s as [|c s IH]; [reflexivity|].
  cbn. destruct (is_space c) eqn:E; cbn; [exact IH|]. now rewrite E.
Qed.

Lemma filter_forall (p q : ascii -> bool) (s : str) :
  forallb p s = true -> forallb p (List.filter q s) = true.
Proof.
  induction s as [|c s IH]; [reflexivity|].
  cbn. intros [Hc Hs]%andb_prop. destruct (q c); cbn; [rewrite Hc|]; now apply IH.
Qed.

Lemma is_prefix_app (w s : str) : is_prefix w s = true -> exists rest, s = w ++ rest.
Proof.
  revert s. induction w as [|x w IH]; intros s; [now exists s|].
  destruct s as [|y s]; cbn; [discriminate|].
  intros [->%chr_eqb_eq Hw]%andb_prop. destruct (IH s Hw) as [rest ->]. now exists rest.
Qed.

Lemma m_word_ok (w : str) : w <> [] -> matcher_ok (m_word w).
Proof.
  intros Hw s hit. unfold m_word. destruct (is_prefix w s) eqn:E; [|discriminate].
  intros [= <-]. split; [exact Hw|]. now apply is_prefix_app.
Qed.

Lemma m_pair_ok : matcher_ok m_pair.
Proof.
  intros s hit. unfold m_pair.
  destruct s as [|a [|b [|c [|d [|e [|f tl]]]]]]; try discriminate.
  destruct (forallb is_upper _); [|discriminate].
  intros [= <-]. split; [discriminate|]. now exists tl.
Qed.

Lemma m_alt_ok (a b : matcher) : matcher_ok a -> matcher_ok b -> matcher_ok (m_alt a b).
Proof.
  intros Ha Hb s hit. unfold m_alt. destruct (a s) as [h|] eqn:E.
  - intros [= <-]. now apply Ha.
  - apply Hb.
Qed.

Lemma m_field_ok : matcher_ok m_field.
Proof.
  unfold m_field.
  apply m_alt_ok; [apply m_time_ok|].
  apply m_alt_ok; [apply m_pair_ok|].
  apply m_alt_ok; [now apply m_word_ok|].
  apply m_alt_ok; [now apply m_word_ok | apply m_plus_ok].
Qed.

Lemma no_i_after_replace (s : str) :
  forallb (fun c => negb (chr_eqb c "i")) (replace_i s) = true.
Proof.
  rewrite replace_i_map. induction s as [|c s IH]; [reflexivity|].
  cbn. rewrite IH, andb_true_r. unfold swap_i.
  destruct (chr_eqb c "i") eqn:E; [reflexivity|]. now rewrite E.
Qed.

Lemma forallb_and {A : Type} (p q : A -> bool) (l : list A) :
  forallb (fun x => p x && q x) l = forallb p l && forallb q l.
Proof.
  induction l as [|x l IH]; [reflexivity|].
  cbn. rewrite IH. destruct (p x), (q x), (forallb p l); reflexivity.
Qed.

End MoreScanFacts.

(** X13.  A cleaned line holds no blank and no letter [i], whichever way it
    was built: with its own separators or with fields recovered by the
    patterns. *)
Theorem cleaned_line_is_solid (line : str) :
  forallb solid (clean_signal_line line) = true.
Proof.
  unfold clean_signal_line, normalize_tail.
  set (s1 := replace_i (strip line)).
  set (s2 := re_sub m_O_colon _ (re_sub m_O_digit _ s1)).
  assert (forallb (fun c => negb (chr_eqb c "i")) s2 = true) as Hi.
  { unfold s2. apply re_sub_forall; [apply m_O_colon_ok | reflexivity |].
    apply re_sub_forall; [apply m_O_digit_ok | | apply no_i_after_replace].
    intros h Hh. cbn. now apply forallb_drop. }
  rewrite remove_spaces_filter.
  assert (forallb solid (List.filter (fun c => negb (is_space c)) s2) = true) as Hs3.
  { unfold solid. rewrite forallb_and, filter_no_space. now apply filter_forall. }
  destruct (negb (contains ";" _)); [|exact Hs3].
  apply join_forall; [reflexivity|].
  now apply re_findall_forall; [apply m_field_ok|].
Qed.

Section CharacterFacts.

Lemma digit_facts (c : ascii) :
  is_digit c = true ->
  is_O c = false /\ is_space c = false /\ is_upper c = false /\ is_lower c = false
  /\ chr_eqb c ":" = false /\ chr_eqb c ";" = false /\ chr_eqb c "i" = false
  /\ chr_eqb c "/" = false /\ chr_eqb c "C" = false /\ chr_eqb c "P" = false.
Proof.
  destruct c as [[] [] [] [] [] [] [] []]; intros H;
    try (vm_compute in H; discriminate H); vm_compute; repeat split; reflexivity.
Qed.

Lemma upper_facts (c : ascii) :
  is_upper c = true ->
  is_digit c = false /\ is_space c = false /\ is_lower c = false
  /\ chr_eqb c ":" = false /\ chr_eqb c ";" = false /\ chr_eqb c "i" = false
  /\ chr_eqb c "/" = false.
Proof.
  destruct c as [[] [] [] [] [] [] [] []]; intros H;
    try (vm_compute in H; discriminate H); vm_compute; repeat split; reflexivity.
Qed.

Lemma gap_facts (c : ascii) :
  gap_char c = true ->
  is_O c = false /\ is_digit c = false /\ chr_eqb c ":" = false
  /\ is_upper c = false /\ chr_eqb c "i" = false.
Proof.
  destruct c as [[] [] [] [] [] [] [] []]; intros H;
    try (vm_compute in H; discriminate H); vm_compute; repeat split; reflexivity.
Qed.

Lemma colon_facts (c : ascii) :
  chr_eqb c ":" = true ->
  is_O c = false /\ is_space c = false /\ is_digit c = false /\ is_upper c = false
  /\ chr_eqb c ";" = false /\ chr_eqb c "i" = false.
Proof. intros ->%chr_eqb_eq. vm_compute. repeat split; reflexivity. Qed.

End CharacterFacts.

Section UnchangedLines.

Lemma re_scan_none (m : matcher) (s : str) :
  (forall i, m (drop i s) = None) -> re_scan m O s = map Lit s.
Proof.
  induction s as [|c tl IH]; intros Hn; [reflexivity|].
  cbn [re_scan map]. pose proof (Hn O) as H0. cbn [drop] in H0. rewrite H0.
  f_equal. apply IH. intros i. exact (Hn (S i)).
Qed.

Lemma re_sub_none (m : matcher) (repl : str -> str) (s : str) :
  (forall i, m (drop i s) = None) -> re_sub m repl s = s.
Proof.
  intros Hn. unfold re_sub. rewrite (re_scan_none m s Hn).
  clear Hn. induction s as [|c s IH]; [reflexivity|]. cbn. now rewrite IH.
Qed.

Lemma O_stays_no_match (s : str) :
  O_stays s = true ->
  forall i, m_O_digit (drop i s) = None /\ m_O_colon (drop i s) = None.
Proof.
  induction s as [|c tl IH]; intros Hs i.
  - now destruct i.
  - cbn [O_stays] in Hs. apply andb_prop in Hs as [Hc Htl].
    destruct i as [|i]; [|now apply IH].
    cbn [drop m_O_digit m_O_colon].
    destruct (is_O c); cbn [andb negb] in *; [|now destruct tl].
    apply negb_true_iff, orb_false_elim in Hc as [Hd Hcol].
    split.
    + destruct tl as [|d tl']; [reflexivity|]. now rewrite Hd.
    + now destruct (m_spaces_colon tl).
Qed.

Lemma O_stays_unchanged (s : str) :
  O_stays s = true ->
  re_sub m_O_colon (fun _ => lit "0:")
         (re_sub m_O_digit (fun h => "0"%char :: drop 1 h) s) = s.
Proof.
  intros Hs.
  rewrite (re_sub_none m_O_digit _ s) by (intros i; apply (O_stays_no_match s Hs)).
  apply re_sub_none. intros i. apply (O_stays_no_match s Hs).
Qed.

Lemma O_stays_app_plain (a b : str) :
  forallb (fun c => negb (is_O c)) a = true -> O_stays (a ++ b) = O_stays b.
Proof.
  induction a as [|c a IH]; [reflexivity|].
  cbn [forallb app O_stays]. intros [Hc Ha]%andb_prop.
  apply negb_true_iff in Hc. rewrite Hc. cbn [andb negb]. now apply IH.
Qed.

Lemma m_spaces_colon_upper (c : ascii) (s : str) :
  is_upper c = true -> m_spaces_colon (c :: s) = None.
Proof.
  intros Hc. destruct (upper_facts c Hc) as (_ & Hs & _ & Hcol & _).
  cbn. now rewrite Hcol, Hs.
Qed.

Lemma O_stays_app_upper (a b : str) :
  forallb is_upper a = true -> blocked b = true -> O_stays (a ++ b) = O_stays b.
Proof.
  intros Ha Hb. induction a as [|c a IH]; [reflexivity|].
  cbn [forallb] in Ha. apply andb_prop in Ha as [Hc Ha].
  cbn [app O_stays]. rewrite (IH Ha).
  assert (match a ++ b with d :: _ => is_digit d | [] => false end = false) as ->.
  { destruct a as [|x a]; cbn [app].
    - unfold blocked in Hb. apply andb_prop in Hb as [Hb _].
      destruct b; [reflexivity|]. now apply negb_true_iff in Hb.
    - cbn in Ha. apply andb_prop in Ha as [Hx _]. now destruct (upper_facts x Hx). }
  assert (m_spaces_colon (a ++ b) = None) as ->.
  { destruct a as [|x a]; cbn [app].
    - unfold blocked in Hb. apply andb_prop in Hb as [_ Hb].
      now destruct (m_spaces_colon b).
    - cbn in Ha. apply andb_prop in Ha as [Hx _]. now apply m_spaces_colon_upper. }
  now rewrite andb_false_r.
Qed.

(** Gaps in front of a character that is no digit, blank or colon. *)
Lemma blocked_gap (g : str) (x : ascii) (r : str) :
  forallb gap_char g = true ->
  is_digit x = false -> is_space x = false -> chr_eqb x ":" = false ->
  blocked (g ++ x :: r) = true.
Proof.
  intros Hg Hd Hs Hc. unfold blocked.
  assert (m_spaces_colon (g ++ x :: r) = None) as ->.
  { induction g as [|c g IH]; cbn [app m_spaces_colon].
    - now rewrite Hc, Hs.
    - cbn [forallb] in Hg. apply andb_prop in Hg as [Hgc Hg].
      destruct (gap_facts c Hgc) as (_ & _ & -> & _).
      destruct (is_space c); [|reflexivity]. now rewrite (IH Hg). }
  rewrite andb_true_r. destruct g as [|c g]; cbn [app].
  - now rewrite Hd.
  - cbn [forallb] in Hg. apply andb_prop in Hg as [Hgc _].
    now destruct (gap_facts c Hgc) as (_ & -> & _).
Qed.

Lemma forallb_impl {A : Type} (p q : A -> bool) (l : list A) :
  (forall x, p x = true -> q x = true) -> forallb p l = true -> forallb q l = true.
Proof.
  intros Hpq. induction l as [|x l IH]; [reflexivity|].
  cbn. intros [Hx Hl]%andb_prop. now rewrite (Hpq x Hx), (IH Hl).
Qed.

Lemma is_time_inv (t : str) :
  is_time t = true ->
  time_format_ok t = true
  /\ forallb (fun c => is_digit c || chr_eqb c ":") t = true
  /\ exists a t', t = a :: t' /\ is_digit a = true.
Proof.
  unfold is_time.
  destruct t as [|a [|b [|c [|d [|e [|f t]]]]]]; try discriminate.
  - intros H. apply andb_prop in H as [H Hd]. apply andb_prop in H as [H Hc].
    apply andb_prop in H as [Ha Hb].
    split; [|split; [|now exists a, [b; c; d]]].
    + cbn [time_format_ok at_dollar]. rewrite Ha, Hb, Hc, Hd.
      destruct (is_digit b); reflexivity.
    + cbn [forallb]. now rewrite Ha, Hb, Hc, Hd, !orb_true_r.
  - intros H. apply andb_prop in H as [H He]. apply andb_prop in H as [H Hd].
    apply andb_prop in H as [H Hc]. apply andb_prop in H as [Ha Hb].
    split; [|split; [|now exists a, [b; c; d; e]]].
    + cbn [time_format_ok at_dollar]. now rewrite Ha, Hb, Hc, Hd, He.
    + cbn [forallb]. now rewrite Ha, Hb, Hc, Hd, He, !orb_true_r.
Qed.

End UnchangedLines.

Section GappedLines.

Local Abbreviation nonspace := (fun c : ascii => negb (is_space c)).

Lemma lstrip_blanks (w s : str) :
  forallb is_space w = true -> lstrip (w ++ s) = lstrip s.
Proof.
  induction w as [|c w IH]; [reflexivity|].
  cbn [forallb app lstrip]. intros [-> Hw]%andb_prop. now apply IH.
Qed.

(** Blanks around a text that starts and ends with other characters. *)
Lemma strip_padded (w0 w4 x : str) (a z : ascii) (m : str) :
  forallb is_space w0 = true -> forallb is_space w4 = true ->
  x = a :: m -> is_space a = false ->
  last x = Some z -> is_space z = false ->
  strip (w0 ++ x ++ w4) = x.
Proof.
  intros H0 H4 Hx Ha Hl Hz. apply last_Some in Hl as [x' Hx'].
  unfold strip, rstrip. rewrite lstrip_blanks by exact H0.
  rewrite Hx. cbn [app lstrip]. rewrite Ha.
  change (a :: m ++ w4) with ((a :: m) ++ w4). rewrite <- Hx, Hx'.
  rewrite !rev_app_distr. cbn [rev app].
  rewrite lstrip_blanks by now rewrite forallb_rev.
  cbn [lstrip]. rewrite Hz.
  change (z :: rev x') with ([z] ++ rev x').
  now rewrite rev_app_distr, rev_involutive.
Qed.

Lemma last_of_all (q : ascii -> bool) (e : str) :
  e <> [] -> forallb q e = true -> exists z, last e = Some z /\ q z = true.
Proof.
  intros He Hq. destruct (exists_last He) as (e' & z & ->).
  rewrite forallb_app in Hq. apply andb_prop in Hq as [_ Hq].
  cbn in Hq. rewrite andb_true_r in Hq.
  exists z. split; [apply last_snoc | exact Hq].
Qed.

Lemma filter_keep_all (q : ascii -> bool) (s : str) :
  forallb q s = true -> List.filter q s = s.
Proof.
  induction s as [|c s IH]; [reflexivity|].
  cbn. intros [-> Hs]%andb_prop. now rewrite (IH Hs).
Qed.

Lemma filter_gap (g : str) :
  forallb gap_char g = true -> List.filter nonspace g = separators g.
Proof.
  unfold separators. induction g as [|c g IH]; [reflexivity|].
  cbn [forallb List.filter count_char]. intros [Hc Hg]%andb_prop.
  rewrite (IH Hg). unfold gap_char in Hc.
  destruct (chr_eqb c ";") eqn:E.
  - apply chr_eqb_eq in E as ->. reflexivity.
  - rewrite orb_false_r in Hc. now rewrite Hc.
Qed.

Lemma blanks_no_separator (w : str) :
  forallb is_space w = true -> forallb gap_char w = true /\ separators w = [].
Proof.
  intros Hw. split.
  - apply (forallb_impl is_space); [|exact Hw].
    intros c Hc. unfold gap_char. now rewrite Hc.
  - unfold separators. induction w as [|c w IH]; [reflexivity|].
    cbn [forallb] in Hw. apply andb_prop in Hw as [Hc Hw].
    cbn [count_char]. destruct (chr_eqb c ";") eqn:E.
    + apply chr_eqb_eq in E as ->. discriminate Hc.
    + cbn [Nat.add]. exact (IH Hw).
Qed.

Lemma replace_i_none (s : str) :
  forallb (fun c => negb (chr_eqb c "i")) s = true -> replace_i s = s.
Proof.
  unfold replace_i, replace_char. induction s as [|c s IH]; [reflexivity|].
  cbn [forallb flat_map]. intros [Hc Hs]%andb_prop.
  apply negb_true_iff in Hc. rewrite Hc. cbn [app]. now rewrite (IH Hs).
Qed.

Lemma line_char_facts (c : ascii) :
  line_char c = true -> chr_eqb c "i" = false.
Proof.
  destruct c as [[] [] [] [] [] [] [] []]; intros H;
    try (vm_compute in H; discriminate H); reflexivity.
Qed.

Lemma O_stays_plain (s : str) :
  forallb (fun c => negb (is_O c)) s = true -> O_stays s = true.
Proof.
  intros Hs. rewrite <- (app_nil_r s). now rewrite O_stays_app_plain.
Qed.

Lemma direction_shape (d : str) :
  direction_ok d = true ->
  forallb is_upper d = true
  /\ forallb (fun c => negb (is_O c)) d = true
  /\ exists x r, d = x :: r /\ is_digit x = false /\ is_space x = false
                 /\ chr_eqb x ":" = false.
Proof.
  intros [-> | ->]%direction_ok_iff.
  - split; [reflexivity|]. split; [reflexivity|].
    now exists "C"%char, (lit "ALL").
  - split; [reflexivity|]. split; [reflexivity|].
    now exists "P"%char, (lit "UT").
Qed.

Lemma is_digits_inv (e : str) :
  is_digits e = true -> e <> [] /\ forallb is_digit e = true.
Proof. destruct e; [discriminate|]. intros H. split; [discriminate | exact H]. Qed.

Section Fields.

Variables t g1 p g2 d g3 e : str.
Hypothesis Ht : is_time t = true.
Hypothesis Hp : forallb is_upper p = true.
Hypothesis Hd : direction_ok d = true.
Hypothesis He : is_digits e = true.
Hypothesis Hg1 : forallb gap_char g1 = true.
Hypothesis Hg2 : forallb gap_char g2 = true.
Hypothesis Hg3 : forallb gap_char g3 = true.

Lemma time_chars (q : ascii -> bool) :
  (forall c, is_digit c = true -> q c = true) -> q ":"%char = true ->
  forallb q t = true.
Proof.
  intros Hq Hc. destruct (is_time_inv t Ht) as (_ & Hall & _).
  apply (forallb_impl (fun c => is_digit c || chr_eqb c ":")); [|exact Hall].
  intros c [H|H]%orb_prop; [now apply Hq|]. now apply chr_eqb_eq in H as ->.
Qed.

Lemma gapped_chars (q : ascii -> bool) :
  (forall c, is_digit c = true -> q c = true) -> q ":"%char = true ->
  (forall c, is_upper c = true -> q c = true) ->
  (forall c, gap_char c = true -> q c = true) ->
  forallb q (gapped t g1 p g2 d g3 e) = true.
Proof.
  intros Qd Qc Qu Qg. unfold gapped.
  destruct (direction_shape d Hd) as (Hdu & _).
  destruct (is_digits_inv e He) as (_ & Hed).
  rewrite !forallb_app.
  rewrite (time_chars q Qd Qc).
  rewrite (forallb_impl _ q g1 Qg Hg1), (forallb_impl _ q g2 Qg Hg2),
    (forallb_impl _ q g3 Qg Hg3).
  rewrite (forallb_impl _ q p Qu Hp), (forallb_impl _ q d Qu Hdu).
  now rewrite (forallb_impl _ q e Qd Hed).
Qed.

Lemma gapped_O_stays : O_stays (gapped t g1 p g2 d g3 e) = true.
Proof.
  unfold gapped.
  destruct (direction_shape d Hd) as (_ & HdO & x & r & Hx & Hxd & Hxs & Hxc).
  destruct (is_digits_inv e He) as (_ & Hed).
  assert (forall g, forallb gap_char g = true ->
                    forallb (fun c => negb (is_O c)) g = true) as Hgap.
  { intros g. apply forallb_impl. intros c Hc.
    now destruct (gap_facts c Hc) as (-> & _). }
  rewrite O_stays_app_plain.
  2:{ apply time_chars; [|reflexivity].
      intros c Hc. now destruct (digit_facts c Hc) as (-> & _). }
  rewrite O_stays_app_plain by now apply Hgap.
  rewrite O_stays_app_upper; [|exact Hp|].
  2:{ rewrite Hx. cbn [app]. now apply blocked_gap. }
  rewrite O_stays_app_plain by now apply Hgap.
  rewrite O_stays_app_plain by exact HdO.
  rewrite O_stays_app_plain by now apply Hgap.
  apply O_stays_plain. apply (forallb_impl is_digit); [|exact Hed].
  intros c Hc. now destruct (digit_facts c Hc) as (-> & _).
Qed.

Lemma gapped_strip (w0 w4 : str) :
  forallb is_space w0 = true -> forallb is_space w4 = true ->
  strip (w0 ++ gapped t g1 p g2 d g3 e ++ w4) = gapped t g1 p g2 d g3 e.
Proof.
  intros H0 H4.
  destruct (is_time_inv t Ht) as (_ & _ & a & t' & Hta & Ha).
  destruct (is_digits_inv e He) as (Hne & Hed).
  destruct (last_of_all is_digit e Hne Hed) as (z & Hl & Hz).
  apply (strip_padded w0 w4 _ a z (t' ++ g1 ++ p ++ g2 ++ d ++ g3 ++ e)); auto.
  - unfold gapped. now rewrite Hta.
  - now destruct (digit_facts a Ha) as (_ & -> & _).
  - unfold gapped. rewrite !last_app, Hl. reflexivity.
  - now destruct (digit_facts z Hz) as (_ & -> & _).
Qed.

Lemma gapped_no_blanks :
  List.filter nonspace (gapped t g1 p g2 d g3 e)
  = gapped t (separators g1) p (separators g2) d (separators g3) e.
Proof.
  unfold gapped.
  destruct (direction_shape d Hd) as (Hdu & _).
  destruct (is_digits_inv e He) as (_ & Hed).
  rewrite !List.filter_app.
  rewrite (filter_gap g1 Hg1), (filter_gap g2 Hg2), (filter_gap g3 Hg3).
  rewrite (filter_keep_all nonspace t).
  2:{ apply time_chars; [|reflexivity].
      intros c Hc. now destruct (digit_facts c Hc) as (_ & -> & _). }
  assert (forall s, forallb is_upper s = true -> List.filter nonspace s = s) as Hup.
  { intros s Hs. apply filter_keep_all. apply (forallb_impl is_upper); [|exact Hs].
    intros c Hc. now destruct (upper_facts c Hc) as (_ & -> & _). }
  rewrite (Hup p Hp), (Hup d Hdu).
  rewrite (filter_keep_all nonspace e); [reflexivity|].
  apply (forallb_impl is_digit); [|exact Hed].
  intros c Hc. now destruct (digit_facts c Hc) as (_ & -> & _).
Qed.

(** The cleaning of four fields between gaps: the letter rewrites change
    nothing, the blanks go, and the separators decide how the fields are
    found. *)
Lemma clean_gapped (w0 w4 : str) :
  forallb is_space w0 = true -> forallb is_space w4 = true ->
  clean_signal_line (w0 ++ gapped t g1 p g2 d g3 e ++ w4)
  = let s := gapped t (separators g1) p (separators g2) d (separators g3) e in
    if negb (contains ";" s) then join (lit ";") (re_findall m_field s) else s.
Proof.
  intros H0 H4. unfold clean_signal_line.
  rewrite (gapped_strip w0 w4 H0 H4).
  rewrite replace_i_none.
  2:{ apply gapped_chars; try reflexivity.
      - intros c Hc. now destruct (digit_facts c Hc) as (_ & _ & _ & _ & _ & _ & -> & _).
      - intros c Hc. now destruct (upper_facts c Hc) as (_ & _ & _ & _ & _ & -> & _).
      - intros c Hc. now destruct (gap_facts c Hc) as (_ & _ & _ & _ & ->). }
  unfold normalize_tail. cbv zeta.
  rewrite (O_stays_unchanged _ gapped_O_stays).
  now rewrite remove_spaces_filter, gapped_no_blanks.
Qed.

End Fields.

End GappedLines.

Section FieldsFound.

Lemma re_scan_skip (m : matcher) (h r : str) :
  re_scan m (length h) (h ++ r) = re_scan m O r.
Proof. induction h as [|c h IH]; [reflexivity|]. cbn [length app re_scan]. exact IH. Qed.

Lemma re_scan_hit (m : matcher) (h r : str) :
  h <> [] -> m (h ++ r) = Some h -> re_scan m O (h ++ r) = Hit h :: re_scan m O r.
Proof.
  destruct h as [|c h]; [easy|]. intros _ Hm.
  cbn [app re_scan]. cbn [app] in Hm. rewrite Hm.
  cbn [length Nat.pred]. f_equal. apply re_scan_skip.
Qed.

Lemma re_findall_hit (m : matcher) (h r : str) :
  h <> [] -> m (h ++ r) = Some h -> re_findall m (h ++ r) = h :: re_findall m r.
Proof.
  intros Hh Hm. unfold re_findall. now rewrite (re_scan_hit m h r Hh Hm).
Qed.

Lemma m_time_head (a : ascii) (s : str) : is_digit a = false -> m_time (a :: s) = None.
Proof.
  intros Ha. unfold m_time.
  destruct s as [|b [|c [|d [|e s]]]]; try reflexivity; rewrite Ha; reflexivity.
Qed.

Lemma m_pair_head (a : ascii) (s : str) : is_upper a = false -> m_pair (a :: s) = None.
Proof.
  intros Ha. unfold m_pair.
  destruct s as [|b [|c [|d [|e [|f s]]]]]; try reflexivity.
  cbn [forallb]. rewrite Ha. reflexivity.
Qed.

Lemma m_time_digits (s : str) : forallb is_digit s = true -> m_time s = None.
Proof.
  unfold m_time.
  destruct s as [|a [|b [|c [|d [|e s]]]]]; try reflexivity;
    cbn [forallb]; intros H;
    apply andb_prop in H as [Ha H]; apply andb_prop in H as [Hb H];
    apply andb_prop in H as [Hc H];
    destruct (digit_facts b Hb) as (_ & _ & _ & _ & Eb & _);
    destruct (digit_facts c Hc) as (_ & _ & _ & _ & Ec & _);
    rewrite ?Eb, ?Ec;
    destruct (is_digit a), (is_digit b); reflexivity.
Qed.

Lemma digit_not_letter (c : ascii) :
  is_digit c = true -> chr_eqb "C" c = false /\ chr_eqb "P" c = false.
Proof.
  destruct c as [[] [] [] [] [] [] [] []]; intros H;
    try (vm_compute in H; discriminate H); split; reflexivity.
Qed.

Lemma span_whole (q : ascii -> bool) (s : str) :
  forallb q s = true -> span_of q s = s.
Proof.
  induction s as [|c s IH]; [reflexivity|].
  cbn [forallb span_of]. intros [-> Hs]%andb_prop. now rewrite (IH Hs).
Qed.

Lemma m_time_time (t r : str) : is_time t = true -> m_time (t ++ r) = Some t.
Proof.
  unfold is_time.
  destruct t as [|a [|b [|c [|d [|e [|f t]]]]]]; try discriminate; intros H.
  - cbn [app]. unfold m_time. destruct r as [|x r]; [now rewrite H|].
    rewrite H.
    apply andb_prop in H as [H _]. apply andb_prop in H as [H _].
    apply andb_prop in H as [_ Hb]. apply chr_eqb_eq in Hb as ->.
    now rewrite andb_false_r.
  - cbn [app]. unfold m_time. now rewrite H.
Qed.

Lemma m_field_time (t r : str) : is_time t = true -> m_field (t ++ r) = Some t.
Proof. intros Ht. unfold m_field, m_alt. now rewrite (m_time_time t r Ht). Qed.

Lemma m_field_pair (p r : str) :
  length p = 6%nat -> forallb is_upper p = true -> m_field (p ++ r) = Some p.
Proof.
  destruct p as [|a [|b [|c [|d [|e [|f [|g p]]]]]]]; try discriminate.
  intros _ H. unfold m_field, m_alt. cbn [app].
  rewrite m_time_head.
  2:{ apply andb_prop in H as [Ha _]. now destruct (upper_facts a Ha) as (-> & _). }
  unfold m_pair. now rewrite H.
Qed.

Lemma m_field_direction (d r : str) :
  direction_ok d = true ->
  match r with x :: _ => is_upper x = false | [] => True end ->
  m_field (d ++ r) = Some d.
Proof.
  intros [-> | ->]%direction_ok_iff Hr; unfold m_field, m_alt;
    cbn [lit list_ascii_of_string app]; rewrite m_time_head by reflexivity.
  - assert (m_pair ("C" :: "A" :: "L" :: "L" :: r)%char = None) as ->.
    { unfold m_pair. destruct r as [|x [|y r]]; try reflexivity.
      cbn [forallb]. rewrite Hr. reflexivity. }
    reflexivity.
  - assert (m_pair ("P" :: "U" :: "T" :: r)%char = None) as ->.
    { unfold m_pair. destruct r as [|x [|y [|z r]]]; try reflexivity.
      cbn [forallb]. rewrite Hr. reflexivity. }
    reflexivity.
Qed.

Lemma m_field_digits (e : str) : is_digits e = true -> m_field e = Some e.
Proof.
  intros He. destruct (is_digits_inv e He) as (_ & Hd).
  unfold m_field, m_alt. rewrite (m_time_digits e Hd).
  destruct e as [|a e]; [discriminate|].
  pose proof Hd as Ha. cbn [forallb] in Ha. apply andb_prop in Ha as [Ha _].
  rewrite m_pair_head by now destruct (digit_facts a Ha) as (_ & _ & -> & _).
  destruct (digit_not_letter a Ha) as (EC & EP).
  unfold m_word. cbn [lit list_ascii_of_string is_prefix]. rewrite EC, EP.
  cbn [andb]. unfold m_digits, m_plus. now rewrite (span_whole is_digit _ Hd).
Qed.

Lemma split_on_whole (sep : ascii) (a : str) :
  contains sep a = false -> split_on sep a = [a].
Proof.
  unfold contains. induction a as [|c a IH]; [reflexivity|].
  cbn [existsb split_on]. intros [Hc Ha]%orb_false_elim.
  now rewrite Hc, (IH Ha).
Qed.

Lemma split_on_app (sep : ascii) (a b : str) :
  contains sep a = false ->
  split_on sep (a ++ sep :: b) = a :: split_on sep b.
Proof.
  unfold contains. induction a as [|c a IH].
  - intros _. cbn [app split_on]. now rewrite chr_eqb_refl.
  - cbn [existsb app split_on]. intros [Hc Ha]%orb_false_elim.
    now rewrite Hc, (IH Ha).
Qed.

Lemma contains_none (x : ascii) (s : str) :
  forallb (fun c => negb (chr_eqb c x)) s = true -> contains x s = false.
Proof.
  unfold contains. induction s as [|c s IH]; [reflexivity|].
  cbn [forallb existsb]. intros [Hc Hs]%andb_prop.
  apply negb_true_iff in Hc. now rewrite Hc, (IH Hs).
Qed.

Lemma digits_without (x : ascii) (s : str) :
  is_digit x = false -> forallb is_digit s = true -> contains x s = false.
Proof.
  intros Hx Hs. apply contains_none. apply (forallb_impl is_digit); [|exact Hs].
  intros c Hc. apply negb_true_iff. destruct (chr_eqb c x) eqn:E; [|reflexivity].
  apply chr_eqb_eq in E as ->. congruence.
Qed.

Lemma uppers_without (x : ascii) (s : str) :
  is_upper x = false -> forallb is_upper s = true -> contains x s = false.
Proof.
  intros Hx Hs. apply contains_none. apply (forallb_impl is_upper); [|exact Hs].
  intros c Hc. apply negb_true_iff. destruct (chr_eqb c x) eqn:E; [|reflexivity].
  apply chr_eqb_eq in E as ->. congruence.
Qed.

Lemma time_without (x : ascii) (t : str) :
  is_digit x = false -> chr_eqb ":" x = false -> is_time t = true ->
  contains x t = false.
Proof.
  intros Hx Hc Ht. apply contains_none.
  apply (time_chars t Ht).
  - intros c Hd. apply negb_true_iff. destruct (chr_eqb c x) eqn:E; [|reflexivity].
    apply chr_eqb_eq in E as ->. congruence.
  - now rewrite Hc.
Qed.

Lemma upper_of_uppers (s : str) : forallb is_upper s = true -> upper s = s.
Proof.
  unfold upper. induction s as [|c s IH]; [reflexivity|].
  cbn [forallb map]. intros [Hc Hs]%andb_prop. rewrite (IH Hs).
  f_equal. apply to_upper_fixed. now destruct (upper_facts c Hc) as (_ & _ & -> & _).
Qed.

Lemma replace_char_none (x : ascii) (new s : str) :
  contains x s = false -> replace_char x new s = s.
Proof.
  unfold contains, replace_char. induction s as [|c s IH]; [reflexivity|].
  cbn [existsb flat_map]. intros [Hc Hs]%orb_false_elim.
  rewrite Hc. cbn [app]. now rewrite (IH Hs).
Qed.

Section Canonical.

Variables t p d e : str.
Hypothesis Ht : is_time t = true.
Hypothesis Hp : forallb is_upper p = true.
Hypothesis Hd : direction_ok d = true.
Hypothesis He : is_digits e = true.

Lemma split_canonical : split_on ";" (canonical t p d e) = [t; p; d; e].
Proof.
  destruct (direction_shape d Hd) as (Hdu & _).
  destruct (is_digits_inv e He) as (_ & Hed).
  unfold canonical.
  rewrite split_on_app by now apply time_without.
  rewrite split_on_app by now apply uppers_without.
  rewrite split_on_app by now apply uppers_without.
  now rewrite split_on_whole by now apply digits_without.
Qed.

(** A line cleaned to [time;pair;direction;expiry] gives that signal,
    unless the expiry has more digits than [int] reads. *)
Lemma parse_of_canonical (line : str) :
  clean_signal_line line = canonical t p d e ->
  parse_signal line
  = if (length e <=? int_max_str_digits)%nat
    then Some (mkSignal t p d (int_of_digits e)) else None.
Proof.
  intros Hc.
  destruct (direction_shape d Hd) as (Hdu & _).
  destruct (is_digits_inv e He) as (Hne & Hed).
  destruct (is_time_inv t Ht) as (Hfmt & _ & a & t' & Hta & Ha).
  assert (strip t = t) as Hst.
  { destruct (last_of_all is_digit e Hne Hed) as (z & _ & _).
    assert (exists z, last t = Some z /\ is_space z = false) as (y & Hy & Hys).
    { assert (t <> []) as Hn by now rewrite Hta.
      destruct (last_of_all (fun c => negb (is_space c)) t Hn) as (y & Hy & Hys).
      - apply (time_chars t Ht); [|reflexivity].
        intros c Hc'. now destruct (digit_facts c Hc') as (_ & -> & _).
      - exists y. split; [exact Hy | now apply negb_true_iff]. }
    pose proof (strip_padded [] [] t a y t' eq_refl eq_refl Hta) as Hs.
    rewrite app_nil_r in Hs. apply Hs; [|exact Hy | exact Hys].
    now destruct (digit_facts a Ha) as (_ & -> & _). }
  rewrite parse_signal_spec. unfold line_accepted, field, fields.
  rewrite Hc, split_canonical. cbn [length nth Nat.leb andb].
  rewrite Hst, Hfmt, (upper_of_uppers d Hdu), Hd, (upper_of_uppers p Hp).
  rewrite (digits_of_digits e Hed).
  rewrite (replace_char_none "/" [] p) by now apply uppers_without.
  unfold expiry_ok. rewrite <- digits_of_filter, (digits_of_digits e Hed).
  assert (existsb is_digit e = true) as ->.
  { destruct e as [|x e']; [easy|].
    cbn [forallb] in Hed. apply andb_prop in Hed as [Hx _].
    cbn [existsb]. now rewrite Hx. }
  cbn [andb]. now destruct (length e <=? int_max_str_digits)%nat.
Qed.

End Canonical.

Lemma clean_one_separator (w0 t g1 p g2 d g3 e w4 : str) :
  forallb is_space w0 = true -> forallb is_space w4 = true ->
  is_time t = true -> forallb is_upper p = true ->
  direction_ok d = true -> is_digits e = true ->
  one_separator g1 = true -> one_separator g2 = true -> one_separator g3 = true ->
  clean_signal_line (w0 ++ gapped t g1 p g2 d g3 e ++ w4) = canonical t p d e.
Proof.
  intros H0 H4 Ht Hp Hd He [G1 C1]%andb_prop [G2 C2]%andb_prop [G3 C3]%andb_prop.
  apply Nat.eqb_eq in C1, C2, C3.
  rewrite (clean_gapped t g1 p g2 d g3 e Ht Hp Hd He G1 G2 G3 w0 w4 H0 H4).
  unfold separators. rewrite C1, C2, C3. cbv zeta.
  assert (contains ";" (gapped t (repeat ";"%char 1) p (repeat ";"%char 1) d
                               (repeat ";"%char 1) e) = true) as ->; [|reflexivity].
  unfold contains, gapped. rewrite existsb_app. cbn. apply orb_true_r.
Qed.

End FieldsFound.

(** X14.  A line [time;pair;direction;expiry] - the time as H:MM or HH:MM,
    the pair in capitals, the direction CALL or PUT, the expiry in digits -
    with blanks around the line and around its three separators is cleaned
    to the line without the blanks.  It is parsed to the signal of its four
    fields when the expiry has at most 4300 digits, the most that [int]
    reads; with more digits [int] raises and the line gives no signal. *)
Theorem separated_line_parses (w0 t g1 p g2 d g3 e w4 : str) :
  forallb is_space w0 = true -> forallb is_space w4 = true ->
  is_time t = true -> forallb is_upper p = true ->
  direction_ok d = true -> is_digits e = true ->
  one_separator g1 = true -> one_separator g2 = true -> one_separator g3 = true ->
  clean_signal_line (w0 ++ gapped t g1 p g2 d g3 e ++ w4) = canonical t p d e
  /\ parse_signal (w0 ++ gapped t g1 p g2 d g3 e ++ w4)
     = if (length e <=? 4300)%nat
       then Some (mkSignal t p d (int_of_digits e)) else None.
Proof.
  intros H0 H4 Ht Hp Hd He G1 G2 G3.
  pose proof (clean_one_separator w0 t g1 p g2 d g3 e w4 H0 H4 Ht Hp Hd He G1 G2 G3)
    as Hc.
  split; [exact Hc|]. now apply parse_of_canonical.
Qed.

Lemma separated_line_parses_witness :
  clean_signal_line (lit " 9:05 ; EURUSD;PUT ;15" ++ [ascii_of_N 10])
  = lit "9:05;EURUSD;PUT;15"
  /\ parse_signal (lit " 9:05 ; EURUSD;PUT ;15" ++ [ascii_of_N 10])
     = Some (mkSignal (lit "9:05") (lit "EURUSD") (lit "PUT") 15).
Proof.
  exact (separated_line_parses (lit " ") (lit "9:05") (lit " ; ") (lit "EURUSD")
           (lit ";") (lit "PUT") (lit " ;") (lit "15") [ascii_of_N 10]
           eq_refl eq_refl eq_refl eq_refl eq_refl eq_refl eq_refl eq_refl eq_refl).
Defined.

(** X15.  A line without any separator whose four fields - the time, a pair
    of six capitals, CALL or PUT, the expiry in digits - follow one another
    with any blanks or none between them is cleaned to
    [time;pair;direction;expiry].  It is parsed to the signal of its fields
    when the expiry has at most 4300 digits, the most that [int] reads; with
    more digits [int] raises and the line gives no signal. *)
Theorem blank_separated_line_parses (w0 t g1 p g2 d g3 e w4 : str) :
  forallb is_space w0 = true -> forallb is_space w4 = true ->
  is_time t = true -> forallb is_upper p = true -> length p = 6%nat ->
  direction_ok d = true -> is_digits e = true ->
  forallb is_space g1 = true -> forallb is_space g2 = true ->
  forallb is_space g3 = true ->
  clean_signal_line (w0 ++ gapped t g1 p g2 d g3 e ++ w4) = canonical t p d e
  /\ parse_signal (w0 ++ gapped t g1 p g2 d g3 e ++ w4)
     = if (length e <=? 4300)%nat
       then Some (mkSignal t p d (int_of_digits e)) else None.
Proof.
  intros H0 H4 Ht Hp Hlen Hd He B1 B2 B3.
  destruct (blanks_no_separator g1 B1) as (G1 & S1).
  destruct (blanks_no_separator g2 B2) as (G2 & S2).
  destruct (blanks_no_separator g3 B3) as (G3 & S3).
  destruct (direction_shape d Hd) as (Hdu & _ & x & r & Hx & _).
  destruct (is_digits_inv e He) as (Hne & Hed).
  assert (clean_signal_line (w0 ++ gapped t g1 p g2 d g3 e ++ w4) = canonical t p d e)
    as Hc.
  { rewrite (clean_gapped t g1 p g2 d g3 e Ht Hp Hd He G1 G2 G3 w0 w4 H0 H4).
    rewrite S1, S2, S3. cbv zeta. unfold gapped. cbn [app].
    assert (contains ";" (t ++ p ++ d ++ e) = false) as ->.
    { unfold contains. rewrite !existsb_app.
      fold (contains ";" t) (contains ";" p) (contains ";" d) (contains ";" e).
      rewrite (time_without ";" t), (uppers_without ";" p), (uppers_without ";" d),
        (digits_without ";" e); auto. }
    cbn [negb].
    rewrite re_findall_hit; [| |now apply m_field_time].
    2:{ destruct (is_time_inv t Ht) as (_ & _ & a & t' & -> & _). discriminate. }
    rewrite re_findall_hit; [| |now apply m_field_pair].
    2:{ intros ->. discriminate Hlen. }
    rewrite re_findall_hit; [|now rewrite Hx|].
    2:{ apply m_field_direction; [exact Hd|].
        destruct e as [|y e']; [exact I|].
        cbn [forallb] in Hed. apply andb_prop in Hed as [Hy _].
        now destruct (digit_facts y Hy) as (_ & _ & -> & _). }
    rewrite <- (app_nil_r e) at 1.
    rewrite re_findall_hit; [reflexivity | exact Hne|].
    rewrite app_nil_r. now apply m_field_digits. }
  split; [exact Hc|]. now apply parse_of_canonical.
Qed.

Lemma blank_separated_line_parses_witness :
  clean_signal_line (lit "03:40 EURAUD CALL5")
  = lit "03:40;EURAUD;CALL;5"
  /\ parse_signal (lit "03:40 EURAUD CALL5")
     = Some (mkSignal (lit "03:40") (lit "EURAUD") (lit "CALL") 5).
Proof.
  exact (blank_separated_line_parses [] (lit "03:40") (lit " ") (lit "EURAUD")
           (lit " ") (lit "CALL") [] (lit "5") []
           eq_refl eq_refl eq_refl eq_refl eq_refl eq_refl eq_refl eq_refl eq_refl
           eq_refl).
Defined.

Section TextLines.

Lemma re_scan_text (m : matcher) :
  matcher_ok m ->
  forall s k, (k <= length s)%nat -> flat_map piece_text (re_scan m k s) = drop k s.
Proof.
  intros Hok. induction s as [|c tl IH]; intros k Hk.
  - now destruct k.
  - destruct k as [|k]; cbn [re_scan drop].
    + destruct (m (c :: tl)) as [hit|] eqn:Hm; cbn [flat_map piece_text].
      * destruct (Hok _ _ Hm) as [Hne [rest Hrest]].
        destruct hit as [|x hit]; [easy|]. cbn [app] in Hrest.
        injection Hrest as -> ->. cbn [length Nat.pred].
        rewrite IH by (rewrite length_app; lia).
        now rewrite drop_app_length.
      * rewrite (IH O) by lia. reflexivity.
    + apply IH. cbn [length] in Hk. lia.
Qed.

Lemma split_pieces_concat (cur : str) (ps : list piece) :
  concat (split_pieces cur ps) = cur ++ flat_map piece_text ps.
Proof.
  revert cur. induction ps as [|[c|h] ps IH]; intros cur; cbn [split_pieces flat_map].
  - cbn. now rewrite app_nil_r.
  - rewrite IH. cbn [piece_text]. now rewrite <- app_assoc.
  - cbn [concat piece_text]. now rewrite IH.
Qed.

Lemma re_split_concat (m : matcher) (s : str) :
  matcher_ok m -> concat (re_split m s) = s.
Proof.
  intros Hok. unfold re_split. rewrite split_pieces_concat.
  rewrite (re_scan_text m Hok s O) by lia. reflexivity.
Qed.

Lemma pair_up_concat (h : nat) :
  forall l : list str, length l = (2 * h)%nat -> concat (pair_up l) = concat l.
Proof.
  induction h as [|h IH]; intros l Hl.
  - now destruct l.
  - destruct l as [|a [|b l]]; cbn [length] in Hl; try lia.
    cbn [pair_up concat]. rewrite (IH l) by lia. now rewrite app_assoc.
Qed.

Lemma index_app_length {A : Type} (pre : list A) (x : A) (r : list A) (n : nat) :
  length pre = n -> index (pre ++ x :: r) n = Ok x.
Proof.
  intros <-. unfold index. rewrite nth_error_app2 by lia.
  now rewrite Nat.sub_diag.
Qed.

Lemma for_each_pairs (h : nat) :
  forall (j : nat) (pre l : list str) (acc : list Signal),
    length pre = (1 + j * 2)%nat -> length l = (2 * h)%nat ->
    for_each (text_step (pre ++ l)) acc (map (fun k => (1 + k * 2)%nat) (seq j h))
    = Ok (acc ++ signals_of (pair_up l)).
Proof.
  induction h as [|h IH]; intros j pre l acc Hpre Hl.
  - destruct l; [|discriminate]. cbn. now rewrite app_nil_r.
  - destruct l as [|a [|b l]]; cbn [length] in Hl; try lia.
    cbn [seq map for_each]. unfold text_step at 1.
    rewrite (index_app_length pre a (b :: l)) by exact Hpre.
    cbn [rbind].
    replace (pre ++ a :: b :: l) with ((pre ++ [a]) ++ b :: l) at 1
      by now rewrite <- app_assoc.
    rewrite (index_app_length (pre ++ [a]) b l)
      by (rewrite length_app; cbn [length]; lia).
    cbn [rbind].
    replace (pre ++ a :: b :: l) with ((pre ++ [a; b]) ++ l)
      by now rewrite <- app_assoc.
    cbn [pair_up]. unfold signals_of. cbn [flat_map]. fold (signals_of (pair_up l)).
    destruct (parse_signal (a ++ b)) as [sig|]; cbn [rbind].
    + rewrite (IH (S j) (pre ++ [a; b]) l (acc ++ [sig]))
        by (try rewrite length_app; cbn [length]; lia).
      now rewrite <- app_assoc.
    + now rewrite (IH (S j) (pre ++ [a; b]) l acc)
        by (try rewrite length_app; cbn [length]; lia).
Qed.

Lemma py_range_odd (h : nat) :
  py_range 1 (S (2 * h)) 2 = map (fun k => (1 + k * 2)%nat) (seq 0 h).
Proof.
  unfold py_range. do 2 f_equal.
  symmetry. apply (Nat.div_unique _ 2 h 1); lia.
Qed.

(** The result of [parse_signals_from_text] in terms of its lines. *)
Lemma text_signals (text : str) :
  parse_signals_from_text text = Ok (signals_of (text_lines text)).
Proof.
  unfold parse_signals_from_text, text_lines.
  destruct (length_re_split_odd m_time text) as [h Hh]. rewrite Hh.
  destruct (re_split m_time text) as [|g l]; [discriminate|].
  cbn [length] in Hh. cbn [drop]. rewrite ?drop_0, py_range_odd.
  apply (for_each_pairs h O [g] l []); [reflexivity | lia].
Qed.

Lemma m_time_is_time (s h : str) : m_time s = Some h -> is_time h = true.
Proof.
  unfold m_time.
  destruct s as [|a [|b [|c [|d [|e tl]]]]]; try discriminate.
  - destruct (is_digit a && chr_eqb b ":" && is_digit c && is_digit d) eqn:E;
      [|discriminate].
    intros [= <-]. exact E.
  - destruct (is_digit a && is_digit b && chr_eqb c ":" && is_digit d && is_digit e)
      eqn:E.
    + intros [= <-]. exact E.
    + destruct (is_digit a && chr_eqb b ":" && is_digit c && is_digit d) eqn:E';
        [|discriminate].
      intros [= <-]. exact E'.
Qed.

Lemma re_scan_hits_match (m : matcher) (s : str) :
  forall k, Forall (fun x => match x with
                             | Lit _ => True
                             | Hit h => exists s', m s' = Some h
                             end) (re_scan m k s).
Proof.
  induction s as [|c tl IH]; intros k; [constructor|].
  destruct k as [|k]; cbn [re_scan]; [|apply IH].
  destruct (m (c :: tl)) as [hit|] eqn:Hm; constructor; eauto.
Qed.

Lemma pair_up_heads (q : str -> Prop) (ps : list piece) :
  Forall (fun x => match x with Lit _ => True | Hit h => q h end) ps ->
  forall cur,
    Forall (fun line => exists t r, line = t ++ r /\ q t)
           (pair_up (drop 1 (split_pieces cur ps))).
Proof.
  induction 1 as [|[c|h] ps Hx Hps IH]; intros cur; cbn [split_pieces].
  - constructor.
  - apply IH.
  - cbn [drop]. specialize (IH []).
    destruct (split_pieces [] ps) as [|g l] eqn:E.
    + pose proof (length_split_pieces [] ps) as Hl. rewrite E in Hl. discriminate.
    + cbn [pair_up]. constructor; [now exists h, g|]. exact IH.
Qed.

(** Text that holds no colon holds no time, and no time starts in it when
    it does not end in a digit or nothing follows it. *)
Lemma re_scan_no_time (r next : str) :
  contains ":" r = false -> next = [] \/ ends_plain r = true ->
  re_scan m_time O (r ++ next) = map Lit r ++ re_scan m_time O next.
Proof.
  induction r as [|c r IH]; intros Hc He; [reflexivity|].
  unfold contains in Hc. cbn [existsb] in Hc.
  apply orb_false_elim in Hc as [Hcc Hc].
  assert (m_time ((c :: r) ++ next) = None) as Hm.
  { destruct r as [|x r].
    - destruct He as [-> | He]; [reflexivity|].
      apply m_time_head. unfold ends_plain in He. cbn in He.
      now apply negb_true_iff.
    - cbn [existsb] in Hc. apply orb_false_elim in Hc as [Hx Hc].
      destruct r as [|y r].
      + destruct He as [-> | He]; [reflexivity|].
        unfold ends_plain in He. cbn in He. apply negb_true_iff in He.
        cbn [app]. unfold m_time.
        destruct next as [|u [|v [|w next]]]; try reflexivity;
          rewrite ?He, ?Hx, ?andb_false_r; reflexivity.
      + cbn [existsb] in Hc. apply orb_false_elim in Hc as [Hy Hc].
        cbn [app]. unfold m_time.
        destruct (r ++ next) as [|u [|v w]]; try reflexivity;
          rewrite ?Hx, ?Hy, ?andb_false_r; reflexivity. }
  cbn [app re_scan map]. cbn [app] in Hm. rewrite Hm. f_equal.
  apply IH; [exact Hc|].
  destruct He as [He | He]; [now left | right].
  destruct r as [|x r]; [reflexivity|]. exact He.
Qed.

Lemma split_pieces_lits (cur r : str) (ps : list piece) :
  split_pieces cur (map Lit r ++ ps) = split_pieces (cur ++ r) ps.
Proof.
  revert cur. induction r as [|c r IH]; intros cur; cbn [map app split_pieces].
  - now rewrite app_nil_r.
  - rewrite IH. now rewrite <- app_assoc.
Qed.

(** The text made of lines that start with a time and hold no other is
    split into these lines. *)
Lemma text_lines_of_lines (lines : list (str * str)) :
  lines_ok lines = true ->
  text_lines (concat (map (fun l => fst l ++ snd l) lines))
  = map (fun l => fst l ++ snd l) lines.
Proof.
  intros Hl. unfold text_lines, re_split.
  assert (forall cur,
             split_pieces cur
               (re_scan m_time O (concat (map (fun l => fst l ++ snd l) lines)))
             = cur :: flat_map (fun l => [fst l; snd l]) lines) as Hs.
  { induction lines as [|[t r] lines IH]; intros cur; [reflexivity|].
    cbn [lines_ok fst snd] in Hl.
    apply andb_prop in Hl as [Hl Hok]. apply andb_prop in Hl as [Hl He].
    apply andb_prop in Hl as [Ht Hc]. apply negb_true_iff in Hc.
    cbn [map concat fst snd flat_map app].
    rewrite <- app_assoc. rewrite re_scan_hit.
    - rewrite (re_scan_no_time r _ Hc).
      + cbn [split_pieces]. rewrite split_pieces_lits, (IH Hok). reflexivity.
      + destruct lines; [now left | now right].
    - destruct (is_time_inv t Ht) as (_ & _ & a & t' & -> & _). discriminate.
    - now apply m_time_time. }
  rewrite Hs. cbn [drop]. rewrite ?drop_0. clear Hs Hl.
  induction lines as [|[t r] lines IH]; [reflexivity|].
  cbn [flat_map app pair_up map fst snd]. now rewrite IH.
Qed.

Lemma well_formed_inv (r : row) :
  well_formed r = true ->
  exists t p d e, r = (t, p, d, e) /\ is_time t = true /\ forallb is_upper p = true
                  /\ direction_ok d = true /\ is_digits e = true
                  /\ (length e <=? int_max_str_digits)%nat = true.
Proof.
  destruct r as [[[t p] d] e]. unfold well_formed.
  intros H. apply andb_prop in H as [H Hcap].
  apply andb_prop in H as [H He]. apply andb_prop in H as [H Hd].
  apply andb_prop in H as [Ht Hp]. now exists t, p, d, e.
Qed.

Lemma ended_parses (r : row) (w : str) :
  well_formed r = true -> forallb is_space w = true ->
  parse_signal (ended (r, w)) = Some (row_signal r).
Proof.
  intros (t & p & d & e & -> & Ht & Hp & Hd & He & Hcap)%well_formed_inv Hw.
  unfold ended, row_text, row_time, row_rest, row_signal. cbn [fst snd].
  pose proof (parse_of_canonical t p d e Ht Hp Hd He _
                (clean_one_separator [] t (lit ";") p (lit ";") d (lit ";") e w
                   eq_refl Hw Ht Hp Hd He eq_refl eq_refl eq_refl)) as Hparse.
  rewrite Hcap in Hparse. exact Hparse.
Qed.

Lemma row_rest_no_colon (r : row) (w : str) :
  well_formed r = true -> forallb is_space w = true ->
  contains ":" (row_rest r ++ w) = false.
Proof.
  intros (t & p & d & e & -> & Ht & Hp & Hd & He & _)%well_formed_inv Hw.
  destruct (direction_shape d Hd) as (Hdu & _).
  destruct (is_digits_inv e He) as (_ & Hed).
  assert (contains ":" w = false) as Hcw.
  { apply contains_none. apply (forallb_impl is_space); [|exact Hw].
    intros c Hc. apply negb_true_iff. destruct (chr_eqb c ":") eqn:E; [|reflexivity].
    apply chr_eqb_eq in E as ->. discriminate Hc. }
  unfold row_rest, contains. cbn [app existsb].
  repeat (rewrite !existsb_app; cbn [existsb]).
  fold (contains ":" p) (contains ":" d) (contains ":" e) (contains ":" w).
  rewrite (uppers_without ":" p), (uppers_without ":" d), (digits_without ":" e), Hcw;
    auto.
Qed.

Lemma ended_rows_lines (l : list (row * str)) :
  ended_ok l = true ->
  lines_ok (map (fun rw => (row_time (fst rw), row_rest (fst rw) ++ snd rw)) l) = true
  /\ signals_of (map ended l) = map (fun rw => row_signal (fst rw)) l.
Proof.
  induction l as [|[r w] l IH]; intros Hok; [now split|].
  cbn [ended_ok fst snd] in Hok.
  apply andb_prop in Hok as [Hok Hl]. apply andb_prop in Hok as [Hok Hlast].
  apply andb_prop in Hok as [Hr Hw].
  destruct (IH Hl) as [IH1 IH2]. split.
  - cbn [map lines_ok fst snd]. rewrite IH1, andb_true_r.
    rewrite (row_rest_no_colon r w Hr Hw). cbn [negb]. rewrite andb_true_r.
    apply andb_true_intro. split.
    + now destruct (well_formed_inv r Hr) as (t & p & d & e & -> & Ht & _).
    + destruct l as [|rw l]; [reflexivity|]. cbn [map].
      destruct w as [|c w]; [discriminate|].
      destruct (exists_last (l := c :: w) ltac:(discriminate)) as (w' & z & Ez).
      rewrite Ez in Hw |- *. rewrite forallb_app in Hw.
      apply andb_prop in Hw as [_ Hz]. cbn in Hz. rewrite andb_true_r in Hz.
      unfold ends_plain. rewrite app_assoc, last_snoc.
      now destruct (gap_facts z ltac:(unfold gap_char; now rewrite Hz)) as (_ & -> & _).
  - unfold signals_of. cbn [map flat_map]. rewrite (ended_parses r w Hr Hw).
    cbn [app]. f_equal. exact IH2.
Qed.

(** Signals written out one after the other, with blanks after each but
    possibly the last, are all read back from the text. *)
Lemma ended_rows_read_back (l : list (row * str)) :
  ended_ok l = true ->
  parse_signals_from_text (concat (map ended l))
  = Ok (map (fun rw => row_signal (fst rw)) l).
Proof.
  intros Hok. destruct (ended_rows_lines l Hok) as [Hlines Hsigs].
  rewrite text_signals.
  assert (map ended l
          = map (fun x : str * str => fst x ++ snd x)
                (map (fun rw => (row_time (fst rw), row_rest (fst rw) ++ snd rw)) l))
    as Hmap.
  { rewrite map_map. apply map_ext. intros [r w]. unfold ended, row_text.
    cbn [fst snd]. now rewrite <- app_assoc. }
  assert (text_lines (concat (map ended l)) = map ended l) as ->
      by (rewrite Hmap; exact (text_lines_of_lines _ Hlines)).
  now rewrite Hsigs.
Qed.

Lemma with_blank_ok (rows : list row) :
  forallb well_formed rows = true ->
  ended_ok (with_blank rows) = true
  /\ concat (map ended (with_blank rows)) = join (lit " ") (map row_text rows)
  /\ map (fun rw => row_signal (fst rw)) (with_blank rows) = map row_signal rows.
Proof.
  induction rows as [|r rows IH]; intros Hw; [now repeat split|].
  cbn [forallb] in Hw. apply andb_prop in Hw as [Hr Hw].
  destruct (IH Hw) as (IH1 & IH2 & IH3).
  destruct rows as [|r' rows].
  - cbn [with_blank ended_ok map concat join fst snd forallb]. rewrite Hr.
    repeat split. unfold ended. cbn [fst snd]. now rewrite !app_nil_r.
  - change (with_blank (r :: r' :: rows))
      with ((r, lit " ") :: with_blank (r' :: rows)).
    split; [|split].
    + cbn [ended_ok fst snd]. rewrite Hr, IH1. now destruct rows.
    + cbn [map concat]. rewrite IH2. unfold ended at 1. cbn [fst snd map join].
      now rewrite <- app_assoc.
    + cbn [map fst]. f_equal. exact IH3.
Qed.

Lemma with_newline_ok (rows : list row) :
  forallb well_formed rows = true ->
  ended_ok (map (fun r => (r, [ascii_of_N 10])) rows) = true.
Proof.
  induction rows as [|r rows IH]; intros Hw; [reflexivity|].
  cbn [forallb] in Hw. apply andb_prop in Hw as [Hr Hw].
  cbn [map ended_ok fst snd]. rewrite Hr, (IH Hw). now destruct (map _ rows).
Qed.

Lemma row_line_ended (r : row) : row_line r = ended (r, [ascii_of_N 10]).
Proof. now destruct r as [[[t p] d] e]. Qed.

End TextLines.

(** X16.  [parse_signals_from_text] never fails: it returns, in their order,
    the signals of the lines made of each time of the text and the text up
    to the next time.  These lines, after the text in front of the first
    time, make up the whole text, and every line starts with a time. *)
Theorem text_is_cut_at_its_times (text : str) :
  parse_signals_from_text text = Ok (signals_of (text_lines text))
  /\ (exists head, text = head ++ concat (text_lines text))
  /\ Forall (fun line => exists t rest, line = t ++ rest /\ is_time t = true)
            (text_lines text).
Proof.
  split; [apply text_signals|]. split.
  - pose proof (re_split_concat m_time text m_time_ok) as Hc.
    destruct (length_re_split_odd m_time text) as [h Hh].
    unfold text_lines. destruct (re_split m_time text) as [|g l]; [discriminate|].
    exists g. cbn [drop]. rewrite ?drop_0. cbn [length] in Hh.
    rewrite (pair_up_concat h l) by lia. now rewrite <- Hc.
  - unfold text_lines, re_split.
    apply (pair_up_heads (fun t => is_time t = true)).
    eapply Forall_impl; [apply (re_scan_hits_match m_time)|].
    intros [c|h]; [easy|]. intros [s' Hs']. exact (m_time_is_time s' h Hs').
Qed.

(** X17.  Signals written out as [time;pair;direction;expiry] - the time as
    H:MM or HH:MM, the pair in capitals, the direction CALL or PUT, the
    expiry in one to 4300 digits - are all read back, in their order: from a
    text block with one signal per line, from the lines of a file, and from
    the words of a command joined by single blanks. *)
Theorem written_signals_are_read_back (rows : list row) :
  forallb well_formed rows = true ->
  parse_signals_from_text (concat (map row_line rows)) = Ok (map row_signal rows)
  /\ parse_signals_from_file (Ok (map row_line rows)) = map row_signal rows
  /\ parse_signals_from_text (join (lit " ") (map row_text rows))
     = Ok (map row_signal rows).
Proof.
  intros Hw.
  pose proof (with_newline_ok rows Hw) as Hnl.
  assert (map row_line rows = map ended (map (fun r => (r, [ascii_of_N 10])) rows))
    as Hlines by (rewrite map_map; apply map_ext, row_line_ended).
  split; [|split].
  - rewrite Hlines, (ended_rows_read_back _ Hnl). now rewrite map_map.
  - unfold parse_signals_from_file. rewrite fold_parse_lines. cbn [app].
    rewrite Hlines. destruct (ended_rows_lines _ Hnl) as [_ ->].
    now rewrite map_map.
  - destruct (with_blank_ok rows Hw) as (Hok & <- & <-).
    now apply ended_rows_read_back.
Qed.

Lemma written_signals_are_read_back_witness :
  parse_signals_from_text
    (lit "03:40;EURAUD;CALL;5" ++ [ascii_of_N 10] ++ lit "9:05;EURUSD;PUT;15"
         ++ [ascii_of_N 10])
  = Ok [mkSignal (lit "03:40") (lit "EURAUD") (lit "CALL") 5;
        mkSignal (lit "9:05") (lit "EURUSD") (lit "PUT") 15]
  /\ parse_signals_from_file
       (Ok [lit "03:40;EURAUD;CALL;5" ++ [ascii_of_N 10];
            lit "9:05;EURUSD;PUT;15" ++ [ascii_of_N 10]])
     = [mkSignal (lit "03:40") (lit "EURAUD") (lit "CALL") 5;
        mkSignal (lit "9:05") (lit "EURUSD") (lit "PUT") 15]
  /\ parse_signals_from_text (lit "03:40;EURAUD;CALL;5 9:05;EURUSD;PUT;15")
     = Ok [mkSignal (lit "03:40") (lit "EURAUD") (lit "CALL") 5;
           mkSignal (lit "9:05") (lit "EURUSD") (lit "PUT") 15].
Proof.
  exact (written_signals_are_read_back
           [(lit "03:40", lit "EURAUD", lit "CALL", lit "5");
            (lit "9:05", lit "EURUSD", lit "PUT", lit "15")] eq_refl).
Defined.

Section Scheduling.

Lemma digit_not_sign (c : ascii) :
  is_digit c = true -> chr_eqb c "-" = false /\ chr_eqb c "+" = false.
Proof.
  destruct c as [[] [] [] [] [] [] [] []]; intros H;
    try (vm_compute in H; discriminate H); split; reflexivity.
Qed.

Lemma grouped_digits_plain (ds : str) :
  forallb is_digit ds = true -> grouped_digits true ds = Some ds.
Proof.
  induction ds as [|c ds IH]; [reflexivity|].
  cbn [forallb grouped_digits]. intros [Hc Hs]%andb_prop.
  now rewrite Hc, (IH Hs).
Qed.

Lemma grouped_digits_whole (ds : str) :
  is_digits ds = true -> grouped_digits false ds = Some ds.
Proof.
  destruct ds as [|c ds]; [discriminate|].
  cbn [is_digits forallb grouped_digits]. intros [Hc Hs]%andb_prop.
  now rewrite Hc, (grouped_digits_plain ds Hs).
Qed.

Lemma digit_not_int_space (c : ascii) : is_digit c = true -> is_int_space c = false.
Proof.
  destruct c as [[] [] [] [] [] [] [] []]; intros H;
    try (vm_compute in H; discriminate H); reflexivity.
Qed.

(** A text that neither starts nor ends with a blank is left as it is. *)
Lemma int_blanks_none (a z : ascii) (m : str) :
  is_int_space a = false -> last (a :: m) = Some z -> is_int_space z = false ->
  rev (drop_while is_int_space (rev (drop_while is_int_space (a :: m)))) = a :: m.
Proof.
  intros Ha Hl Hz. cbn [drop_while]. rewrite Ha.
  apply last_Some in Hl as [l' Hl]. rewrite Hl, rev_app_distr. cbn [rev app].
  cbn [drop_while]. rewrite Hz. cbn [rev]. now rewrite rev_involutive.
Qed.

Lemma int_of_text_capped (ds : str) :
  is_digits ds = true ->
  int_of_text (string_of_list_ascii ds)
  = if (length ds <=? int_max_str_digits)%nat
    then Ok (int_of_digits ds) else Raise ValueError.
Proof.
  intros Hd. destruct (is_digits_inv ds Hd) as (Hne & Hall).
  unfold int_of_text. rewrite list_ascii_of_string_of_list_ascii.
  destruct ds as [|a m]; [easy|].
  pose proof Hall as Ha. cbn [forallb] in Ha. apply andb_prop in Ha as [Ha _].
  destruct (last_of_all is_digit (a :: m) Hne Hall) as (z & Hl & Hz).
  rewrite (int_blanks_none a z m (digit_not_int_space a Ha) Hl (digit_not_int_space z Hz)).
  destruct (digit_not_sign a Ha) as (-> & ->).
  now rewrite (grouped_digits_whole (a :: m) Hd).
Qed.

Lemma int_of_text_digits (ds : str) :
  is_digits ds = true -> (length ds <= int_max_str_digits)%nat ->
  int_of_text (string_of_list_ascii ds) = Ok (int_of_digits ds).
Proof.
  intros Hd Hlen. rewrite (int_of_text_capped ds Hd).
  now apply Nat.leb_le in Hlen as ->.
Qed.

Lemma hour_minute_written (t : str) :
  is_time t = true ->
  hour_minute t = Ok (written_hour t, written_minute t)
  /\ 0 <= written_hour t <= 99 /\ 0 <= written_minute t <= 99.
Proof.
  unfold is_time.
  destruct t as [|a [|b [|c [|d [|e [|f t]]]]]]; try discriminate; intros H.
  - apply andb_prop in H as [H Hd]. apply andb_prop in H as [H Hc].
    apply andb_prop in H as [Ha Hb]. apply chr_eqb_eq in Hb as ->.
    destruct (digit_facts a Ha) as (_ & _ & _ & _ & Ea & _).
    destruct (digit_facts c Hc) as (_ & _ & _ & _ & Ec & _).
    destruct (digit_facts d Hd) as (_ & _ & _ & _ & Ed & _).
    pose proof (digit_val_bounds a Ha). pose proof (digit_val_bounds c Hc).
    pose proof (digit_val_bounds d Hd).
    cbn [written_hour written_minute].
    split; [|lia].
    unfold hour_minute. cbn [split_on]. rewrite Ea, Ec, Ed, chr_eqb_refl.
    rewrite !int_of_text_digits
      by (first [cbn; now rewrite ?Ha, ?Hc, ?Hd | cbn; unfold int_max_str_digits; lia]).
    cbn [rbind]. unfold int_of_digits. cbn [fold_left]. do 2 f_equal; lia.
  - apply andb_prop in H as [H He]. apply andb_prop in H as [H Hd].
    apply andb_prop in H as [H Hc]. apply andb_prop in H as [Ha Hb].
    apply chr_eqb_eq in Hc as ->.
    destruct (digit_facts a Ha) as (_ & _ & _ & _ & Ea & _).
    destruct (digit_facts b Hb) as (_ & _ & _ & _ & Eb & _).
    destruct (digit_facts d Hd) as (_ & _ & _ & _ & Ed & _).
    destruct (digit_facts e He) as (_ & _ & _ & _ & Ee & _).
    pose proof (digit_val_bounds a Ha). pose proof (digit_val_bounds b Hb).
    pose proof (digit_val_bounds d Hd). pose proof (digit_val_bounds e He).
    cbn [written_hour written_minute].
    split; [|lia].
    unfold hour_minute. cbn [split_on]. rewrite Ea, Eb, Ed, Ee, chr_eqb_refl.
    rewrite !int_of_text_digits
      by (first [cbn; now rewrite ?Ha, ?Hb, ?Hd, ?He | cbn; unfold int_max_str_digits; lia]).
    cbn [rbind]. unfold int_of_digits. cbn [fold_left]. do 2 f_equal; lia.
Qed.

Lemma hour_minute_time (t : str) :
  is_time t = true ->
  exists hh mm, hour_minute t = Ok (hh, mm) /\ 0 <= hh <= 99 /\ 0 <= mm <= 99.
Proof.
  intros (H & Hh & Hm)%hour_minute_written.
  exists (written_hour t), (written_minute t). repeat split; try exact H; lia.
Qed.

Lemma day_offset (now off : Z) :
  0 <= off < day_us ->
  (now - now mod day_us + off) mod day_us = off
  /\ (now - now mod day_us + off + day_us) mod day_us = off.
Proof.
  intros Hoff. pose proof (Z.div_mod now day_us ltac:(discriminate)) as Hdm.
  split; symmetry.
  - apply (Zmod_unique _ _ (now / day_us)); [exact Hoff | lia].
  - apply (Zmod_unique _ _ (now / day_us + 1)); [exact Hoff | lia].
Qed.

Lemma schedule_in_day (now : Z) (sig : Signal) (hh mm : Z) :
  hour_minute (sig_time sig) = Ok (hh, mm) ->
  0 <= hh <= 23 -> 0 <= mm <= 59 ->
  exists s, schedule_signal now sig = Ok s
            /\ now <= sched_time s < now + day_us
            /\ sched_time s mod day_us = (hh * 3600 + mm * 60) * 1000000
            /\ sched_time s
               = now - now mod day_us + (hh * 3600 + mm * 60) * 1000000
                 + (if (hh * 3600 + mm * 60) * 1000000 <? now mod day_us
                    then day_us else 0)
            /\ sched_pair s = sig_pair sig
            /\ sched_direction s = sig_direction sig
            /\ sched_expiry s = sig_expiry sig.
Proof.
  intros Hhm Hh Hm. unfold schedule_signal. rewrite Hhm. cbn [rbind fst snd].
  unfold replace_time.
  assert ((0 <=? hh) && (hh <=? 23) = true) as ->
      by (apply andb_true_intro; split; apply Z.leb_le; lia).
  assert ((0 <=? mm) && (mm <=? 59) = true) as ->
      by (apply andb_true_intro; split; apply Z.leb_le; lia).
  cbn [negb rbind]. eexists. split; [reflexivity|].
  cbn [sched_time sched_pair sched_direction sched_expiry].
  pose proof (Z.mod_pos_bound now day_us ltac:(reflexivity)) as Hb.
  assert (0 <= (hh * 3600 + mm * 60) * 1000000 < day_us) as Hoff
      by (unfold day_us; lia).
  destruct (day_offset now _ Hoff) as [E1 E2].
  set (off := (hh * 3600 + mm * 60) * 1000000) in *.
  destruct (now - now mod day_us + off <? now) eqn:E;
    [apply Z.ltb_lt in E | apply Z.ltb_ge in E].
  - assert ((off <? now mod day_us) = true) as -> by (apply Z.ltb_lt; lia).
    repeat split; try lia; reflexivity.
  - assert ((off <? now mod day_us) = false) as -> by (apply Z.ltb_ge; lia).
    repeat split; try lia; reflexivity.
Qed.

Lemma schedule_out_of_day (now : Z) (sig : Signal) (hh mm : Z) :
  hour_minute (sig_time sig) = Ok (hh, mm) ->
  (hh <=? 23) && (mm <=? 59) = false ->
  schedule_signal now sig = Raise ValueError.
Proof.
  intros Hhm Hr. unfold schedule_signal. rewrite Hhm. cbn [rbind fst snd].
  unfold replace_time.
  destruct (hh <=? 23); cbn [andb] in Hr.
  - rewrite Hr. rewrite !andb_false_r. cbn [negb].
    now destruct (negb ((0 <=? hh) && true)).
  - now rewrite andb_false_r.
Qed.

End Scheduling.

(** X18.  A signal whose time reads H:MM or HH:MM is scheduled by the hour
    and the minute its digits write - the hour is the number in front of the
    colon, the minute the number after it.  With an hour up to 23 and a
    minute up to 59 it is scheduled at the next moment whose time of day is
    that hour and minute with zero seconds: not before the reading of the
    clock and less than a day after it, the same day unless that moment has
    passed - by a microsecond or more - and the next day otherwise; its
    pair, direction and expiry are kept.  With an hour above 23 or a minute
    above 59 the conversion raises ValueError. *)
Theorem signal_is_scheduled_within_a_day (now : Z) (sig : Signal) :
  is_time (sig_time sig) = true ->
  hour_minute (sig_time sig)
  = Ok (written_hour (sig_time sig), written_minute (sig_time sig))
  /\ 0 <= written_hour (sig_time sig) <= 99
  /\ 0 <= written_minute (sig_time sig) <= 99
  /\ if (written_hour (sig_time sig) <=? 23) && (written_minute (sig_time sig) <=? 59)
     then exists s,
         schedule_signal now sig = Ok s
         /\ now <= sched_time s < now + day_us
         /\ sched_time s mod day_us = written_offset (sig_time sig)
         /\ sched_time s
            = now - now mod day_us + written_offset (sig_time sig)
              + (if written_offset (sig_time sig) <? now mod day_us
                 then day_us else 0)
         /\ sched_pair s = sig_pair sig
         /\ sched_direction s = sig_direction sig
         /\ sched_expiry s = sig_expiry sig
     else schedule_signal now sig = Raise ValueError.
Proof.
  intros Ht. destruct (hour_minute_written _ Ht) as (Hhm & Hh & Hm).
  split; [exact Hhm|]. split; [exact Hh|]. split; [lia|].
  destruct ((written_hour (sig_time sig) <=? 23)
            && (written_minute (sig_time sig) <=? 59)) eqn:E.
  - apply andb_prop in E as [E1 E2]. apply Z.leb_le in E1, E2.
    unfold written_offset. apply (schedule_in_day now sig _ _ Hhm); lia.
  - now apply (schedule_out_of_day now sig _ _ Hhm).
Qed.

Lemma signal_is_scheduled_within_a_day_witness :
  hour_minute (lit "10:30") = Ok (10, 30)
  /\ schedule_signal 37805000000 (mkSignal (lit "10:30") (lit "EURUSD") (lit "PUT") 5)
     = Ok (mkScheduled 124200000000 (lit "EURUSD") (lit "PUT") 5)
  /\ hour_minute (lit "9:05") = Ok (9, 5)
  /\ schedule_signal 37805000000 (mkSignal (lit "9:05") (lit "EURUSD") (lit "PUT") 5)
     = Ok (mkScheduled 119100000000 (lit "EURUSD") (lit "PUT") 5).
Proof.
  pose proof (signal_is_scheduled_within_a_day 37805000000
                (mkSignal (lit "10:30") (lit "EURUSD") (lit "PUT") 5) eq_refl)
    as (H1 & _ & _ & _).
  pose proof (signal_is_scheduled_within_a_day 37805000000
                (mkSignal (lit "9:05") (lit "EURUSD") (lit "PUT") 5) eq_refl)
    as (H2 & _ & _ & _).
  repeat split; first [exact H1 | exact H2 | vm_compute; reflexivity].
Defined.

Section TaskOrder.

Local Abbreviation at_time k := (fun s : Scheduled => sched_time s =? k).

Lemma group_lookup (ss : list Scheduled) :
  forall (g : gmap Z (list Scheduled)) (k : Z),
    fold_left group_add ss g !!! k = g !!! k ++ List.filter (at_time k) ss.
Proof.
  induction ss as [|s ss IH]; intros g k; cbn [fold_left List.filter].
  - now rewrite app_nil_r.
  - rewrite IH. unfold group_add. rewrite lookup_total_insert.
    destruct (decide (sched_time s = k)) as [->|Hne].
    + rewrite Z.eqb_refl. now rewrite <- app_assoc.
    + apply Z.eqb_neq in Hne. now rewrite Hne.
Qed.

Lemma group_dom (ss : list Scheduled) :
  forall (g : gmap Z (list Scheduled)) (k : Z),
    k ∈ dom (fold_left group_add ss g)
    <-> k ∈ dom g \/ exists s, In s ss /\ sched_time s = k.
Proof.
  induction ss as [|s ss IH]; intros g k; cbn [fold_left].
  - split; [now left|]. now intros [H | (s & [] & _)].
  - rewrite IH. unfold group_add. rewrite dom_insert, elem_of_union,
      elem_of_singleton.
    split.
    + intros [[-> | H] | (s' & Hs' & Hk)].
      * right. exists s. split; [now left | reflexivity].
      * now left.
      * right. exists s'. split; [now right | exact Hk].
    + intros [H | (s' & [<- | Hs'] & Hk)].
      * left. now right.
      * left. now left.
      * right. now exists s'.
Qed.

Lemma flat_map_nil {A B : Type} (l : list A) :
  flat_map (fun _ : A => @nil B) l = [].
Proof. induction l as [|x l IH]; [reflexivity | exact IH]. Qed.

Lemma filter_flat_map {A B : Type} (p : B -> bool) (f : A -> list B) (l : list A) :
  List.filter p (flat_map f l) = flat_map (fun x => List.filter p (f x)) l.
Proof.
  induction l as [|x l IH]; [reflexivity|].
  cbn [flat_map]. now rewrite List.filter_app, IH.
Qed.

Lemma filter_at_twice (k k' : Z) (ss : list Scheduled) :
  List.filter (at_time k) (List.filter (at_time k') ss)
  = if k =? k' then List.filter (at_time k) ss else [].
Proof.
  induction ss as [|s ss IH]; cbn [List.filter]; [now destruct (k =? k')|].
  destruct (sched_time s =? k') eqn:E'; cbn [List.filter]; rewrite IH.
  - apply Z.eqb_eq in E'. subst k'. rewrite (Z.eqb_sym k).
    now destruct (sched_time s =? k).
  - destruct (k =? k') eqn:E; [|reflexivity].
    apply Z.eqb_eq in E. subst k'. now rewrite E'.
Qed.

Lemma one_bucket {A : Type} (k : Z) (x : list A) (keys : list Z) :
  NoDup keys ->
  flat_map (fun k' => if k =? k' then x else []) keys
  = if bool_decide (k ∈ keys) then x else [].
Proof.
  induction 1 as [|k0 keys Hk0 Hnd IH]; [reflexivity|].
  cbn [flat_map]. rewrite IH.
  destruct (k =? k0) eqn:E.
  - apply Z.eqb_eq in E. subst k0.
    rewrite (bool_decide_eq_true_2 (k ∈ k :: keys)) by apply list_elem_of_here.
    rewrite (bool_decide_eq_false_2 (k ∈ keys)) by exact Hk0.
    apply app_nil_r.
  - apply Z.eqb_neq in E. cbn [app].
    destruct (bool_decide (k ∈ keys)) eqn:B.
    + apply bool_decide_eq_true_1 in B.
      now rewrite bool_decide_eq_true_2 by now apply list_elem_of_further.
    + apply bool_decide_eq_false_1 in B.
      rewrite bool_decide_eq_false_2; [reflexivity|].
      intros [Heq | Hin]%elem_of_cons; [congruence | contradiction].
Qed.

Section Buckets.

Variable ss : list Scheduled.
Variable keys : list Z.
Hypothesis keys_distinct : NoDup keys.
Hypothesis keys_cover : forall s, In s ss -> sched_time s ∈ keys.

Local Abbreviation buckets :=
  (flat_map (fun k => List.filter (at_time k) ss) keys).

Lemma buckets_keep_order (k : Z) :
  List.filter (at_time k) buckets = List.filter (at_time k) ss.
Proof.
  rewrite filter_flat_map.
  rewrite (flat_map_ext _ (fun k' => if k =? k' then List.filter (at_time k) ss else []))
    by (intros k'; apply filter_at_twice).
  rewrite one_bucket by exact keys_distinct.
  destruct (bool_decide (k ∈ keys)) eqn:B; [reflexivity|].
  apply bool_decide_eq_false_1 in B. symmetry.
  clear keys_distinct. induction ss as [|s l IH]; [reflexivity|].
  cbn [List.filter].
  destruct (sched_time s =? k) eqn:E.
  - apply Z.eqb_eq in E. subst k. destruct B. apply keys_cover. now left.
  - apply IH. intros s' Hs'. apply keys_cover. now right.
Qed.

Lemma buckets_ascend :
  StronglySorted Z.le keys ->
  StronglySorted (fun a b => sched_time a <= sched_time b) buckets.
Proof.
  clear keys_distinct keys_cover.
  induction 1 as [|k0 keys' Hs IH Hall]; [constructor|].
  cbn [flat_map]. apply StronglySorted_app_2; [| |exact IH].
  - intros x1 x2 [_ H1%Z.eqb_eq]%list_elem_of_In%filter_In
      (k & Hk & [_ H2%Z.eqb_eq]%filter_In)%list_elem_of_In%in_flat_map.
    rewrite H1, H2. rewrite Forall_forall in Hall. apply Hall.
    now apply list_elem_of_In.
  - assert (forall l, Forall (fun s => sched_time s = k0) l ->
                      StronglySorted (fun a b => sched_time a <= sched_time b) l)
      as Hsame.
    { induction 1 as [|x l Hx Hl IHl]; constructor; [exact IHl|].
      eapply Forall_impl; [exact Hl|]. cbn. intros y Hy. lia. }
    apply Hsame. apply Forall_forall. intros x Hx%list_elem_of_In%filter_In.
    now apply Z.eqb_eq.
Qed.

End Buckets.

Lemma flat_map_same {A B : Type} (f g : A -> list B) (l : list A) :
  (forall x, In x l -> f x = g x) -> flat_map f l = flat_map g l.
Proof.
  induction l as [|x l IH]; intros H; [reflexivity|].
  cbn [flat_map]. rewrite (H x (or_introl eq_refl)), IH; [reflexivity|].
  intros y Hy. apply H. now right.
Qed.

Lemma insert_in_bucket {A : Type} (key : A -> Z) (x : A) (f : Z -> list A)
      (keys : list Z) :
  NoDup keys -> key x ∈ keys ->
  Permutation (flat_map (fun k => if key x =? k then x :: f k else f k) keys)
              (x :: flat_map f keys).
Proof.
  induction 1 as [|k0 keys Hk0 Hnd IH]; intros Hin.
  - now apply elem_of_nil in Hin.
  - cbn [flat_map]. destruct (key x =? k0) eqn:E.
    + apply Z.eqb_eq in E. cbn [app]. constructor.
      apply Permutation_app_head.
      rewrite (flat_map_same _ f); [reflexivity|].
      intros k Hk. destruct (key x =? k) eqn:E'; [|reflexivity].
      apply Z.eqb_eq in E'. destruct Hk0. rewrite <- E, E'.
      now apply list_elem_of_In.
    + apply Z.eqb_neq in E. apply elem_of_cons in Hin as [Heq | Hin]; [congruence|].
      rewrite (IH Hin). symmetry. apply Permutation_middle.
Qed.

Lemma buckets_permutation (keys : list Z) :
  NoDup keys ->
  forall ss : list Scheduled,
    (forall s, In s ss -> sched_time s ∈ keys) ->
    Permutation (flat_map (fun k => List.filter (at_time k) ss) keys) ss.
Proof.
  intros Hnd. induction ss as [|s ss IH]; intros Hcover.
  - cbn [List.filter]. now rewrite flat_map_nil.
  - cbn [List.filter].
    rewrite (insert_in_bucket sched_time s (fun k => List.filter (at_time k) ss) keys
               Hnd (Hcover s (or_introl eq_refl))).
    constructor. apply IH. intros s' Hs'. apply Hcover. now right.
Qed.

Lemma sorted_keys (ss : list Scheduled) :
  let keys := merge_sort Z.le (elements (dom (group_by_time ss) : gset Z)) in
  NoDup keys /\ StronglySorted Z.le keys
  /\ (forall s, In s ss -> sched_time s ∈ keys)
  /\ trade_tasks ss = flat_map (fun k => List.filter (at_time k) ss) keys.
Proof.
  intros keys.
  assert (Permutation keys (elements (dom (group_by_time ss) : gset Z))) as Hp
      by apply merge_sort_Permutation.
  split; [|split; [|split]].
  - rewrite Hp. apply NoDup_elements.
  - apply StronglySorted_merge_sort; apply _.
  - intros s Hs. rewrite Hp. apply elem_of_elements.
    unfold group_by_time. apply group_dom. right. now exists s.
  - unfold trade_tasks. cbv zeta. fold keys. apply flat_map_ext. intros k.
    unfold group_by_time. rewrite group_lookup.
    now rewrite lookup_total_empty.
Qed.

Lemma trade_tasks_permutation (ss : list Scheduled) :
  Permutation (trade_tasks ss) ss.
Proof.
  destruct (sorted_keys ss) as (Hnd & _ & Hcover & ->).
  now apply buckets_permutation.
Qed.

End TaskOrder.

(** X19.  The trade tasks are created in ascending order of their scheduled
    times, the signals of one time in the order they were given: every
    signal gets exactly one task and none is added. *)
Theorem tasks_follow_the_schedule (ss : list Scheduled) :
  Permutation (trade_tasks ss) ss
  /\ length (trade_tasks ss) = length ss
  /\ StronglySorted (fun a b => sched_time a <= sched_time b) (trade_tasks ss)
  /\ (forall k, List.filter (fun s => sched_time s =? k) (trade_tasks ss)
                = List.filter (fun s => sched_time s =? k) ss).
Proof.
  pose proof (trade_tasks_permutation ss) as Hp.
  split; [exact Hp|]. split; [now apply Permutation_length|].
  destruct (sorted_keys ss) as (Hnd & Hsorted & Hcover & ->).
  split; [now apply buckets_ascend|].
  intros k. now apply buckets_keep_order.
Qed.

Section Batch.

Lemma lstrip_head_solid (y : str) (c : ascii) (r : str) :
  lstrip y = c :: r -> is_space c = false.
Proof.
  induction y as [|x y IH]; [discriminate|]. cbn [lstrip].
  destruct (is_space x) eqn:E; [exact IH|]. now intros [= <- _].
Qed.

Lemma strip_ends_solid (x : str) (z : ascii) :
  last (strip x) = Some z -> is_space z = false.
Proof.
  unfold strip, rstrip. intros Hl.
  destruct (lstrip (rev (lstrip x))) as [|c r] eqn:E; [discriminate|].
  cbn [rev] in Hl. rewrite last_snoc in Hl. injection Hl as <-.
  exact (lstrip_head_solid _ _ _ E).
Qed.

Lemma newline_is_space (c : ascii) : (code c =? 10)%N = true -> is_space c = true.
Proof.
  intros H%N.eqb_eq. unfold is_space, in_range. now rewrite H.
Qed.

Lemma time_format_is_time (s : str) :
  time_format_ok s = true ->
  (forall z, last s = Some z -> is_space z = false) ->
  is_time s = true.
Proof.
  intros H Hl. unfold time_format_ok in H. unfold is_time.
  destruct s as [|a [|b [|c [|d [|e [|f [|g s]]]]]]]; try discriminate;
    cbn [at_dollar] in H.
  - destruct (is_digit a), (is_digit b), (chr_eqb b ":"); discriminate.
  - destruct (is_digit a), (is_digit b), (chr_eqb b ":"); discriminate.
  - destruct (is_digit a), (is_digit b), (chr_eqb b ":"), (is_digit c), (is_digit d);
      cbn [andb orb] in H |- *; congruence.
  - specialize (Hl e eq_refl).
    destruct (is_digit a), (is_digit b), (chr_eqb b ":"), (chr_eqb c ":"),
      (is_digit c), (is_digit d), (is_digit e);
      cbn [andb orb] in H |- *; try reflexivity; try discriminate;
      rewrite ?orb_false_r, ?andb_true_r in H;
      apply newline_is_space in H; congruence.
  - specialize (Hl f eq_refl).
    destruct (is_digit a), (is_digit b), (chr_eqb b ":"), (chr_eqb c ":"),
      (is_digit c), (is_digit d), (is_digit e);
      cbn [andb orb] in H |- *; try discriminate;
      rewrite ?orb_false_r, ?andb_true_r in H;
      apply newline_is_space in H; congruence.
  - destruct (is_digit a), (is_digit b), (chr_eqb b ":"), (chr_eqb c ":"),
      (is_digit c), (is_digit d), (is_digit e);
      cbn [andb orb] in H |- *; discriminate.
Qed.

Lemma parsed_time_is_time (line : str) (sig : Signal) :
  parse_signal line = Some sig -> is_time (sig_time sig) = true.
Proof.
  rewrite parse_signal_spec.
  destruct (line_accepted line) eqn:Hacc; [|discriminate].
  intros [= <-]. cbn [sig_time]. unfold line_accepted in Hacc.
  apply andb_prop in Hacc as [Hacc _]. apply andb_prop in Hacc as [Hacc _].
  apply andb_prop in Hacc as [_ Htime].
  apply time_format_is_time; [exact Htime|]. apply strip_ends_solid.
Qed.

Lemma in_day_spec (t : str) (hh mm : Z) :
  is_time t = true ->
  hour_minute t = Ok (hh, mm) -> in_day t = (hh <=? 23) && (mm <=? 59).
Proof.
  intros (H & _)%hour_minute_written. rewrite H. now intros [= <- <-].
Qed.

Lemma schedule_all_in_day (clock : nat -> Z) (sigs : list Signal) :
  Forall (fun sig => is_time (sig_time sig) = true) sigs ->
  forallb (fun sig => in_day (sig_time sig)) sigs = true ->
  forall k, exists ss,
      schedule_all clock k sigs = Ok ss
      /\ Forall2 (fun sig s => sched_pair s = sig_pair sig
                               /\ sched_direction s = sig_direction sig
                               /\ sched_expiry s = sig_expiry sig)
                 sigs ss
      /\ Forall (fun s => exists j, (k <= j < k + length sigs)%nat
                                    /\ clock j <= sched_time s < clock j + day_us) ss.
Proof.
  induction 1 as [|sig sigs Ht Hts IH]; intros Hd k.
  - exists []. split; [reflexivity|]. split; constructor.
  - cbn [forallb] in Hd. apply andb_prop in Hd as [Hd Hds].
    destruct (hour_minute_time _ Ht) as (hh & mm & Hhm & Hh & Hm).
    rewrite (in_day_spec _ hh mm Ht Hhm) in Hd.
    apply andb_prop in Hd as [E1 E2]. apply Z.leb_le in E1, E2.
    destruct (schedule_in_day (clock k) sig hh mm Hhm ltac:(lia) ltac:(lia))
      as (s & Hs & Hrange & _ & _ & Hp & Hdir & He).
    destruct (IH Hds (S k)) as (ss & Hss & Hf2 & Hf).
    exists (s :: ss). cbn [schedule_all]. rewrite Hs, Hss. cbn [rbind].
    split; [reflexivity|]. split.
    + constructor; [|exact Hf2]. repeat split; assumption.
    + constructor.
      * exists k. cbn [length]. split; [lia | exact Hrange].
      * eapply Forall_impl; [exact Hf|]. cbn [length].
        intros x (j & Hj & Hx). exists j. split; [lia | exact Hx].
Qed.

Lemma schedule_all_out_of_day (clock : nat -> Z) (sigs : list Signal) :
  Forall (fun sig => is_time (sig_time sig) = true) sigs ->
  forallb (fun sig => in_day (sig_time sig)) sigs = false ->
  forall k, schedule_all clock k sigs = Raise ValueError.
Proof.
  induction 1 as [|sig sigs Ht Hts IH]; intros Hd k; [discriminate|].
  cbn [forallb] in Hd. cbn [schedule_all].
  destruct (hour_minute_time _ Ht) as (hh & mm & Hhm & Hh & Hm).
  rewrite (in_day_spec _ hh mm Ht Hhm) in Hd.
  destruct ((hh <=? 23) && (mm <=? 59)) eqn:E.
  - apply andb_prop in E as [E1 E2]. apply Z.leb_le in E1, E2.
    destruct (schedule_in_day (clock k) sig hh mm Hhm ltac:(lia) ltac:(lia))
      as (s & -> & _).
    cbn [rbind andb] in *. now rewrite (IH Hd (S k)).
  - now rewrite (schedule_out_of_day (clock k) sig hh mm Hhm E).
Qed.

End Batch.

(** X20.  For signals that came out of [parse_signal], the conversion of
    the times either succeeds for all of them or raises ValueError for the
    whole batch: when every hour is at most 23 and every minute at most 59,
    each signal gets one task with its pair, direction and expiry, scheduled
    less than a day after a reading of the clock; when one signal has an
    hour or a minute outside these ranges - which the parser lets through -
    no task is created for any signal. *)
Theorem one_bad_time_stops_the_batch (clock : nat -> Z) (sig : Signal)
        (rest : list Signal) :
  Forall (fun sig => exists line, parse_signal line = Some sig) (sig :: rest) ->
  if forallb (fun sig => in_day (sig_time sig)) (sig :: rest)
  then exists ss,
      process_and_schedule_signals clock (sig :: rest) = Ok (Some (trade_tasks ss))
      /\ Permutation (trade_tasks ss) ss
      /\ map (fun s => (sched_pair s, sched_direction s, sched_expiry s)) ss
         = map (fun sig => (sig_pair sig, sig_direction sig, sig_expiry sig))
               (sig :: rest)
      /\ Forall (fun s => exists j, (j <= length rest)%nat
                                    /\ clock j <= sched_time s < clock j + day_us) ss
  else process_and_schedule_signals clock (sig :: rest) = Raise ValueError.
Proof.
  intros Hparsed.
  assert (Forall (fun sig => is_time (sig_time sig) = true) (sig :: rest)) as Ht.
  { eapply Forall_impl; [exact Hparsed|]. cbn.
    intros x [line Hl]. exact (parsed_time_is_time line x Hl). }
  destruct (forallb (fun sig => in_day (sig_time sig)) (sig :: rest)) eqn:Hd.
  - destruct (schedule_all_in_day clock _ Ht Hd O) as (ss & Hss & Hf2 & Hf).
    exists ss. unfold process_and_schedule_signals. rewrite Hss. cbn [rbind].
    split; [reflexivity|]. split; [apply trade_tasks_permutation|]. split.
    + clear Hss Hf Hparsed Ht Hd. induction Hf2 as [|x s l l' (Hp & Hdir & He) Hf2 IH];
        [reflexivity|].
      cbn [map]. now rewrite Hp, Hdir, He, IH.
    + eapply Forall_impl; [exact Hf|]. cbn [length].
      intros x (j & Hj & Hx). exists j. split; [lia | exact Hx].
  - unfold process_and_schedule_signals.
    now rewrite (schedule_all_out_of_day clock _ Ht Hd O).
Qed.

Lemma one_bad_time_stops_the_batch_witness :
  process_and_schedule_signals (fun _ => 0)
    [mkSignal (lit "03:40") (lit "EURAUD") (lit "CALL") 5;
     mkSignal (lit "99:99") (lit "EURUSD") (lit "PUT") 7]
  = Raise ValueError.
Proof.
  refine (one_bad_time_stops_the_batch (fun _ => 0)
            (mkSignal (lit "03:40") (lit "EURAUD") (lit "CALL") 5)
            [mkSignal (lit "99:99") (lit "EURUSD") (lit "PUT") 7] _).
  constructor; [now exists (lit "03:40;EURAUD;CALL;5")|].
  constructor; [now exists (lit "99:99;eur/usd;put;x7y")|]. constructor.
Defined.

Section NumberTexts.

Lemma pretty_N_char_digit (r : N) :
  (r < 10)%N ->
  is_digit (pretty_N_char r) = true /\ digit_val (pretty_N_char r) = Z.of_N r.
Proof.
  intros Hr.
  assert (r = 0 \/ r = 1 \/ r = 2 \/ r = 3 \/ r = 4 \/ r = 5 \/ r = 6 \/ r = 7
          \/ r = 8 \/ r = 9)%N as H by lia.
  repeat (destruct H as [-> | H]; [split; reflexivity|]).
  subst r. split; reflexivity.
Qed.

Lemma int_of_digits_snoc (ds : str) (c : ascii) :
  int_of_digits (ds ++ [c]) = 10 * int_of_digits ds + digit_val c.
Proof. unfold int_of_digits. now rewrite fold_left_app. Qed.

(** The digits that [str] writes in front of [s] for the number [x]. *)
Lemma pretty_N_go_digits (x : N) :
  forall s : string, exists ds : str,
      list_ascii_of_string (pretty_N_go x s) = ds ++ list_ascii_of_string s
      /\ forallb is_digit ds = true
      /\ int_of_digits ds = Z.of_N x
      /\ ((0 < x)%N -> ds <> []).
Proof.
  induction (N.lt_wf_0 x) as [x _ IH]. intros s.
  destruct (decide (x = 0%N)) as [-> | Hx].
  - exists []. rewrite pretty_N_go_0. repeat split; try reflexivity. lia.
  - rewrite pretty_N_go_step by lia.
    destruct (IH (x `div` 10)%N ltac:(apply N.div_lt; lia)
                 (String (pretty_N_char (x `mod` 10)) s))
      as (ds & Hl & Hall & Hval & _).
    destruct (pretty_N_char_digit (x `mod` 10)%N ltac:(apply N.mod_lt; lia))
      as [Hc Hv].
    exists (ds ++ [pretty_N_char (x `mod` 10)]).
    split; [|split; [|split]].
    + rewrite Hl. cbn [list_ascii_of_string]. now rewrite <- app_assoc.
    + rewrite forallb_app, Hall. cbn. now rewrite Hc.
    + rewrite int_of_digits_snoc, Hval, Hv.
      pose proof (N.div_mod x 10 ltac:(lia)). lia.
    + intros _. now destruct ds.
Qed.

(** [int(str(z))], when it returns, returns [z]; it raises for a number of
    more than [int_max_str_digits] digits. *)
Lemma int_of_str_of_int (z n : Z) : int_of_text (str_of_int z) = Ok n -> n = z.
Proof.
  unfold str_of_int. destruct z as [|p|p].
  - intros H. vm_compute in H. now injection H as <-.
  - unfold pretty, pretty_Z, pretty, pretty_positive, pretty, pretty_N.
    destruct (decide (N.pos p = 0%N)) as [|_]; [discriminate|].
    destruct (pretty_N_go_digits (N.pos p) EmptyString)
      as (ds & Hl & Hall & Hval & Hne).
    cbn [list_ascii_of_string] in Hl. rewrite app_nil_r in Hl.
    rewrite <- (string_of_list_ascii_of_string (pretty_N_go (N.pos p) EmptyString)), Hl.
    rewrite int_of_text_capped
      by (specialize (Hne ltac:(lia)); destruct ds; [easy | exact Hall]).
    destruct (length ds <=? int_max_str_digits)%nat; [|discriminate].
    intros [= <-]. now rewrite Hval.
  - unfold pretty, pretty_Z, pretty, pretty_positive, pretty, pretty_N.
    destruct (decide (N.pos p = 0%N)) as [|_]; [discriminate|].
    destruct (pretty_N_go_digits (N.pos p) EmptyString)
      as (ds & Hl & Hall & Hval & Hne).
    cbn [list_ascii_of_string] in Hl. rewrite app_nil_r in Hl.
    specialize (Hne ltac:(lia)).
    assert (list_ascii_of_string ("-" +:+ pretty_N_go (N.pos p) EmptyString)
            = "-"%char :: ds) as E by (rewrite <- Hl; reflexivity).
    unfold int_of_text. rewrite E.
    destruct (last_of_all is_digit ds Hne Hall) as (y & Hy & Hdy).
    assert (last ("-"%char :: ds) = Some y) as Hlast
        by (destruct ds; [easy | exact Hy]).
    rewrite (int_blanks_none "-" y ds eq_refl Hlast (digit_not_int_space y Hdy)).
    change (chr_eqb "-" "-") with true. cbv iota.
    rewrite grouped_digits_whole by (destruct ds; [easy | exact Hall]).
    destruct (length ds <=? int_max_str_digits)%nat; [|discriminate].
    intros [= <-]. now rewrite Hval.
Qed.

End NumberTexts.

Section OrderFacts.

Variable UNDERLYING_ASSESTS : gmap string Z.
Variable get_expiration : pyval -> pyval -> result Z.
Variable strftime_utc : Z -> result string.

Local Abbreviation prepare :=
  (prepare_order UNDERLYING_ASSESTS get_expiration strftime_utc).

Lemma build_body_inv (w : World) (a : string) (amount expiry : pyval)
      (code : string) (msg : OrderBody) :
  build_options_body UNDERLYING_ASSESTS get_expiration strftime_utc w a amount expiry code
  = Ok msg ->
  expiry_positive_int expiry = true ->
  exists (id expiration : Z) (date : string),
    UNDERLYING_ASSESTS !! a = Some id
    /\ asset_id msg = id
    /\ get_expiration (server_time (handler w)) expiry = Ok expiration
    /\ strftime_utc expiration = Ok date
    /\ instrument_id msg
       = ("do" +:+ str_of_int id +:+ "A" +:+ substring 0 8 date
            +:+ "D" +:+ substring 8 (String.length date - 8) date
            +:+ "00T" +:+ match expiry with PInt z => str_of_int z | _ => "True" end
            +:+ "M" +:+ code +:+ "SPT")%string
    /\ amount_text msg = amount
    /\ py_int_of (current_account_id w) = Ok (user_balance_id msg)
    /\ instrument_index msg = 0.
Proof.
  unfold build_options_body, get_asset_id. intros Hb He.
  destruct (UNDERLYING_ASSESTS !! a) as [id|] eqn:Ea; [|discriminate].
  cbn [rbind] in Hb.
  destruct (get_expiration _ _) as [expiration|] eqn:Ex; [|discriminate].
  cbn [rbind] in Hb.
  destruct (strftime_utc expiration) as [date|] eqn:Ed; [|discriminate].
  cbn [rbind] in Hb.
  assert (match expiry with
          | PInt z => Ok (str_of_int z)
          | PBool true => Ok "True"%string
          | PBool false => Ok "False"%string
          | _ => Raise TypeError
          end = Ok (match expiry with PInt z => str_of_int z | _ => "True"%string end))
    as Et by (destruct expiry as [|[]|z| | | |]; try discriminate; reflexivity).
  rewrite Et in Hb. cbn [rbind] in Hb.
  destruct (py_int_of (current_account_id w)) as [balance|] eqn:Eb; [|discriminate].
  cbn [rbind] in Hb.
  destruct (int_of_text (str_of_int id)) as [n|] eqn:En; [|discriminate].
  apply int_of_str_of_int in En as ->. cbn [rbind] in Hb.
  injection Hb as <-. exists id, expiration, date.
  cbn [asset_id instrument_id amount_text user_balance_id instrument_index].
  repeat split; try reflexivity; assumption.
Qed.

(** X21.  An order that is prepared names the asset by its id in the asset
    table, as [asset_id] and in front of the instrument id; the instrument
    id goes on with the date and time of the expiration, the expiry as it
    prints - an integer from 1 up, or [True] - and P for put or C for call.
    The order carries the amount as given, the account id as an integer and
    the index 0, under the text of the number drawn. *)
Theorem prepared_order_names_the_asset (w : World)
        (asset amount direction expiry : pyval) (draw : Z)
        (msg : OrderBody) (rid : string) :
  prepare w asset amount direction expiry draw = Ok (msg, rid) ->
  exists (a d : string) (id expiration : Z) (date : string),
    asset = PStr a /\ direction = PStr d
    /\ UNDERLYING_ASSESTS !! a = Some id
    /\ asset_id msg = id
    /\ get_expiration (server_time (handler w)) expiry = Ok expiration
    /\ strftime_utc expiration = Ok date
    /\ (py_lower d = "put"%string \/ py_lower d = "call"%string)
    /\ expiry_positive_int expiry = true
    /\ instrument_id msg
       = ("do" +:+ str_of_int id +:+ "A" +:+ substring 0 8 date
            +:+ "D" +:+ substring 8 (String.length date - 8) date
            +:+ "00T" +:+ match expiry with PInt z => str_of_int z | _ => "True" end
            +:+ "M" +:+ (if String.eqb (py_lower d) "put" then "P" else "C")
            +:+ "SPT")%string
    /\ amount_text msg = amount
    /\ amount_accepted amount = true
    /\ py_int_of (current_account_id w) = Ok (user_balance_id msg)
    /\ instrument_index msg = 0
    /\ rid = str_of_int draw.
Proof.
  unfold prepare_order. destruct direction as [| | | |d| |]; try discriminate.
  destruct (validate_options_trading_parameters _ _ _ _ _) as [[]|] eqn:Ev;
    [|discriminate].
  destruct (validate_ok _ _ _ _ _ Ev) as ((a & -> & _) & Hamt & _ & Hexp & _).
  cbn [rbind].
  assert ((if String.eqb (py_lower d) "put" then Ok "P"%string
           else if String.eqb (py_lower d) "call" then Ok "C"%string
                else Raise KeyError)
          = Ok (if String.eqb (py_lower d) "put" then "P"%string else "C"%string)
          -> py_lower d = "put"%string \/ py_lower d = "call"%string) as Hdir.
  { destruct (String.eqb_spec (py_lower d) "put"); [now left|].
    destruct (String.eqb_spec (py_lower d) "call"); [now right | discriminate]. }
  destruct (if String.eqb (py_lower d) "put" then Ok "P"%string
            else if String.eqb (py_lower d) "call" then Ok "C"%string
                 else Raise KeyError) as [code|] eqn:Ec; [|discriminate].
  assert (code = if String.eqb (py_lower d) "put" then "P"%string else "C"%string)
    as Hcode.
  { destruct (String.eqb (py_lower d) "put"); [now injection Ec|].
    destruct (String.eqb (py_lower d) "call"); [now injection Ec | discriminate]. }
  cbn [rbind].
  destruct (build_options_body _ _ _ _ _ _ _ _) as [body|] eqn:Eb; [|discriminate].
  cbn [rbind]. intros [= <- <-].
  destruct (build_body_inv w a amount expiry code body Eb Hexp)
    as (id & expiration & date & Ha & Hid & Hx & Hdate & Hins & Hamount & Hbal & Hidx).
  exists a, d, id, expiration, date.
  rewrite Hins, <- Hcode.
  repeat split; try reflexivity; try assumption.
  apply Hdir. now rewrite <- Hcode.
Qed.

End OrderFacts.

Lemma prepared_order_names_the_asset_witness :
  exists (a d : string) (id expiration : Z) (date : string),
    PStr "EURUSD" = PStr a /\ PStr "CALL" = PStr d
    /\ sample_assets !! a = Some id
    /\ asset_id (sample_order_true (PInt 1)) = id
    /\ sample_expiration (server_time (handler sample_world)) (PBool true) = Ok expiration
    /\ sample_strftime expiration = Ok date
    /\ (py_lower d = "put"%string \/ py_lower d = "call"%string)
    /\ expiry_positive_int (PBool true) = true
    /\ instrument_id (sample_order_true (PInt 1))
       = ("do" +:+ str_of_int id +:+ "A" +:+ substring 0 8 date
            +:+ "D" +:+ substring 8 (String.length date - 8) date
            +:+ "00T" +:+ "True"
            +:+ "M" +:+ (if String.eqb (py_lower d) "put" then "P" else "C")
            +:+ "SPT")%string
    /\ amount_text (sample_order_true (PInt 1)) = PInt 1
    /\ amount_accepted (PInt 1) = true
    /\ py_int_of (current_account_id sample_world)
       = Ok (user_balance_id (sample_order_true (PInt 1)))
    /\ instrument_index (sample_order_true (PInt 1)) = 0
    /\ "7"%string = str_of_int 7.
Proof.
  exact (prepared_order_names_the_asset sample_assets sample_expiration sample_strftime
           sample_world (PStr "EURUSD") (PInt 1) (PStr "CALL") (PBool true) 7
           (sample_order_true (PInt 1)) "7" eq_refl).
Defined.

(** ** The parser on Unicode text: properties *)

Section UnicodeParser.

Import Unicode.

Variable T : tables.

Local Abbreviation found ps :=
  (flat_map (fun p => match p with Lit _ => [] | Hit h => [h] end) ps).

Lemma text_eqb_eq (a b : text) : text_eqb a b = true <-> a = b.
Proof.
  revert b. induction a as [|x a IH]; intros [|y b]; cbn [text_eqb]; try easy.
  rewrite andb_true_iff, N.eqb_eq, IH.
  split; [intros [-> ->]; reflexivity | intros [= -> ->]; now split].
Qed.

Lemma text_count_app (x : N) (s t : text) :
  count_char x (s ++ t) = (count_char x s + count_char x t)%nat.
Proof. induction s as [|c s IH]; cbn [app count_char]; [reflexivity | rewrite IH; lia]. Qed.

Lemma text_split_pieces_length (cur : text) (ps : list piece) :
  length (split_pieces cur ps) = S (2 * length (found ps)).
Proof.
  revert cur. induction ps as [|[c|h] ps IH]; intros cur; cbn [split_pieces flat_map].
  - reflexivity.
  - apply IH.
  - cbn [length app]. rewrite IH. lia.
Qed.

(** A match of the time pattern starts the subject and holds a colon. *)
Lemma text_time_match (s hit : text) :
  m_time T s = Some hit ->
  (exists c hit' rest, hit = c :: hit' /\ s = hit ++ rest)
  /\ (1 <= count_char (ch ":") hit)%nat
  /\ is_time T hit = true.
Proof.
  unfold m_time.
  destruct s as [|a [|b [|c [|d [|e tl]]]]]; try discriminate.
  - destruct (is_digit T a && (b =? ch ":")%N && is_digit T c && is_digit T d) eqn:E;
      [|discriminate].
    intros [= <-]. split; [now exists a, [b; c; d], []|].
    apply andb_prop in E as [E Hd]. apply andb_prop in E as [E Hc].
    apply andb_prop in E as [Ha Hb].
    cbn [count_char is_time]. rewrite Ha, Hb, Hc, Hd. split; [lia | reflexivity].
  - destruct (is_digit T a && is_digit T b && (c =? ch ":")%N && is_digit T d
              && is_digit T e) eqn:E.
    + intros [= <-]. split; [now exists a, [b; c; d; e], tl|].
      apply andb_prop in E as [E He]. apply andb_prop in E as [E Hd].
      apply andb_prop in E as [E Hc]. apply andb_prop in E as [Ha Hb].
      cbn [count_char is_time]. rewrite Ha, Hb, Hc, Hd, He. split; [lia | reflexivity].
    + destruct (is_digit T a && (b =? ch ":")%N && is_digit T c && is_digit T d) eqn:E';
        [|discriminate].
      intros [= <-]. split; [now exists a, [b; c; d], (e :: tl)|].
      apply andb_prop in E' as [E' Hd]. apply andb_prop in E' as [E' Hc].
      apply andb_prop in E' as [Ha Hb].
      cbn [count_char is_time]. rewrite Ha, Hb, Hc, Hd. split; [lia | reflexivity].
Qed.

(** The matches of the time pattern are no more than the colons. *)
Lemma text_times_colons (s : text) :
  forall k, (length (found (re_scan (m_time T) k s))
             <= count_char (ch ":") (drop k s))%nat.
Proof.
  induction s as [|c tl IH]; intros k.
  - destruct k; cbn; lia.
  - destruct k as [|k]; cbn [re_scan drop]; [|apply IH].
    destruct (m_time T (c :: tl)) as [hit|] eqn:Hm; cbn [flat_map app length].
    + destruct (text_time_match _ _ Hm) as ((c' & hit' & rest & -> & Hs) & Hcolon & _).
      injection Hs as <- ->. cbn [length Nat.pred].
      specialize (IH (length hit')). rewrite drop_app_length in IH.
      change (c :: hit' ++ rest) with ((c :: hit') ++ rest).
      rewrite text_count_app. lia.
    + specialize (IH O). rewrite drop_0 in IH. cbn [count_char]. lia.
Qed.

Lemma text_for_each_step (parts : list text) (l : list nat) :
  (forall i, In i l -> (i + 1 < length parts)%nat) ->
  forall acc, exists sigs,
      for_each (text_step T parts) acc l = Ok sigs
      /\ (length sigs <= length acc + length l)%nat.
Proof.
  induction l as [|i l IH]; intros Hl acc.
  - exists acc. split; [reflexivity | simpl; lia].
  - assert (i + 1 < length parts)%nat as Hi by (apply Hl; now left).
    destruct (index_in_range parts i ltac:(lia)) as [t Ht].
    destruct (index_in_range parts (i + 1) Hi) as [b Hb].
    assert (forall j, In j l -> (j + 1 < length parts)%nat) as Hl'
        by (intros j Hj; apply Hl; now right).
    cbn [for_each]. unfold text_step at 1. rewrite Ht, Hb. cbn [rbind].
    destruct (parse_signal T (t ++ b)) as [sig|]; cbn [rbind].
    + destruct (IH Hl' (acc ++ [sig])) as (sigs & -> & Hlen).
      exists sigs. split; [reflexivity|].
      rewrite length_app in Hlen. simpl in *. lia.
    + destruct (IH Hl' acc) as (sigs & -> & Hlen).
      exists sigs. split; [reflexivity | simpl; lia].
Qed.

(** [parse_signals_from_text] returns, with no more signals than the text
    has matches of the time pattern. *)
Lemma text_parse_total (txt : text) :
  exists sigs,
    parse_signals_from_text T txt = Ok sigs
    /\ (length sigs <= length (re_findall (m_time T) txt))%nat.
Proof.
  unfold parse_signals_from_text, re_findall, re_split.
  pose proof (text_split_pieces_length [] (re_scan (m_time T) O txt)) as Hlen.
  set (h := length (found (re_scan (m_time T) O txt))) in *.
  destruct (text_for_each_step (split_pieces [] (re_scan (m_time T) O txt))
              (py_range 1 (length (split_pieces [] (re_scan (m_time T) O txt))) 2))
    with (acc := @nil Signal) as (sigs & Hs & Hle).
  - rewrite Hlen. apply py_range_pairs.
  - exists sigs. split; [exact Hs|].
    rewrite Hlen, py_range_odd, length_map, length_seq in Hle. exact Hle.
Qed.

Lemma text_count_split (x sep : N) (s : text) :
  x <> sep ->
  count_char x s = list_sum (map (count_char x) (split_on sep s)).
Proof.
  intros Hx. induction s as [|c s IH]; [reflexivity|].
  cbn [split_on count_char]. destruct (N.eqb_spec c sep) as [-> | Hc].
  - destruct (N.eqb_spec sep x) as [E | _]; [congruence|].
    cbn [map count_char]. rewrite IH. reflexivity.
  - destruct (split_on sep s) as [|h t]; cbn [map count_char] in *;
      unfold list_sum in *; cbn [fold_right] in *; destruct (c =? x)%N; lia.
Qed.

Lemma text_contains_count (x : N) (s : text) :
  contains x s = negb (count_char x s =? 0)%nat.
Proof.
  unfold contains. induction s as [|c s IH]; [reflexivity|].
  cbn [existsb count_char]. rewrite IH. now destruct (c =? x)%N.
Qed.

Lemma list_sum_units_filter (x : N) (l : list text) :
  Forall (fun s => (count_char x s <= 1)%nat) l ->
  (list_sum (map (count_char x) l) <= length (List.filter (contains x) l))%nat.
Proof.
  induction 1 as [|s l Hs _ IH]; [reflexivity|].
  cbn [map List.filter]. rewrite text_contains_count.
  unfold list_sum in *. cbn [fold_right].
  destruct (count_char x s) as [|[|n]]; cbn [Nat.eqb negb length]; lia.
Qed.

(** Lines with at most one colon each: no more colons than lines that hold
    one. *)
Lemma text_colons_lines (txt : text) :
  Forall (fun l => (count_char (ch ":") l <= 1)%nat) (lines_of txt) ->
  (count_char (ch ":") txt
   <= length (List.filter (contains (ch ":")) (lines_of txt)))%nat.
Proof.
  intros Hl. unfold lines_of in *.
  rewrite (text_count_split (ch ":") 10 txt) by discriminate.
  now apply list_sum_units_filter.
Qed.

Lemma text_parse_lines_length (lines : list text) (acc : list Signal) :
  (length (fold_left (fun signals line =>
                        match parse_signal T line with
                        | Some sig => signals ++ [sig]
                        | None => signals
                        end) lines acc)
   <= length acc + length lines)%nat.
Proof.
  revert acc. induction lines as [|l lines IH]; intros acc; simpl; [lia|].
  destruct (parse_signal T l) as [s|].
  - specialize (IH (acc ++ [s])). rewrite length_app in IH. simpl in IH. lia.
  - specialize (IH acc). lia.
Qed.

(** [strip] leaves no blank at the end. *)
Lemma text_lstrip_head (s : text) (c : N) (tl : text) :
  lstrip T s = c :: tl -> is_space T c = false.
Proof.
  induction s as [|x s IH]; cbn [lstrip]; [discriminate|].
  destruct (is_space T x) eqn:E; [exact IH|]. now intros [= <- _].
Qed.

Lemma text_strip_last (s : text) (z : N) :
  last (strip T s) = Some z -> is_space T z = false.
Proof.
  unfold strip, rstrip.
  destruct (lstrip T (rev (lstrip T s))) as [|c tl] eqn:E; [discriminate|].
  cbn [rev]. rewrite last_snoc. intros [= <-].
  exact (text_lstrip_head _ _ _ E).
Qed.

(** On a text that does not end with a blank the pattern of the time check
    accepts the times HH:MM and H:MM and nothing else. *)
Lemma text_time_format (t : text) :
  (forall z, last t = Some z -> is_space T z = false) ->
  time_format_ok T t = is_time T t.
Proof.
  intros Hlast.
  assert (forall z, last t = Some z -> (z =? 10)%N = false) as Hnl.
  { intros z Hz. destruct (N.eqb_spec z 10) as [-> | _]; [|reflexivity].
    pose proof (Hlast _ Hz) as H. unfold is_space in H.
    now rewrite (newline_isspace T) in H. }
  clear Hlast. unfold time_format_ok, is_time.
  destruct t as [|a [|b [|c [|d [|e [|f [|g t]]]]]]]; cbn [at_dollar]; try reflexivity.
  - now rewrite !andb_false_r.
  - now rewrite !andb_false_r.
  - rewrite !andb_false_r, !andb_true_r. cbn [orb].
    now rewrite <- !andb_assoc.
  - rewrite (Hnl e eq_refl), !andb_false_r, orb_false_r, !andb_true_r.
    now rewrite <- !andb_assoc.
  - now rewrite (Hnl f eq_refl), !andb_false_r.
  - now rewrite !andb_false_r.
Qed.

Lemma text_digits_filter (s : text) :
  re_sub (m_nondigit T) (fun _ => []) s = expiry_digits T s.
Proof.
  unfold re_sub, expiry_digits. induction s as [|c s IH]; [reflexivity|].
  cbn [re_scan m_nondigit List.filter].
  destruct (is_digit T c); cbn [length Nat.pred flat_map app]; now rewrite IH.
Qed.

Lemma text_py_int (s : text) :
  py_int T s
  = if negb (length s =? 0)%nat && (length s <=? int_max_str_digits)%nat
    then Ok (int_of_digits T s) else Raise ValueError.
Proof. destruct s as [|c s]; reflexivity. Qed.

(** What [parse_signal] returns, by the validation of the line. *)
Lemma text_parse_signal (line : text) :
  parse_signal T line
  = if line_accepted T line then Some (signal_of T line) else None.
Proof.
  unfold parse_signal, parse_signal_body, line_accepted, signal_of, field.
  fold (fields T line).
  destruct (fields T line) as [|p0 [|p1 [|p2 [|p3 rest]]]]; try reflexivity.
  cbn [length Nat.ltb Nat.leb index nth_error nth rbind andb].
  rewrite text_digits_filter, text_py_int.
  rewrite (text_time_format (strip T p0)) by apply text_strip_last.
  unfold is_direction.
  destruct (negb (length (expiry_digits T p3) =? 0)%nat); cbn [andb rbind];
    [|now rewrite !andb_false_r].
  destruct (length (expiry_digits T p3) <=? int_max_str_digits)%nat; cbn [andb rbind];
    [|now rewrite !andb_false_r].
  rewrite !andb_true_r.
  destruct (is_time T (strip T p0)); cbn [negb andb]; [|reflexivity].
  now destruct (text_eqb (upper T p2) (lit "CALL") || text_eqb (upper T p2) (lit "PUT")).
Qed.

Lemma text_digit_val (c : N) : 0 <= digit_val T c <= 9.
Proof.
  unfold digit_val. destruct (decimal T c) as [v|] eqn:E; [|lia].
  exact (decimal_range T c v E).
Qed.

Lemma text_fold_digits (s : text) :
  forall acc, 0 <= acc ->
    0 <= fold_left (fun a c => 10 * a + digit_val T c) s acc
    < (acc + 1) * 10 ^ Z.of_nat (length s).
Proof.
  induction s as [|c s IH]; intros acc Hacc.
  - cbn [fold_left length]. change (10 ^ Z.of_nat 0) with 1. lia.
  - cbn [fold_left length]. pose proof (text_digit_val c) as Hc.
    specialize (IH (10 * acc + digit_val T c) ltac:(lia)).
    rewrite Nat2Z.inj_succ, Z.pow_succ_r by lia.
    assert (0 < 10 ^ Z.of_nat (length s)) by (apply Z.pow_pos_nonneg; lia).
    nia.
Qed.

Lemma text_int_of_digits (s : text) :
  (length s <= int_max_str_digits)%nat ->
  0 <= int_of_digits T s < 10 ^ 4300.
Proof.
  intros Hlen. unfold int_of_digits.
  pose proof (text_fold_digits s 0 ltac:(lia)) as H.
  assert (10 ^ Z.of_nat (length s) <= 10 ^ 4300).
  { apply Z.pow_le_mono_r; [lia|]. unfold int_max_str_digits in Hlen. lia. }
  lia.
Qed.

Lemma text_upper_capital (s : text) : existsb is_small (upper T s) = false.
Proof.
  unfold upper. induction s as [|c s IH]; [reflexivity|].
  cbn [flat_map]. rewrite existsb_app, IH, orb_false_r.
  destruct (existsb is_small (to_upper T c)) eqn:E; [|reflexivity].
  apply existsb_exists in E as (x & Hx & Hs).
  now rewrite (to_upper_capital T c x Hx) in Hs.
Qed.

Lemma text_replace_removes (x : N) (s : text) :
  count_char x (replace_char x [] s) = O.
Proof.
  unfold replace_char. induction s as [|c s IH]; [reflexivity|].
  cbn [flat_map]. rewrite text_count_app, IH.
  destruct (N.eqb_spec c x) as [|Hc]; cbn [count_char]; [reflexivity|].
  now destruct (N.eqb_spec c x).
Qed.

Lemma text_replace_keeps (p : N -> bool) (x : N) (s : text) :
  existsb p s = false -> existsb p (replace_char x [] s) = false.
Proof.
  unfold replace_char. induction s as [|c s IH]; [reflexivity|].
  cbn [flat_map existsb]. intros [Hc Hs]%orb_false_elim.
  rewrite existsb_app, (IH Hs), orb_false_r.
  destruct (c =? x)%N; cbn [existsb]; [reflexivity|]. now rewrite Hc.
Qed.

End UnicodeParser.

(** C8, as the code has it.  Parsing never raises, whatever the text and
    whatever the tables of the interpreter: [parse_signals_from_text]
    returns a list for every text and [parse_signals_from_file] for every
    file, the empty list when the file cannot be read.  A line that fails
    validation - fewer than four fields, a time not of the form H(H):MM, a
    direction other than CALL or PUT, an expiry field with no digit or with
    more digits than [int] reads - gives no signal, and a line that passes
    gives the signal of its fields.  A file gives at most one signal per
    line.  A text is cut at its times, not at its line ends: it gives at
    most one signal per match of the time pattern, hence at most one per
    colon, and when no line holds two colons at most one per line that
    holds a colon. *)
Theorem parsing_never_raises (T : Unicode.tables) (txt : Unicode.text) :
  (exists sigs,
      Unicode.parse_signals_from_text T txt = Ok sigs
      /\ (length sigs <= length (Unicode.re_findall (Unicode.m_time T) txt))%nat
      /\ (length sigs <= Unicode.count_char (Unicode.ch ":") txt)%nat
      /\ (Forall (fun l => (Unicode.count_char (Unicode.ch ":") l <= 1)%nat)
                 (Unicode.lines_of txt) ->
          (length sigs
           <= length (List.filter (Unicode.contains (Unicode.ch ":"))
                                  (Unicode.lines_of txt)))%nat
          /\ (length sigs <= length (Unicode.lines_of txt))%nat))
  /\ (forall line, Unicode.line_accepted T line = false ->
                   Unicode.parse_signal T line = None)
  /\ (forall line, Unicode.line_accepted T line = true ->
                   Unicode.parse_signal T line = Some (Unicode.signal_of T line))
  /\ (forall lines,
         (length (Unicode.parse_signals_from_file T (Ok lines)) <= length lines)%nat)
  /\ (forall e, Unicode.parse_signals_from_file T (Raise e) = []).
Proof.
  split.
  { destruct (text_parse_total T txt) as (sigs & Hs & Hlen).
    pose proof (text_times_colons T txt O) as Hc. rewrite drop_0 in Hc.
    fold (Unicode.re_findall (Unicode.m_time T) txt) in Hc.
    exists sigs. split; [exact Hs|]. split; [exact Hlen|]. split; [lia|].
    intros Hl. pose proof (text_colons_lines txt Hl) as Hcl.
    pose proof (filter_length_le (Unicode.contains (Unicode.ch ":"))
                  (Unicode.lines_of txt)) as Hfl.
    split; lia. }
  split; [intros line H; now rewrite text_parse_signal, H|].
  split; [intros line H; now rewrite text_parse_signal, H|].
  split; [|reflexivity].
  intros lines. unfold Unicode.parse_signals_from_file.
  pose proof (text_parse_lines_length T lines []) as H. simpl in H. exact H.
Qed.

(** Against C8 as worded: a text of one line that holds two times gives two
    signals, more than it has lines. *)
Lemma one_line_of_text_gives_two_signals :
  Unicode.parse_signals_from_text Unicode.cpython
    (Unicode.lit "03:40;EURAUD;CALL;5 9:05;EURUSD;PUT;15")
  = Ok [Unicode.mkSignal (Unicode.lit "03:40") (Unicode.lit "EURAUD")
                         (Unicode.lit "CALL") 5;
        Unicode.mkSignal (Unicode.lit "9:05") (Unicode.lit "EURUSD")
                         (Unicode.lit "PUT") 15]
  /\ length (Unicode.lines_of (Unicode.lit "03:40;EURAUD;CALL;5 9:05;EURUSD;PUT;15"))
     = 1%nat.
Proof. split; vm_compute; reflexivity. Qed.

(** X11.  Every signal that [parse_signal] returns is well formed as far as
    the code checks, whatever the line and whatever the tables of the
    interpreter: the line is one that validation accepts and the signal is
    that of its fields; the time has the form HH:MM or H:MM in decimal
    digits, the direction is CALL or PUT, the expiry is the number its
    digits write, from 0 up and below 10^4300, and the pair holds no slash
    and none of the letters a to z.  The hour and minute are not range
    checked and the pair is not checked at all. *)
Theorem parsed_signal_is_well_formed
    (T : Unicode.tables) (line : Unicode.text) (sig : Unicode.Signal)
    (Hsig : Unicode.parse_signal T line = Some sig) :
  Unicode.line_accepted T line = true
  /\ sig = Unicode.mkSignal
             (Unicode.strip T (Unicode.field T line 0))
             (Unicode.replace_char (Unicode.ch "/") []
                (Unicode.upper T (Unicode.field T line 1)))
             (Unicode.upper T (Unicode.field T line 2))
             (Unicode.int_of_digits T
                (List.filter (Unicode.is_digit T) (Unicode.field T line 3)))
  /\ Unicode.is_time T (Unicode.sig_time sig) = true
  /\ (Unicode.sig_direction sig = Unicode.lit "CALL"
      \/ Unicode.sig_direction sig = Unicode.lit "PUT")
  /\ 0 <= Unicode.sig_expiry sig < 10 ^ 4300
  /\ Unicode.count_char (Unicode.ch "/") (Unicode.sig_pair sig) = O
  /\ existsb Unicode.is_small (Unicode.sig_pair sig) = false.
Proof.
  rewrite text_parse_signal in Hsig.
  destruct (Unicode.line_accepted T line) eqn:Hacc; [|discriminate].
  injection Hsig as <-. unfold Unicode.signal_of.
  cbn [Unicode.sig_time Unicode.sig_direction Unicode.sig_expiry Unicode.sig_pair].
  unfold Unicode.line_accepted in Hacc.
  apply andb_prop in Hacc as [Hacc Hcap]. apply andb_prop in Hacc as [Hacc _].
  apply andb_prop in Hacc as [Hacc Hdir]. apply andb_prop in Hacc as [_ Htime].
  split; [reflexivity|]. split; [reflexivity|]. split; [exact Htime|].
  split.
  { unfold Unicode.is_direction in Hdir.
    apply orb_prop in Hdir as [H | H]; apply text_eqb_eq in H; [now left | now right]. }
  split; [apply text_int_of_digits; now apply Nat.leb_le|].
  split; [apply text_replace_removes|].
  apply text_replace_keeps, text_upper_capital.
Qed.

Lemma parsed_signal_is_well_formed_witness :
  Unicode.line_accepted Unicode.cpython
    (Unicode.lit "99:99;eur/usd;put;x" ++ [1639%N; 160%N]) = true
  /\ Unicode.parse_signal Unicode.cpython
       (Unicode.lit "99:99;eur/usd;put;x" ++ [1639%N; 160%N])
     = Some (Unicode.mkSignal (Unicode.lit "99:99") (Unicode.lit "EURUSD")
                              (Unicode.lit "PUT") 7).
Proof.
  pose proof (parsed_signal_is_well_formed Unicode.cpython
                (Unicode.lit "99:99;eur/usd;put;x" ++ [1639%N; 160%N])
                (Unicode.mkSignal (Unicode.lit "99:99") (Unicode.lit "EURUSD")
                                  (Unicode.lit "PUT") 7)
                eq_refl)
    as (H1 & _).
  split; [exact H1 | reflexivity].
Defined.

(** ** The two forms of the parser agree on ASCII text *)

Section TwoForms.

Local Abbreviation U := Unicode.cpython.

Lemma code_eqb (a b : ascii) : (code a =? code b)%N = chr_eqb a b.
Proof.
  unfold chr_eqb, code. destruct (Ascii.eqb_spec a b) as [-> | Hne].
  - apply N.eqb_refl.
  - apply N.eqb_neq. intros H. apply Hne.
    rewrite <- (ascii_N_embedding a), <- (ascii_N_embedding b). now rewrite H.
Qed.

Lemma encode_inj (a b : str) : encode a = encode b -> a = b.
Proof.
  revert b. induction a as [|x a IH]; intros [|y b]; cbn; try easy.
  intros [= Hc Ht]. f_equal; [|now apply IH].
  apply chr_eqb_eq. rewrite <- code_eqb, Hc. apply N.eqb_refl.
Qed.

(** Below 128 the tables of the interpreter are the ASCII classes. *)
Lemma ascii_classes (c : ascii) :
  is_ascii c = true ->
  Unicode.is_space U (code c) = is_space c
  /\ Unicode.is_digit U (code c) = is_digit c
  /\ (is_digit c = true -> Unicode.digit_val U (code c) = digit_val c)
  /\ Unicode.to_upper U (code c) = [code (to_upper c)]
  /\ is_ascii (to_upper c) = true.
Proof.
  destruct c as [[] [] [] [] [] [] [] []]; intros H;
    try (vm_compute in H; discriminate H);
    (split; [vm_compute; reflexivity|]); (split; [vm_compute; reflexivity|]);
    (split; [intros Hd; try (vm_compute in Hd; discriminate Hd); vm_compute; reflexivity|]);
    split; vm_compute; reflexivity.
Qed.

Lemma ascii_space (c : ascii) :
  is_ascii c = true -> Unicode.is_space U (code c) = is_space c.
Proof. intros H. now destruct (ascii_classes c H) as (-> & _). Qed.

Lemma ascii_digit (c : ascii) :
  is_ascii c = true -> Unicode.is_digit U (code c) = is_digit c.
Proof. intros H. now destruct (ascii_classes c H) as (_ & -> & _). Qed.

Lemma ascii_O (c : ascii) : Unicode.is_O (code c) = is_O c.
Proof. unfold Unicode.is_O, is_O, Unicode.ch. fold (code "O") (code "o"). now rewrite !code_eqb. Qed.

Lemma encode_app (a b : str) : encode (a ++ b) = encode a ++ encode b.
Proof. apply map_app. Qed.

Lemma encode_lit (s : string) : Unicode.lit s = encode (lit s).
Proof. reflexivity. Qed.

Lemma lstrip_forall (p : ascii -> bool) (s : str) :
  forallb p s = true -> forallb p (lstrip s) = true.
Proof.
  induction s as [|c s IH]; [easy|]. cbn [lstrip]. intros H.
  destruct (is_space c); [|exact H].
  cbn [forallb] in H. apply andb_prop in H as [_ H]. now apply IH.
Qed.

Lemma strip_forall (p : ascii -> bool) (s : str) :
  forallb p s = true -> forallb p (strip s) = true.
Proof.
  intros H. unfold strip, rstrip. rewrite forallb_rev.
  apply lstrip_forall. rewrite forallb_rev. now apply lstrip_forall.
Qed.

Lemma encode_lstrip (s : str) :
  forallb is_ascii s = true -> Unicode.lstrip U (encode s) = encode (lstrip s).
Proof.
  induction s as [|c s IH]; [reflexivity|]. cbn [forallb].
  intros [Hc Hs]%andb_prop. cbn [encode map Unicode.lstrip lstrip].
  rewrite (ascii_space c Hc). destruct (is_space c); [now apply IH | reflexivity].
Qed.

Lemma encode_strip (s : str) :
  forallb is_ascii s = true -> Unicode.strip U (encode s) = encode (strip s).
Proof.
  intros H. unfold Unicode.strip, Unicode.rstrip, strip, rstrip.
  rewrite (encode_lstrip s H). unfold encode at 1. rewrite <- map_rev.
  fold (encode (rev (lstrip s))). rewrite encode_lstrip.
  - unfold encode. now rewrite map_rev.
  - rewrite forallb_rev. now apply lstrip_forall.
Qed.

Lemma encode_replace_char (x : ascii) (new s : str) :
  Unicode.replace_char (code x) (encode new) (encode s) = encode (replace_char x new s).
Proof.
  unfold Unicode.replace_char, replace_char.
  induction s as [|c s IH]; [reflexivity|].
  cbn [encode map flat_map]. rewrite code_eqb, encode_app.
  fold (encode s). rewrite IH. now destruct (chr_eqb c x).
Qed.

Lemma replace_char_forall (p : ascii -> bool) (x : ascii) (new s : str) :
  forallb p new = true -> forallb p s = true ->
  forallb p (replace_char x new s) = true.
Proof.
  intros Hn. unfold replace_char. induction s as [|c s IH]; [easy|].
  cbn [forallb flat_map]. intros [Hc Hs]%andb_prop.
  rewrite forallb_app, (IH Hs), andb_true_r.
  destruct (chr_eqb c x); [exact Hn|]. cbn. now rewrite Hc.
Qed.

Lemma encode_split_on (sep : ascii) (s : str) :
  Unicode.split_on (code sep) (encode s) = map encode (split_on sep s).
Proof.
  induction s as [|c s IH]; [reflexivity|].
  cbn [encode map Unicode.split_on split_on]. rewrite code_eqb.
  fold (encode s). rewrite IH.
  destruct (chr_eqb c sep); [reflexivity|].
  now destruct (split_on sep s).
Qed.

Lemma split_on_forall (p : ascii -> bool) (sep : ascii) (s : str) :
  forallb p s = true -> forallb (forallb p) (split_on sep s) = true.
Proof.
  induction s as [|c s IH]; [easy|]. cbn [forallb split_on].
  intros [Hc Hs]%andb_prop. specialize (IH Hs).
  destruct (chr_eqb c sep); [exact IH|].
  destruct (split_on sep s) as [|h t]; cbn [forallb] in *; [now rewrite Hc|].
  apply andb_prop in IH as [Hh Ht]. now rewrite Hc, Hh, Ht.
Qed.

Lemma encode_join (sep : str) (parts : list str) :
  Unicode.join (encode sep) (map encode parts) = encode (join sep parts).
Proof.
  induction parts as [|a [|b parts] IH]; [reflexivity | reflexivity|].
  cbn [map Unicode.join join] in *. now rewrite IH, !encode_app.
Qed.

Lemma encode_contains (sep : ascii) (s : str) :
  Unicode.contains (code sep) (encode s) = contains sep s.
Proof.
  unfold Unicode.contains, contains, encode.
  induction s as [|c s IH]; [reflexivity|].
  cbn [map existsb]. now rewrite code_eqb, IH.
Qed.

Lemma encode_text_eqb (a b : str) :
  Unicode.text_eqb (encode a) (encode b) = str_eqb a b.
Proof.
  apply eq_true_iff_eq. rewrite text_eqb_eq, str_eqb_eq.
  split; [apply encode_inj | now intros ->].
Qed.

(** *** The scans *)

Section Scans.

Variable m : matcher.
Variable M : Unicode.matcher.
Hypothesis Hm : forall s, forallb is_ascii s = true -> M (encode s) = option_map encode (m s).

Lemma encode_re_scan (s : str) :
  forall k, forallb is_ascii s = true ->
            Unicode.re_scan M k (encode s) = map encode_piece (re_scan m k s).
Proof.
  induction s as [|c tl IH]; intros k Hs; [reflexivity|].
  pose proof Hs as Hs'. cbn [forallb] in Hs'. apply andb_prop in Hs' as [_ Htl].
  destruct k as [|k]; cbn [encode map Unicode.re_scan re_scan]; [|now apply IH].
  change (code c :: map code tl) with (encode (c :: tl)). rewrite (Hm _ Hs).
  destruct (m (c :: tl)) as [hit|]; cbn [option_map map encode_piece].
  - unfold encode at 2. rewrite length_map. fold (encode tl). now rewrite IH.
  - fold (encode tl). now rewrite IH.
Qed.

Lemma encode_re_sub (repl : str -> str) (REPL : Unicode.text -> Unicode.text) (s : str) :
  (forall h, REPL (encode h) = encode (repl h)) ->
  forallb is_ascii s = true ->
  Unicode.re_sub M REPL (encode s) = encode (re_sub m repl s).
Proof.
  intros Hr Hs. unfold Unicode.re_sub, re_sub. rewrite (encode_re_scan s O Hs).
  induction (re_scan m O s) as [|[c|h] ps IH]; [reflexivity| |];
    cbn [map encode_piece flat_map]; rewrite IH, encode_app; [reflexivity|].
  now rewrite Hr.
Qed.

Lemma encode_re_findall (s : str) :
  forallb is_ascii s = true ->
  Unicode.re_findall M (encode s) = map encode (re_findall m s).
Proof.
  intros Hs. unfold Unicode.re_findall, re_findall. rewrite (encode_re_scan s O Hs).
  induction (re_scan m O s) as [|[c|h] ps IH]; [reflexivity| |];
    cbn [map encode_piece flat_map app]; now rewrite IH.
Qed.

Lemma encode_re_split (s : str) :
  forallb is_ascii s = true ->
  Unicode.re_split M (encode s) = map encode (re_split m s).
Proof.
  intros Hs. unfold Unicode.re_split, re_split. rewrite (encode_re_scan s O Hs).
  change (@nil N) with (encode []).
  generalize (@nil ascii) as cur.
  induction (re_scan m O s) as [|[c|h] ps IH]; intros cur;
    cbn [map encode_piece Unicode.split_pieces split_pieces].
  - reflexivity.
  - change [code c] with (encode [c]). rewrite <- encode_app. apply IH.
  - change (@nil N) with (encode []). now rewrite IH.
Qed.

End Scans.

(** *** The patterns *)

Lemma encode_m_O_digit (s : str) :
  forallb is_ascii s = true ->
  Unicode.m_O_digit U (encode s) = option_map encode (m_O_digit s).
Proof.
  destruct s as [|c [|d tl]]; try reflexivity. cbn [forallb].
  intros [_ [Hd _]%andb_prop]%andb_prop.
  cbn [encode map Unicode.m_O_digit m_O_digit].
  rewrite ascii_O, (ascii_digit d Hd). now destruct (is_O c && is_digit d).
Qed.

Lemma encode_m_spaces_colon (s : str) :
  forallb is_ascii s = true ->
  Unicode.m_spaces_colon U (encode s) = option_map encode (m_spaces_colon s).
Proof.
  induction s as [|c s IH]; [reflexivity|]. cbn [forallb].
  intros [Hc Hs]%andb_prop.
  cbn [encode map Unicode.m_spaces_colon m_spaces_colon].
  unfold Unicode.ch. fold (code ":"). rewrite code_eqb, (ascii_space c Hc).
  destruct (chr_eqb c ":"); [reflexivity|].
  destruct (is_space c); [|reflexivity].
  fold (encode s). rewrite (IH Hs). now destruct (m_spaces_colon s).
Qed.

Lemma encode_m_O_colon (s : str) :
  forallb is_ascii s = true ->
  Unicode.m_O_colon U (encode s) = option_map encode (m_O_colon s).
Proof.
  destruct s as [|c s]; [reflexivity|]. cbn [forallb].
  intros [_ Hs]%andb_prop.
  cbn [encode map Unicode.m_O_colon m_O_colon]. rewrite ascii_O.
  destruct (is_O c); [|reflexivity].
  fold (encode s). rewrite (encode_m_spaces_colon s Hs). now destruct (m_spaces_colon s).
Qed.

Lemma encode_span_of (P : N -> bool) (p : ascii -> bool) (s : str) :
  (forall c, is_ascii c = true -> P (code c) = p c) ->
  forallb is_ascii s = true ->
  Unicode.span_of P (encode s) = encode (span_of p s).
Proof.
  intros HP. induction s as [|c s IH]; [reflexivity|]. cbn [forallb].
  intros [Hc Hs]%andb_prop. cbn [encode map Unicode.span_of span_of].
  rewrite (HP c Hc). destruct (p c); [|reflexivity].
  fold (encode s). now rewrite (IH Hs).
Qed.

Lemma encode_m_plus (P : N -> bool) (p : ascii -> bool) (s : str) :
  (forall c, is_ascii c = true -> P (code c) = p c) ->
  forallb is_ascii s = true ->
  Unicode.m_plus P (encode s) = option_map encode (m_plus p s).
Proof.
  intros HP Hs. unfold Unicode.m_plus, m_plus. rewrite (encode_span_of P p s HP Hs).
  now destruct (span_of p s).
Qed.

Lemma encode_m_nondigit (s : str) :
  forallb is_ascii s = true ->
  Unicode.m_nondigit U (encode s) = option_map encode (m_nondigit s).
Proof.
  destruct s as [|c s]; [reflexivity|]. cbn [forallb].
  intros [Hc _]%andb_prop. cbn [encode map Unicode.m_nondigit m_nondigit].
  rewrite (ascii_digit c Hc). now destruct (is_digit c).
Qed.

Lemma encode_m_time (s : str) :
  forallb is_ascii s = true ->
  Unicode.m_time U (encode s) = option_map encode (m_time s).
Proof.
  unfold Unicode.m_time, m_time, Unicode.ch. fold (code ":").
  destruct s as [|a [|b [|c [|d [|e tl]]]]]; try reflexivity; cbn [forallb encode map].
  - intros [Ha [Hb [Hc [Hd _]%andb_prop]%andb_prop]%andb_prop]%andb_prop.
    rewrite !code_eqb, (ascii_digit a Ha), (ascii_digit c Hc), (ascii_digit d Hd).
    now destruct (is_digit a && chr_eqb b ":" && is_digit c && is_digit d).
  - intros [Ha [Hb [Hc [Hd [He _]%andb_prop]%andb_prop]%andb_prop]%andb_prop]%andb_prop.
    rewrite !code_eqb, (ascii_digit a Ha), (ascii_digit b Hb), (ascii_digit c Hc),
      (ascii_digit d Hd), (ascii_digit e He).
    destruct (is_digit a && is_digit b && chr_eqb c ":" && is_digit d && is_digit e);
      [reflexivity|].
    now destruct (is_digit a && chr_eqb b ":" && is_digit c && is_digit d).
Qed.

Lemma encode_m_pair (s : str) :
  Unicode.m_pair (encode s) = option_map encode (m_pair s).
Proof.
  unfold Unicode.m_pair, m_pair.
  destruct s as [|a [|b [|c [|d [|e [|f tl]]]]]]; try reflexivity.
  cbn [encode map].
  change (forallb Unicode.is_capital [code a; code b; code c; code d; code e; code f])
    with (forallb is_upper [a; b; c; d; e; f]).
  now destruct (forallb is_upper [a; b; c; d; e; f]).
Qed.

Lemma encode_is_prefix (w s : str) :
  Unicode.is_prefix (encode w) (encode s) = is_prefix w s.
Proof.
  revert s. induction w as [|x w IH]; intros [|y s]; try reflexivity.
  cbn [encode map Unicode.is_prefix is_prefix]. rewrite code_eqb.
  fold (encode w) (encode s). now rewrite IH.
Qed.

Lemma encode_m_word (w s : str) :
  Unicode.m_word (encode w) (encode s) = option_map encode (m_word w s).
Proof.
  unfold Unicode.m_word, m_word. rewrite encode_is_prefix. now destruct (is_prefix w s).
Qed.

Lemma encode_m_field (s : str) :
  forallb is_ascii s = true ->
  Unicode.m_field U (encode s) = option_map encode (m_field s).
Proof.
  intros Hs. unfold Unicode.m_field, m_field, Unicode.m_alt, m_alt.
  rewrite (encode_m_time s Hs). destruct (m_time s); [reflexivity|].
  rewrite encode_m_pair. destruct (m_pair s); [reflexivity|].
  rewrite !encode_lit, !encode_m_word.
  destruct (m_word (lit "CALL") s); [reflexivity|].
  destruct (m_word (lit "PUT") s); [reflexivity|].
  unfold Unicode.m_digits. exact (encode_m_plus _ _ s ascii_digit Hs).
Qed.

Lemma encode_time_format_ok (s : str) :
  forallb is_ascii s = true ->
  Unicode.time_format_ok U (encode s) = time_format_ok s.
Proof.
  assert (forall r, Unicode.at_dollar (encode r) = at_dollar r) as Hd.
  { intros [|c [|d r]]; try reflexivity. }
  unfold Unicode.time_format_ok, time_format_ok, Unicode.ch. fold (code ":").
  destruct s as [|a [|b rest2]]; try reflexivity. cbn [forallb encode map].
  intros [Ha [Hb Hr]%andb_prop]%andb_prop.
  rewrite !code_eqb, (ascii_digit a Ha), (ascii_digit b Hb).
  destruct rest2 as [|c [|d [|e rest]]]; cbn [forallb map] in *; try reflexivity.
  - apply andb_prop in Hr as [Hc [Hd' _]%andb_prop].
    rewrite (ascii_digit c Hc), (ascii_digit d Hd'). reflexivity.
  - apply andb_prop in Hr as [Hc [Hd' [He _]%andb_prop]%andb_prop].
    rewrite !code_eqb, (ascii_digit c Hc), (ascii_digit d Hd'), (ascii_digit e He).
    fold (encode rest). change (code e :: encode rest) with (encode (e :: rest)).
    now rewrite !Hd.
Qed.

Lemma encode_upper (s : str) :
  forallb is_ascii s = true ->
  Unicode.upper U (encode s) = encode (upper s)
  /\ forallb is_ascii (upper s) = true.
Proof.
  unfold Unicode.upper, upper.
  induction s as [|c s IH]; [now split|]. cbn [forallb].
  intros [Hc Hs]%andb_prop. destruct (IH Hs) as [IH1 IH2].
  destruct (ascii_classes c Hc) as (_ & _ & _ & Hu & Hau).
  cbn [encode map flat_map forallb].
  change (Unicode.to_upper U (code c)) with (Unicode.to_upper U (code c)).
  rewrite Hu, Hau, IH2. split; [|reflexivity].
  cbn [app]. f_equal. exact IH1.
Qed.

Lemma encode_int_of_digits (s : str) :
  forallb is_ascii s = true -> forallb is_digit s = true ->
  Unicode.int_of_digits U (encode s) = int_of_digits s.
Proof.
  unfold Unicode.int_of_digits, int_of_digits. generalize 0 as acc.
  induction s as [|c s IH]; intros acc; [reflexivity|]. cbn [forallb].
  intros [Hc Hs]%andb_prop [Hd Hds]%andb_prop.
  destruct (ascii_classes c Hc) as (_ & _ & Hv & _).
  cbn [encode map fold_left]. rewrite (Hv Hd). now apply IH.
Qed.

Lemma encode_py_int (s : str) :
  forallb is_ascii s = true -> forallb is_digit s = true ->
  Unicode.py_int U (encode s) = py_int s.
Proof.
  intros Ha Hd. unfold Unicode.py_int, py_int.
  destruct s as [|c s]; [reflexivity|].
  rewrite (encode_int_of_digits _ Ha Hd). unfold encode. cbn [map].
  change (length (code c :: map code s)) with (S (length (map code s))).
  now rewrite length_map.
Qed.

(** *** The functions of the parser *)

Lemma clean_steps_ascii (line : str) :
  forallb is_ascii line = true ->
  let l1 := replace_i (strip line) in
  let l2 := re_sub m_O_digit (fun h => "0"%char :: drop 1 h) l1 in
  let l3 := re_sub m_O_colon (fun _ => lit "0:") l2 in
  let l4 := re_sub m_spaces (fun _ => []) l3 in
  forallb is_ascii l1 = true /\ forallb is_ascii l2 = true
  /\ forallb is_ascii l3 = true /\ forallb is_ascii l4 = true.
Proof.
  intros H. cbv zeta.
  assert (forallb is_ascii (replace_i (strip line)) = true) as H1.
  { unfold replace_i. apply replace_char_forall; [reflexivity|]. now apply strip_forall. }
  assert (forallb is_ascii
            (re_sub m_O_digit (fun h => "0"%char :: drop 1 h) (replace_i (strip line)))
          = true) as H2.
  { apply re_sub_forall; [apply m_O_digit_ok | | exact H1].
    intros h Hh. cbn [forallb]. now rewrite forallb_drop. }
  assert (forallb is_ascii
            (re_sub m_O_colon (fun _ => lit "0:")
               (re_sub m_O_digit (fun h => "0"%char :: drop 1 h)
                  (replace_i (strip line)))) = true) as H3
      by (apply re_sub_forall; [apply m_O_colon_ok | reflexivity | exact H2]).
  repeat split; try assumption.
  apply re_sub_forall; [apply m_plus_ok | reflexivity | exact H3].
Qed.

Lemma clean_ascii (line : str) :
  forallb is_ascii line = true -> forallb is_ascii (clean_signal_line line) = true.
Proof.
  intros H. destruct (clean_steps_ascii line H) as (_ & _ & _ & H4).
  unfold clean_signal_line, normalize_tail.
  destruct (negb (contains ";" _)); [|exact H4].
  apply join_forall; [reflexivity|].
  apply re_findall_forall; [apply m_field_ok | exact H4].
Qed.

(** On an ASCII line the two forms of [clean_signal_line] agree. *)
Lemma encode_clean_signal_line (line : str) :
  forallb is_ascii line = true ->
  Unicode.clean_signal_line U (encode line) = encode (clean_signal_line line).
Proof.
  intros H. destruct (clean_steps_ascii line H) as (H1 & H2 & H3 & H4).
  unfold Unicode.clean_signal_line, clean_signal_line, normalize_tail, replace_i in *.
  unfold Unicode.ch. fold (code "i") (code "0") (code ";").
  rewrite (encode_strip line H), !encode_lit, encode_replace_char.
  rewrite (encode_re_sub m_O_digit (Unicode.m_O_digit U) encode_m_O_digit
             (fun h => "0"%char :: drop 1 h)) by
      first [exact H1 | intros h; unfold encode; cbn [map]; now rewrite skipn_map].
  rewrite (encode_re_sub m_O_colon (Unicode.m_O_colon U) encode_m_O_colon
             (fun _ => lit "0:")) by first [exact H2 | reflexivity].
  rewrite (encode_re_sub m_spaces (Unicode.m_spaces U)
             (fun s Hs => encode_m_plus _ _ s ascii_space Hs)
             (fun _ => [])) by first [exact H3 | reflexivity].
  rewrite encode_contains.
  destruct (negb (contains ";" _)); [|reflexivity].
  rewrite (encode_re_findall m_field (Unicode.m_field U) encode_m_field _ H4).
  apply encode_join.
Qed.

(** On an ASCII line the two forms of [parse_signal] agree. *)
Lemma encode_parse_signal (line : str) :
  forallb is_ascii line = true ->
  Unicode.parse_signal U (encode line) = option_map encode_signal (parse_signal line).
Proof.
  intros H. pose proof (clean_ascii line H) as Hc.
  unfold Unicode.parse_signal, Unicode.parse_signal_body, parse_signal, parse_signal_body.
  rewrite (encode_clean_signal_line line H).
  unfold Unicode.ch. fold (code ";") (code "/").
  rewrite encode_split_on, length_map.
  pose proof (split_on_forall is_ascii ";" _ Hc) as Hparts.
  destruct (split_on ";" (clean_signal_line line)) as [|p0 [|p1 [|p2 [|p3 rest]]]];
    try reflexivity.
  cbn [forallb] in Hparts.
  apply andb_prop in Hparts as [A0 Hparts]. apply andb_prop in Hparts as [A1 Hparts].
  apply andb_prop in Hparts as [A2 Hparts]. apply andb_prop in Hparts as [A3 _].
  cbn [length Nat.ltb Nat.leb map index nth_error rbind].
  rewrite (encode_strip p0 A0).
  destruct (encode_upper p1 A1) as [-> _]. destruct (encode_upper p2 A2) as [-> _].
  change (@nil N) with (encode []). rewrite encode_replace_char.
  rewrite (encode_re_sub m_nondigit (Unicode.m_nondigit U) encode_m_nondigit
             (fun _ => [])) by first [exact A3 | reflexivity].
  fold (digits_of p3).
  rewrite encode_py_int
    by first [apply digits_of_all_digits
             | rewrite digits_of_filter; now apply filter_forall].
  destruct (py_int (digits_of p3)) as [expiry|]; cbn [rbind]; [|reflexivity].
  rewrite (encode_time_format_ok _ (strip_forall is_ascii p0 A0)).
  destruct (time_format_ok (strip p0)); cbn [negb]; [|reflexivity].
  rewrite !encode_lit, !encode_text_eqb.
  now destruct (str_eqb (upper p2) (lit "CALL") || str_eqb (upper p2) (lit "PUT")).
Qed.

Lemma encode_parse_lines (lines : list str) :
  Forall (fun line => forallb is_ascii line = true) lines ->
  forall acc,
    fold_left (fun signals line =>
                 match Unicode.parse_signal U line with
                 | Some sig => signals ++ [sig]
                 | None => signals
                 end) (map encode lines) (map encode_signal acc)
    = map encode_signal
        (fold_left (fun signals line =>
                      match parse_signal line with
                      | Some sig => signals ++ [sig]
                      | None => signals
                      end) lines acc).
Proof.
  induction 1 as [|line lines Hl _ IH]; intros acc; [reflexivity|].
  cbn [map fold_left]. rewrite (encode_parse_signal line Hl).
  destruct (parse_signal line) as [sig|]; cbn [option_map]; [|apply IH].
  rewrite <- IH. now rewrite map_app.
Qed.

(** On a file of ASCII lines the two forms of [parse_signals_from_file]
    agree. *)
Lemma encode_parse_signals_from_file (lines : list str) :
  Forall (fun line => forallb is_ascii line = true) lines ->
  Unicode.parse_signals_from_file U (Ok (map encode lines))
  = map encode_signal (parse_signals_from_file (Ok lines)).
Proof.
  intros H. exact (encode_parse_lines lines H []).
Qed.

Lemma split_pieces_forall (p : ascii -> bool) (ps : list piece) :
  pieces_all p ps = true ->
  forall cur, forallb p cur = true -> forallb (forallb p) (split_pieces cur ps) = true.
Proof.
  unfold pieces_all. induction ps as [|[c|h] ps IH]; cbn [forallb split_pieces].
  - intros _ cur ->. reflexivity.
  - intros [Hc Hps]%andb_prop cur Hcur. apply (IH Hps).
    rewrite forallb_app, Hcur. cbn. now rewrite Hc.
  - intros [Hh Hps]%andb_prop cur Hcur. rewrite Hcur, Hh. now apply (IH Hps).
Qed.

Lemma encode_index (parts : list str) (i : nat) :
  index (map encode parts) i = rmap encode (index parts i).
Proof.
  unfold index. rewrite nth_error_map. now destruct (nth_error parts i).
Qed.

Lemma index_forall (p : ascii -> bool) (parts : list str) (i : nat) (x : str) :
  forallb (forallb p) parts = true -> index parts i = Ok x -> forallb p x = true.
Proof.
  unfold index. intros Hall. destruct (nth_error parts i) as [y|] eqn:E; [|discriminate].
  intros [= <-]. apply nth_error_In in E.
  rewrite forallb_forall in Hall. now apply Hall.
Qed.

Lemma encode_for_each_step (parts : list str) (l : list nat) :
  forallb (forallb is_ascii) parts = true ->
  forall acc,
    for_each (Unicode.text_step U (map encode parts)) (map encode_signal acc) l
    = rmap (map encode_signal) (for_each (text_step parts) acc l).
Proof.
  intros Hparts. induction l as [|i l IH]; intros acc; [reflexivity|].
  cbn [for_each]. unfold Unicode.text_step at 1, text_step at 1.
  rewrite !encode_index.
  destruct (index parts i) as [t|] eqn:Et; cbn [rmap rbind]; [|reflexivity].
  destruct (index parts (i + 1)) as [b|] eqn:Eb; cbn [rmap rbind]; [|reflexivity].
  rewrite <- encode_app, encode_parse_signal
    by (rewrite forallb_app, (index_forall _ _ _ _ Hparts Et),
          (index_forall _ _ _ _ Hparts Eb); reflexivity).
  destruct (parse_signal (t ++ b)) as [sig|]; cbn [option_map rbind]; [|apply IH].
  rewrite <- IH. now rewrite map_app.
Qed.

(** On an ASCII text the two forms of [parse_signals_from_text] agree. *)
Lemma encode_parse_signals_from_text (text : str) :
  forallb is_ascii text = true ->
  Unicode.parse_signals_from_text U (encode text)
  = rmap (map encode_signal) (parse_signals_from_text text).
Proof.
  intros H. unfold Unicode.parse_signals_from_text, parse_signals_from_text.
  rewrite (encode_re_split m_time (Unicode.m_time U) encode_m_time text H), length_map.
  apply (encode_for_each_step (re_split m_time text) _) with (acc := []).
  unfold re_split. apply split_pieces_forall; [|reflexivity].
  now apply re_scan_pieces_all; [apply m_time_ok|].
Qed.

End TwoForms.
